(** * DeepResearch (TypeScript rewrite): the research loop controller

    A shallow embedding of the parts of the repository that decide the
    controller's behaviour:

    - [Errors]          src/core/types/errors.ts        (LLMError and friends)
    - [ContentReader]   services/content/ContentReader  (truncateContent, reader tail)
    - [StateManager]    src/core/base/StateManager.ts   (Immer-based store)
    - [StateMachine]    core/base/StateMachine          (generic run loop)
    - [ResearchAgent]   src/core/index.ts               (handlers, research)

    Conventions.  JavaScript numbers that count things (tokens, steps,
    status codes, milliseconds) are integers [Z]; strings are [string],
    one character per UTF-16 code unit; [Record<string, T>] objects are
    lists of own properties in the order of their creation
    ([JsObject.t]); arrays are lists.  A call that may throw
    returns a sum; asynchronous collaborators (search, LLM, reader) are
    oracles indexed by the number of the call. *)

From Stdlib Require Import ZArith String Ascii List Bool Lia DecimalString.
From stdpp Require Import base strings list.

Local Open Scope string_scope.
Local Open Scope Z_scope.

(* ===================================================================== *)
(** ** JavaScript string primitives used by the sources *)
(* ===================================================================== *)

Module JsString.

(** [s.length] *)
Definition len (s : string) : Z := Z.of_nat (String.length s).

(** Index normalisation of [slice]: a negative index counts from the
    end, and everything is clamped to [0, len]. *)
Definition clamp (n i : Z) : Z :=
  if i <? 0 then Z.max (n + i) 0 else Z.min i n.

(** [s.slice(b, e)] *)
Definition slice (s : string) (b e : Z) : string :=
  let n := len s in
  let b' := clamp n b in
  let e' := clamp n e in
  substring (Z.to_nat b') (Z.to_nat (e' - b')) s.

(** [s.lastIndexOf(c)] for a one-character needle: the last position of
    [c], or -1.  [i] is the position of the head of [s]. *)
Fixpoint lastIndexOf_from (s : string) (c : ascii) (i : Z) : Z :=
  match s with
  | EmptyString => -1
  | String a r =>
      let k := lastIndexOf_from r c (i + 1) in
      if 0 <=? k then k else if Ascii.eqb a c then i else -1
  end.

Definition lastIndexOf (s : string) (c : ascii) : Z := lastIndexOf_from s c 0.

(** [s.indexOf(c)] for a one-character needle. *)
Fixpoint indexOf_from (s : string) (c : ascii) (i : Z) : Z :=
  match s with
  | EmptyString => -1
  | String a r => if Ascii.eqb a c then i else indexOf_from r c (i + 1)
  end.

Definition indexOf (s : string) (c : ascii) : Z := indexOf_from s c 0.

(** [s.includes(needle)] *)
Fixpoint includes (s needle : string) : bool :=
  String.prefix needle s ||
  match s with
  | EmptyString => false
  | String _ r => includes r needle
  end.

(** [s.toLowerCase()] on the ASCII letters. *)
Definition lower_char (a : ascii) : ascii :=
  let n := nat_of_ascii a in
  if (Nat.leb 65 n && Nat.leb n 90)%bool then ascii_of_nat (n + 32) else a.

Fixpoint toLowerCase (s : string) : string :=
  match s with
  | EmptyString => EmptyString
  | String a r => String (lower_char a) (toLowerCase r)
  end.

End JsString.

(* ===================================================================== *)
(** ** JavaScript values that come out of [JSON.parse] *)
(* ===================================================================== *)

Module Js.

#[local] Set Warnings "-register-all".

(** A value as the handlers see it after [JSON.parse(...) as AgentAction]:
    the cast is unchecked, so every field may hold any JSON value or be
    missing.  A number is kept as the text [String(n)] prints for it. *)
Inductive jsval : Type :=
| JUndefined
| JNull
| JBool (b : bool)
| JNum (repr : string)
| JStr (s : string)
| JArr (items : list jsval)
| JObj (fields : list (string * jsval)).

(** Own property of a parsed object (keys of a parsed object are unique). *)
Fixpoint field (k : string) (fs : list (string * jsval)) : jsval :=
  match fs with
  | [] => JUndefined
  | (k', v) :: r => if String.eqb k k' then v else field k r
  end.

(** [v.name] for the names the handlers read (type, urls, queries,
    answer, references, url, query), none of which exists on an array,
    a string, a number or a boolean.  [None] is the TypeError raised
    when [v] is undefined or null. *)
Definition get_prop (v : jsval) (name : string) : option jsval :=
  match v with
  | JUndefined | JNull => None
  | JObj fs => Some (field name fs)
  | _ => Some JUndefined
  end.

(** [v[0]] *)
Definition get_index0 (v : jsval) : option jsval :=
  match v with
  | JUndefined | JNull => None
  | JArr l => Some (List.hd JUndefined l)
  | JStr (String a _) => Some (JStr (String a EmptyString))
  | JObj fs => Some (field "0" fs)
  | _ => Some JUndefined
  end.

(** [v?.name] *)
Definition get_prop_opt (v : jsval) (name : string) : jsval :=
  match get_prop v name with
  | Some x => x
  | None => JUndefined
  end.

(** ToBoolean *)
Definition truthy (v : jsval) : bool :=
  match v with
  | JUndefined | JNull => false
  | JBool b => b
  | JNum r => negb (String.eqb r "0" || String.eqb r "NaN")
  | JStr s => negb (String.eqb s "")
  | JArr _ | JObj _ => true
  end.

(** [a || b] *)
Definition or_else (a b : jsval) : jsval := if truthy a then a else b.

(** [v === 'literal'] *)
Definition is_str (v : jsval) (lit : string) : bool :=
  match v with
  | JStr s => String.eqb s lit
  | _ => false
  end.

(** ToString, as used by template literals and by property keys
    (an array prints its elements separated by commas, null and
    undefined elements as the empty string). *)
Fixpoint to_string (v : jsval) : string :=
  match v with
  | JUndefined => "undefined"
  | JNull => "null"
  | JBool true => "true"
  | JBool false => "false"
  | JNum r => r
  | JStr s => s
  | JArr l =>
      (fix join (xs : list jsval) : string :=
         match xs with
         | [] => ""
         | x :: r =>
             (match x with
              | JUndefined | JNull => ""
              | _ => to_string x
              end)
             ++ (match r with [] => "" | _ :: _ => "," ++ join r end)
         end) l
  | JObj _ => "[object Object]"
  end.

End Js.

(* ===================================================================== *)
(** ** src/core/types/errors.ts *)
(* ===================================================================== *)

Module Errors.

(** An optional numeric field ([statusCode?: number]) under the three
    operators the constructors apply to it.  [undefined] is falsy, is
    not [===] to a number, and compares false with [>=]. *)
Definition num_truthy (x : option Z) : bool :=
  match x with
  | None => false
  | Some n => negb (n =? 0)
  end.

Definition num_strict_eq (x : option Z) (k : Z) : bool :=
  match x with
  | None => false
  | Some n => n =? k
  end.

Definition num_ge (x : option Z) (k : Z) : bool :=
  match x with
  | None => false
  | Some n => k <=? n
  end.

Record LLMContext : Type := {
  provider : string;
  statusCode : option Z;
  model : option string
}.

Record LLMError : Type := {
  llm_message : string;
  llm_context : LLMContext;
  llm_code : string;
  llm_retryable : bool
}.

(** [new LLMError(message, context)] *)
Definition new_LLMError (message : string) (context : LLMContext) : LLMError :=
  {| llm_message := message;
     llm_context := context;
     llm_code := "LLM_ERROR";
     llm_retryable :=
       negb (num_truthy (statusCode context))
       || num_strict_eq (statusCode context) 429
       || num_ge (statusCode context) 500 |}.

Record SearchContext : Type := {
  search_provider : string;
  search_statusCode : option Z;
  search_query : option Js.jsval
}.

Record SearchError : Type := {
  search_message : string;
  search_context : SearchContext;
  search_code : string;
  search_retryable : bool
}.

(** [new SearchError(message, context)] *)
Definition new_SearchError (message : string) (context : SearchContext) : SearchError :=
  {| search_message := message;
     search_context := context;
     search_code := "SEARCH_ERROR";
     search_retryable :=
       negb (num_truthy (search_statusCode context))
       || num_ge (search_statusCode context) 500 |}.

(** Everything that can be raised inside the controller.  [EError] is
    a plain [new Error(message)]; [ETypeError] is the engine's error for
    a property read on undefined or null and for a write to a frozen
    object; [ESyntaxError] is the one
    [JSON.parse] raises; [EExternal] is whatever a
    collaborator (search, LLM, reader) rejects with, of which the catch
    blocks only look at [status]. *)
Inductive thrown : Type :=
| EConfiguration (message : string)
| ELLM (e : LLMError)
| ESearch (e : SearchError)
| EContent (message : string) (url : Js.jsval)
| EError (message : string)
| ETypeError
| ESyntaxError
| EExternal (status : option Z).

(** ['status' in error], then [parseInt(error.status)] unless NaN: only
    a collaborator's error can carry a status. *)
Definition status_of (e : thrown) : option Z :=
  match e with
  | EExternal st => st
  | _ => None
  end.


End Errors.

(* ===================================================================== *)
(** ** services/content/ContentReader: truncation *)
(* ===================================================================== *)

Module ContentReader.
Import JsString.

(** [truncateContent(content, maxLength)] *)
Definition truncateContent (content : string) (maxLength : Z) : string :=
  if len content <=? maxLength then content
  else
    let truncated := slice content 0 maxLength in
    let lastSpace := lastIndexOf truncated " "%char in
    slice truncated 0 lastSpace ++ "...".

(** The tail of [WebContentReader.readWithMetadata]: what becomes of the
    extracted and cleaned page text under [options?.maxLength].  The
    fetch and the regular-expression clean-up before it are the
    collaborator's; [cleaned] is their output. *)
Definition readWithMetadata_content (options_maxLength : option Z) (cleaned : string) : string :=
  let maxLength :=
    match options_maxLength with
    | Some m => if m =? 0 then 50000 else m
    | None => 50000
    end in
  if maxLength <? len cleaned then truncateContent cleaned maxLength else cleaned.

End ContentReader.

(* ===================================================================== *)
(** ** Objects used as records *)
(* ===================================================================== *)

Module JsObject.

(** The state keeps [urls] and [content] in plain objects keyed by URL.
    Reading [obj[key]] also finds what every object inherits from
    [Object.prototype]; these are the inherited names. *)
Definition inherited_names : list string :=
  ["constructor"; "toString"; "toLocaleString"; "valueOf"; "hasOwnProperty";
   "isPrototypeOf"; "propertyIsEnumerable"; "__proto__"; "__defineGetter__";
   "__defineSetter__"; "__lookupGetter__"; "__lookupSetter__"].

Definition inherited_name (key : string) : bool :=
  existsb (String.eqb key) inherited_names.

(** The value of a decimal digit. *)
Definition digit (c : ascii) : option N :=
  let n := N_of_ascii c in
  if ((48 <=? n) && (n <=? 57))%N then Some (n - 48)%N else None.

Fixpoint numeral (s : string) (acc : N) : option N :=
  match s with
  | EmptyString => Some acc
  | String c r =>
      match digit c with
      | Some d => numeral r (acc * 10 + d)%N
      | None => None
      end
  end.

(** A key is an array index when it is the canonical numeral of an
    integer from 0 to 2^32 - 2. *)
Definition array_index (key : string) : option N :=
  match key with
  | EmptyString => None
  | String c r =>
      if Ascii.eqb c "0" && negb (String.eqb r "") then None
      else
        match numeral key 0 with
        | Some n => if (n <? 4294967295)%N then Some n else None
        | None => None
        end
  end.

(** An object: its own properties, in the order they were created. *)
Record t (V : Type) : Type := { own : list (string * V) }.
Arguments own {V} _.

(** The keys in the order of their creation. *)
Definition keys {V : Type} (o : t V) : list string := (own o).*1.

(** The own property [key], if there is one. *)
Definition get_own {V : Type} (key : string) (o : t V) : option V :=
  snd <$> List.find (fun p => String.eqb (fst p) key) (own o).

(** [o[key] = v] on an object with no setter for [key]: an own
    property keeps its place, a new one goes last. *)
Fixpoint put {V : Type} (key : string) (v : V) (l : list (string * V))
  : list (string * V) :=
  match l with
  | [] => [(key, v)]
  | (k, x) :: r =>
      if String.eqb k key then (k, v) :: r else (k, x) :: put key v r
  end.

Definition set_own {V : Type} (key : string) (v : V) (o : t V) : t V :=
  {| own := put key v (own o) |}.

#[global] Instance t_lookup {V : Type} : Lookup string V (t V) := get_own.
#[global] Instance t_insert {V : Type} : Insert string V (t V) := set_own.
#[global] Instance t_empty {V : Type} : Empty (t V) := {| own := [] |}.

(** Whether [o[key]] is truthy, for an object whose own values are
    objects: an own property is, and so is everything inherited. *)
Definition truthy_at {V : Type} (o : t V) (key : string) : bool :=
  match o !! key with
  | Some _ => true
  | None => inherited_name key
  end.

(** Ascending order of array indices. *)
Fixpoint place {A : Type} (x : N * A) (l : list (N * A)) : list (N * A) :=
  match l with
  | [] => [x]
  | y :: r => if (fst x <? fst y)%N then x :: l else y :: place x r
  end.

Definition ascending {A : Type} (l : list (N * A)) : list (N * A) :=
  foldr place [] l.

Definition indexed {V : Type} (p : string * V) : option (N * (string * V)) :=
  match array_index (fst p) with
  | Some n => Some (n, p)
  | None => None
  end.

(** [Object.entries(o)]: the array indices in ascending order, then the
    other keys in the order of their creation. *)
Definition entries {V : Type} (o : t V) : list (string * V) :=
  ((ascending (omap indexed (own o))).*2
   ++ List.filter (fun p => match array_index (fst p) with
                            | Some _ => false
                            | None => true
                            end) (own o))%list.

(** [Object.values(o)] *)
Definition values {V : Type} (o : t V) : list V := (entries o).*2.


End JsObject.

(* ===================================================================== *)
(** ** src/core/base/StateManager.ts *)
(* ===================================================================== *)

Module StateManager.

(** [arr.slice(b)] and [arr.slice(b, e)] *)
Definition arr_slice_from {A : Type} (l : list A) (b : Z) : list A :=
  drop (Z.to_nat (JsString.clamp (Z.of_nat (length l)) b)) l.

Definition arr_slice {A : Type} (l : list A) (b e : Z) : list A :=
  let n := Z.of_nat (length l) in
  let b' := JsString.clamp n b in
  let e' := JsString.clamp n e in
  take (Z.to_nat (e' - b')) (drop (Z.to_nat b') l).

(** The most recent [n] items of a list. *)
Definition last_items {A : Type} (n : nat) (l : list A) : list A :=
  drop (length l - n) l.

Record SearchResult : Type := {
  sr_url : string;
  sr_title : string;
  sr_snippet : string;
  sr_relevance : string;      (* a number, kept as printed text *)
  sr_visited : bool
}.

Record WebContent : Type := {
  wc_url : string;
  wc_content : string;
  wc_timestamp : Z
}.

Inductive KnowledgeType : Type := Kqa | Ksearch | Kvisit.

Record KnowledgeItem : Type := {
  k_question : string;
  k_answer : string;
  k_type : KnowledgeType;
  k_timestamp : Z
}.

Record ResearchMetrics : Type := {
  searchCount : Z;
  visitCount : Z;
  evaluationCount : Z;
  errorCount : Z
}.

Record Budget : Type := {
  total : Z;
  used : Z
}.

Record ResearchState : Type := {
  query : string;
  step : Z;
  startTime : Z;
  lastUpdate : Z;
  budget : Budget;
  knowledge : list KnowledgeItem;
  urls : JsObject.t SearchResult;
  content : JsObject.t WebContent;
  metrics : ResearchMetrics
}.

Record StateManagerOptions : Type := {
  tokenBudget : Z;
  maxKnowledge : option Z;
  maxUrls : option Z
}.

(** Immer is a dependency, not part of the repository.  What it does
    with assignments to ordinary properties of a draft is fixed in
    [update] below.  An assignment to the key [__proto__] reaches the
    accessor every object inherits instead of creating a property; what
    Immer makes of that is left open: it throws, or it lets the write
    through and counts it as a change of the draft, or lets it through
    without counting it. *)
Inductive accessor_write : Type :=
| Throws (message : string)
| Counted
| Uncounted.

(** The manager: its private [state], whether that object has been
    frozen, its [options], and the Immer it runs on.  The listener set
    is left out (nothing in the repository subscribes) and so is
    [patchHistory], which no method writes. *)
Record t : Type := {
  state : ResearchState;
  frozen : bool;
  options : StateManagerOptions;
  proto_write : accessor_write
}.

(** [new StateManager(options)]; [now] is the value of [new Date()]. *)
Definition create (immer : accessor_write) (opts : StateManagerOptions) (now : Z) : t :=
  {| state :=
       {| query := "";
          step := 0;
          startTime := now;
          lastUpdate := now;
          budget := {| total := tokenBudget opts; used := 0 |};
          knowledge := [];
          urls := ∅;
          content := ∅;
          metrics := {| searchCount := 0; visitCount := 0;
                        evaluationCount := 0; errorCount := 0 |} |};
     frozen := false;
     options := opts;
     proto_write := immer |}.

(** *** Field updates on a draft *)

Definition with_lastUpdate (d : ResearchState) (now : Z) : ResearchState :=
  {| query := query d; step := step d; startTime := startTime d;
     lastUpdate := now; budget := budget d; knowledge := knowledge d;
     urls := urls d; content := content d; metrics := metrics d |}.

Definition with_query_step (d : ResearchState) (q : string) (n : Z) : ResearchState :=
  {| query := q; step := n; startTime := startTime d;
     lastUpdate := lastUpdate d; budget := budget d; knowledge := knowledge d;
     urls := urls d; content := content d; metrics := metrics d |}.

Definition with_urls (d : ResearchState) (u : JsObject.t SearchResult) : ResearchState :=
  {| query := query d; step := step d; startTime := startTime d;
     lastUpdate := lastUpdate d; budget := budget d; knowledge := knowledge d;
     urls := u; content := content d; metrics := metrics d |}.

Definition with_content (d : ResearchState) (c : JsObject.t WebContent) : ResearchState :=
  {| query := query d; step := step d; startTime := startTime d;
     lastUpdate := lastUpdate d; budget := budget d; knowledge := knowledge d;
     urls := urls d; content := c; metrics := metrics d |}.

Definition with_knowledge (d : ResearchState) (k : list KnowledgeItem) : ResearchState :=
  {| query := query d; step := step d; startTime := startTime d;
     lastUpdate := lastUpdate d; budget := budget d; knowledge := k;
     urls := urls d; content := content d; metrics := metrics d |}.

Definition with_used (d : ResearchState) (u : Z) : ResearchState :=
  {| query := query d; step := step d; startTime := startTime d;
     lastUpdate := lastUpdate d;
     budget := {| total := total (budget d); used := u |};
     knowledge := knowledge d;
     urls := urls d; content := content d; metrics := metrics d |}.


Definition with_metrics (d : ResearchState) (m : ResearchMetrics) : ResearchState :=
  {| query := query d; step := step d; startTime := startTime d;
     lastUpdate := lastUpdate d; budget := budget d; knowledge := knowledge d;
     urls := urls d; content := content d; metrics := m |}.

(** *** The updaters, as functions from a draft to the next state *)

(** What the draft holds when the updater returns.  For a key that
    every object inherits (see [JsObject.inherited_names]) a draft of
    [urls] or [content] is not an ordinary record: [markUrlVisited]
    stores under it an object that has only [visited], which
    [SearchResult] cannot hold, and the draft below leaves it out;
    under [__proto__] nothing is stored at all. *)

Definition initialize_recipe (q : string) (d : ResearchState) : ResearchState :=
  with_query_step d q 0.

Definition addSearchResults_recipe (results : list SearchResult) (d : ResearchState)
  : ResearchState :=
  let d1 :=
    fold_left
      (fun acc result =>
         if JsObject.truthy_at (urls acc) (sr_url result) then acc
         else with_urls acc (<[sr_url result := result]> (urls acc)))
      results d in
  let m := metrics d1 in
  with_metrics d1
    {| searchCount := searchCount m + 1; visitCount := visitCount m;
       evaluationCount := evaluationCount m; errorCount := errorCount m |}.

(** [{ ...r, visited: true }] *)
Definition visited (r : SearchResult) : SearchResult :=
  {| sr_url := sr_url r; sr_title := sr_title r;
     sr_snippet := sr_snippet r; sr_relevance := sr_relevance r;
     sr_visited := true |}.

Definition markUrlVisited_recipe (url : string) (d : ResearchState) : ResearchState :=
  match urls d !! url with
  | Some r => with_urls d (<[url := visited r]> (urls d))
  | None => d
  end.

Definition addContent_recipe (url text : string) (now : Z) (d : ResearchState)
  : ResearchState :=
  let d1 :=
    if String.eqb url "__proto__" then d
    else
      with_content d
        (<[url := {| wc_url := url; wc_content := text; wc_timestamp := now |}]>
           (content d)) in
  let m := metrics d1 in
  with_metrics d1
    {| searchCount := searchCount m; visitCount := visitCount m + 1;
       evaluationCount := evaluationCount m; errorCount := errorCount m |}.

Definition addKnowledge_recipe (opts : StateManagerOptions)
    (question answer : string) (type : KnowledgeType) (now : Z)
    (d : ResearchState) : ResearchState :=
  let item := {| k_question := question; k_answer := answer;
                 k_type := type; k_timestamp := now |} in
  let appended := (knowledge d ++ [item])%list in
  match maxKnowledge opts with
  | Some m =>
      if negb (m =? 0) && (m <? Z.of_nat (length appended))
      then with_knowledge d (arr_slice_from appended (- m))
      else with_knowledge d appended
  | None => with_knowledge d appended
  end.

Definition trackTokenUsage_recipe (tokens : Z) (d : ResearchState) : ResearchState :=
  with_used d (used (budget d) + tokens).

Definition incrementErrorCount_recipe (d : ResearchState) : ResearchState :=
  let m := metrics d in
  with_metrics d
    {| searchCount := searchCount m; visitCount := visitCount m;
       evaluationCount := evaluationCount m; errorCount := errorCount m + 1 |}.

Definition incrementStep_recipe (d : ResearchState) : ResearchState :=
  with_query_step d (query d) (step d + 1).

(** *** What Immer sees of an updater *)

(** A draft records whether anything was assigned to it.  Storing in
    a property the very value it has does not count; storing a new
    object always does. *)
Inductive drafted : Type :=
| Assigned (draft : ResearchState)
| Unassigned
| Refused (message : string).

Definition through_accessor (immer : accessor_write) (draft : ResearchState)
    (counts_anyway : bool) : drafted :=
  match immer with
  | Throws message => Refused message
  | Counted => Assigned draft
  | Uncounted => if counts_anyway then Assigned draft else Unassigned
  end.

(** [draft.query = query; draft.step = 0] *)
Definition initialize_updater (q : string) (d : ResearchState) : drafted :=
  if String.eqb q (query d) && (step d =? 0) then Unassigned
  else Assigned (initialize_recipe q d).

(** [draft.metrics.searchCount++] assigns whatever the results are. *)
Definition addSearchResults_updater (results : list SearchResult) (d : ResearchState)
  : drafted :=
  Assigned (addSearchResults_recipe results d).

(** [if (draft.urls[url]) draft.urls[url] = { ... }]: the test passes
    for an own record and for an inherited name. *)
Definition markUrlVisited_updater (immer : accessor_write) (url : string)
    (d : ResearchState) : drafted :=
  if JsObject.truthy_at (urls d) url then
    if String.eqb url "__proto__"
    then through_accessor immer (markUrlVisited_recipe url d) false
    else Assigned (markUrlVisited_recipe url d)
  else Unassigned.

(** [draft.content[url] = { ... }; draft.metrics.visitCount++] *)
Definition addContent_updater (immer : accessor_write) (url text : string) (now : Z)
    (d : ResearchState) : drafted :=
  if String.eqb url "__proto__"
  then through_accessor immer (addContent_recipe url text now d) true
  else Assigned (addContent_recipe url text now d).

(** [draft.knowledge = [...draft.knowledge, item]] stores a new array. *)
Definition addKnowledge_updater (opts : StateManagerOptions)
    (question answer : string) (type : KnowledgeType) (now : Z)
    (d : ResearchState) : drafted :=
  Assigned (addKnowledge_recipe opts question answer type now d).

(** [draft.budget.used += tokens] *)
Definition trackTokenUsage_updater (tokens : Z) (d : ResearchState) : drafted :=
  if tokens =? 0 then Unassigned else Assigned (trackTokenUsage_recipe tokens d).

Definition incrementErrorCount_updater (d : ResearchState) : drafted :=
  Assigned (incrementErrorCount_recipe d).

Definition incrementStep_updater (d : ResearchState) : drafted :=
  Assigned (incrementStep_recipe d).

(** *** [update] *)

(** Immer's [produce(base, recipe)] runs the recipe on a draft of
    [base].  When something was assigned it returns the next state and
    leaves [base] as it is; when nothing was, it returns [base] itself,
    after freezing it; when Immer refuses an assignment it throws. *)
Definition produce (base : ResearchState) (recipe : ResearchState -> drafted)
  : drafted :=
  recipe base.

Definition freeze (sm : t) : t :=
  {| state := state sm; frozen := true; options := options sm;
     proto_write := proto_write sm |}.

(** [this.state.lastUpdate = new Date()] on a state that is not frozen. *)
Definition touch (sm : t) (now : Z) : t :=
  {| state := with_lastUpdate (state sm) now; frozen := false;
     options := options sm; proto_write := proto_write sm |}.

(** [update(updater)]: the value of [produce] is dropped; then
    [this.state.lastUpdate = new Date()] writes to the state that was
    there before, which is a TypeError when that object is frozen.  The
    first component is the error thrown, if any. *)
Definition update (sm : t) (updater : ResearchState -> drafted) (now : Z)
  : option Errors.thrown * t :=
  match produce (state sm) updater with
  | Refused message => (Some (Errors.EError message), sm)
  | Unassigned => (Some Errors.ETypeError, freeze sm)
  | Assigned _next =>
      if frozen sm then (Some Errors.ETypeError, sm)
      else (None, touch sm now)
  end.

(** *** Mutators *)

Definition initialize (sm : t) (q : string) (now : Z) : option Errors.thrown * t :=
  update sm (initialize_updater q) now.

Definition addSearchResults (sm : t) (results : list SearchResult) (now : Z)
  : option Errors.thrown * t :=
  update sm (addSearchResults_updater results) now.

Definition markUrlVisited (sm : t) (url : string) (now : Z)
  : option Errors.thrown * t :=
  update sm (markUrlVisited_updater (proto_write sm) url) now.

Definition addContent (sm : t) (url text : string) (now : Z)
  : option Errors.thrown * t :=
  update sm (addContent_updater (proto_write sm) url text now) now.

Definition addKnowledge (sm : t) (question answer : string) (type : KnowledgeType)
    (now : Z) : option Errors.thrown * t :=
  update sm (addKnowledge_updater (options sm) question answer type now) now.

Definition trackTokenUsage (sm : t) (tokens : Z) (now : Z)
  : option Errors.thrown * t :=
  update sm (trackTokenUsage_updater tokens) now.

Definition incrementErrorCount (sm : t) (now : Z) : option Errors.thrown * t :=
  update sm incrementErrorCount_updater now.

Definition incrementStep (sm : t) (now : Z) : option Errors.thrown * t :=
  update sm incrementStep_updater now.

(** The mutators as data, to quantify over "every state operation". *)
Inductive op : Type :=
| OpInitialize (q : string)
| OpAddSearchResults (results : list SearchResult)
| OpMarkUrlVisited (url : string)
| OpAddContent (url text : string)
| OpAddKnowledge (question answer : string) (type : KnowledgeType)
| OpTrackTokenUsage (tokens : Z)
| OpIncrementErrorCount
| OpIncrementStep.

Definition apply_op (sm : t) (o : op) (now : Z) : option Errors.thrown * t :=
  match o with
  | OpInitialize q => initialize sm q now
  | OpAddSearchResults rs => addSearchResults sm rs now
  | OpMarkUrlVisited u => markUrlVisited sm u now
  | OpAddContent u c => addContent sm u c now
  | OpAddKnowledge q a ty => addKnowledge sm q a ty now
  | OpTrackTokenUsage n => trackTokenUsage sm n now
  | OpIncrementErrorCount => incrementErrorCount sm now
  | OpIncrementStep => incrementStep sm now
  end.

(** The recipe an operation hands to [update]. *)
Definition recipe_of (opts : StateManagerOptions) (o : op) (now : Z)
  : ResearchState -> ResearchState :=
  match o with
  | OpInitialize q => initialize_recipe q
  | OpAddSearchResults rs => addSearchResults_recipe rs
  | OpMarkUrlVisited u => markUrlVisited_recipe u
  | OpAddContent u c => addContent_recipe u c now
  | OpAddKnowledge q a ty => addKnowledge_recipe opts q a ty now
  | OpTrackTokenUsage n => trackTokenUsage_recipe n
  | OpIncrementErrorCount => incrementErrorCount_recipe
  | OpIncrementStep => incrementStep_recipe
  end.

(** The updater an operation hands to [update]. *)
Definition updater_of (immer : accessor_write) (opts : StateManagerOptions)
    (o : op) (now : Z) : ResearchState -> drafted :=
  match o with
  | OpInitialize q => initialize_updater q
  | OpAddSearchResults rs => addSearchResults_updater rs
  | OpMarkUrlVisited u => markUrlVisited_updater immer u
  | OpAddContent u c => addContent_updater immer u c now
  | OpAddKnowledge q a ty => addKnowledge_updater opts q a ty now
  | OpTrackTokenUsage n => trackTokenUsage_updater n
  | OpIncrementErrorCount => incrementErrorCount_updater
  | OpIncrementStep => incrementStep_updater
  end.

(** A session: operations with the clock reading of each, by a caller
    that goes on after an operation has thrown. *)
Fixpoint apply_ops (sm : t) (os : list (op * Z)) : t :=
  match os with
  | [] => sm
  | (o, now) :: r => apply_ops (snd (apply_op sm o now)) r
  end.

(** What each operation of the session threw, if anything. *)
Fixpoint outcomes (sm : t) (os : list (op * Z)) : list (option Errors.thrown) :=
  match os with
  | [] => []
  | (o, now) :: r =>
      fst (apply_op sm o now) :: outcomes (snd (apply_op sm o now)) r
  end.

(** *** Readers *)

Definition getState (sm : t) : ResearchState := state sm.

(** [used >= total * 0.85], compared exactly (both sides times 100). *)
Definition isBudgetExhausted (sm : t) : bool :=
  total (budget (state sm)) * 85 <=? used (budget (state sm)) * 100.

Definition getUsedTokens (sm : t) : Z := used (budget (state sm)).

Definition getQuery (sm : t) : string := query (state sm).

Definition getMetrics (sm : t) : ResearchMetrics := metrics (state sm).

(** [Object.entries] of a record; [Object.values] is its second
    components. *)
Definition Object_entries {V : Type} (m : JsObject.t V) : list (string * V) :=
  JsObject.entries m.

Record RefItem : Type := { ref_url : string; ref_quote : string }.

(** [{ url: c.url, quote: c.content.slice(0, 200) + '...' }] *)
Definition reference_of (c : WebContent) : RefItem :=
  {| ref_url := wc_url c;
     ref_quote := JsString.slice (wc_content c) 0 200 ++ "..." |}.

Definition getReferences (sm : t) (limit : Z) : list RefItem :=
  map reference_of (arr_slice ((Object_entries (content (state sm))).*2) 0 limit).

Record Context : Type := {
  ctx_query : string;
  ctx_step : Z;
  ctx_knowledge : list KnowledgeItem;
  ctx_visitedUrls : list string
}.

Definition getContext (sm : t) : Context :=
  {| ctx_query := query (state sm);
     ctx_step := step (state sm);
     ctx_knowledge := arr_slice_from (knowledge (state sm)) (-10);
     ctx_visitedUrls := (Object_entries (content (state sm))).*1 |}.

End StateManager.

(* ===================================================================== *)
(** ** core/base/StateMachine: the generic run loop *)
(* ===================================================================== *)

Module StateMachine.
Import Errors.

(** Decimal text of an integer, as a template literal prints it. *)
Definition show (n : Z) : string := NilZero.string_of_int (Z.to_int n).

(** [TState extends { status: string }] *)
Class HasStatus (TState : Type) : Type := status : TState -> string.

(** How an awaited handler ends within the transition timeout: it
    fulfils with the next state, it rejects, or it has not settled when
    the timer fires. *)
Inductive outcome (A : Type) : Type :=
| Fulfilled (a : A)
| Rejected (e : thrown)
| Pending.
Arguments Fulfilled {A} a.
Arguments Rejected {A} e.
Arguments Pending {A}.

Record StateMachineOptions : Type := {
  maxSteps : Z;
  maxDuration : Z;
  timeout : Z
}.

(** What happens around the machine while it runs: the clock and the
    caller.  Iterations of one [run] are counted from 0. *)
Record Env : Type := {
  (** [Date.now()] when [run] starts *)
  start_time : Z;
  (** [Date.now()] read by [checkTerminationConditions] in iteration [i] *)
  now_at : nat -> Z;
  (** a [cancel(reason)] the caller issues while the transition of
      iteration [i] is awaited *)
  cancel_during : nat -> option string
}.

Inductive run_result (TState : Type) : Type :=
| Returned (s : TState)
| Threw (e : thrown).
Arguments Returned {TState} s.
Arguments Threw {TState} e.

Section Generic.
Context {TState W : Type} `{HasStatus TState}.

(** A transition handler acts on the world [W] it shares with the
    rest of the program. *)
Definition StateTransitionHandler : Type := TState -> W -> outcome TState * W.
Definition StateValidator : Type := TState -> bool.

(** The constructor arguments that never change. *)
Record Definition_ : Type := {
  options : StateMachineOptions;
  transitionHandlers : string -> option StateTransitionHandler;  (* Map.get *)
  validators : string -> option StateValidator                   (* Map.get *)
}.

(** What [currentState] can hold.  [executeWithTimeout] races the
    handler against [setTimeout(timeout, callback)] of
    node:timers/promises, a promise that fulfils with its second
    argument; when the timer wins, the race yields that callback and
    [run] stores it as the next state. *)
Inductive current : Type :=
| State (s : TState)
| TimerCallback.

(** [(state as { status: string }).status]; [None] is undefined. *)
Definition status_of (c : current) : option string :=
  match c with
  | State s => Some (status s)
  | TimerCallback => None
  end.

Definition show_status (o : option string) : string :=
  match o with
  | Some s => s
  | None => "undefined"
  end.

(** The mutable fields.  A history entry keeps [from] and [to]; its
    timestamp and duration are never read back. *)
Record t : Type := {
  currentState : current;
  stepCount : nat;
  isCancelled : bool;
  cancelReason : option string;
  startTime : Z;
  history : list (current * current)
}.

(** [new StateMachine(initialState, ...)]; [now] is [Date.now()]. *)
Definition create (initialState : TState) (now : Z) : t :=
  {| currentState := State initialState;
     stepCount := 0;
     isCancelled := false;
     cancelReason := None;
     startTime := now;
     history := [] |}.

(** [isTerminal] *)
Definition isTerminal (c : current) : bool :=
  match status_of c with
  | Some s => String.eqb s "completed" || String.eqb s "failed"
              || String.eqb s "cancelled"
  | None => false
  end.

(** [cancel(reason)] *)
Definition cancel (m : t) (reason : string) : t :=
  {| currentState := currentState m;
     stepCount := stepCount m;
     isCancelled := true;
     cancelReason := Some reason;
     startTime := startTime m;
     history := history m |}.

Definition isCancelledState (m : t) : bool := isCancelled m.
Definition getStepCount (m : t) : nat := stepCount m.

(** [checkTerminationConditions]: [Some e] is the error it throws. *)
Definition checkTerminationConditions (d : Definition_) (m : t) (now : Z)
  : option thrown :=
  if maxSteps (options d) <=? Z.of_nat (stepCount m) then
    Some (EError ("Max steps (" ++ show (maxSteps (options d))
                  ++ ") exceeded at step " ++ show (Z.of_nat (stepCount m))))
  else
    let elapsed := now - startTime m in
    if maxDuration (options d) <? elapsed then
      Some (EError ("Max duration (" ++ show (maxDuration (options d))
                    ++ "ms) exceeded after " ++ show elapsed ++ "ms"))
    else None.

(** [recordTransition]: push, and drop the oldest beyond 100. *)
Definition recordTransition (h : list (current * current)) (from to : current)
  : list (current * current) :=
  let h' := (h ++ [(from, to)])%list in
  if (100 <? length h')%nat then tl h' else h'.

(** [executeWithTimeout(() => handler(state, config), timeout)] *)
Definition executeWithTimeout (h : StateTransitionHandler) (s : TState) (w : W)
  : (thrown + current) * W :=
  match h s w with
  | (Fulfilled s', w') => (inr (State s'), w')
  | (Rejected e, w') => (inl e, w')
  | (Pending, w') => (inr TimerCallback, w')
  end.

(** The caller's [cancel] arriving during the await of iteration [i]. *)
Definition deliver_cancel (env : Env) (i : nat) (m : t) : t :=
  match cancel_during env i with
  | Some reason => cancel m reason
  | None => m
  end.

(** The [while] loop of [run]; [i] counts the iterations of this run
    and [fuel] bounds them. *)
Fixpoint run_loop (d : Definition_) (env : Env) (fuel : nat) (i : nat)
    (m : t) (w : W) : option (run_result current * t * W) :=
  match fuel with
  | O => None
  | S fuel' =>
      if isTerminal (currentState m) then Some (Returned (currentState m), m, w)
      else if isCancelled m then
        Some (Threw (EError ("State machine cancelled: "
                             ++ show_status (cancelReason m))), m, w)
      else
        match checkTerminationConditions d m (now_at env i) with
        | Some e => Some (Threw e, m, w)
        | None =>
            let no_handler :=
              Some (Threw (EError ("No transition handler for state: "
                                   ++ show_status (status_of (currentState m)))),
                    m, w) in
            match currentState m with
            | TimerCallback => no_handler
            | State s =>
                match transitionHandlers d (status s) with
                | None => no_handler
                | Some handler =>
                    let valid :=
                      match validators d (status s) with
                      | Some validator => validator s
                      | None => true
                      end in
                    if negb valid then
                      Some (Threw (EError ("Invalid state: " ++ status s)), m, w)
                    else
                      let '(out, w') := executeWithTimeout handler s w in
                      let m1 := deliver_cancel env i m in
                      match out with
                      | inl e => Some (Threw e, m1, w')
                      | inr nextState =>
                          run_loop d env fuel' (S i)
                            {| currentState := nextState;
                               stepCount := S (stepCount m1);
                               isCancelled := isCancelled m1;
                               cancelReason := cancelReason m1;
                               startTime := startTime m1;
                               history :=
                                 recordTransition (history m1)
                                   (currentState m1) nextState |}
                            w'
                      end
                end
            end
        end
  end.

(** [run()] *)
Definition run (d : Definition_) (env : Env) (fuel : nat) (m : t) (w : W)
  : option (run_result current * t * W) :=
  run_loop d env fuel 0
    {| currentState := currentState m;
       stepCount := stepCount m;
       isCancelled := isCancelled m;
       cancelReason := cancelReason m;
       startTime := start_time env;
       history := history m |}
    w.

(** Steps still allowed before [checkTerminationConditions] stops the
    machine. *)
Definition remaining (d : Definition_) (m : t) : nat :=
  Z.to_nat (maxSteps (options d) - Z.of_nat (stepCount m)).

(** Iterations that are enough for [run] from [m]. *)
Definition run_fuel (d : Definition_) (m : t) : nat := S (remaining d m).

(** The clock readings of iterations [i .. i+n-1] were all within
    [maxDuration] of [start]. *)
Definition within_duration (d : Definition_) (env : Env) (start : Z) (i n : nat)
  : bool :=
  forallb (fun j => now_at env j - start <=? maxDuration (options d)) (seq i n).

(** Transitions that follow one another from [start] to [finish]. *)
Fixpoint chained (start : current) (transitions : list (current * current))
    (finish : current) : Prop :=
  match transitions with
  | [] => start = finish
  | (from, to) :: rest => from = start /\ chained to rest finish
  end.

(** The last [n] entries of a list. *)
Definition window {A : Type} (n : nat) (l : list A) : list A :=
  drop (length l - n) l.

(** A property of the state held in [currentState], if it is one. *)
Definition holds_of (P : TState -> Prop) (c : current) : Prop :=
  match c with
  | State s => P s
  | TimerCallback => True
  end.

(** What is true of every finished run of the loop. *)
Record finished (d : Definition_) (env : Env) (i : nat) (m : t)
    (r : run_result current) (m' : t) : Prop := {
  fin_start : startTime m' = startTime m;
  fin_grow : (stepCount m <= stepCount m')%nat;
  fin_bound : (stepCount m' - stepCount m <= remaining d m)%nat;
  fin_clock :
    within_duration d env (startTime m) i (stepCount m' - stepCount m) = true;
  fin_result :
    match r with
    | Returned c => c = currentState m' /\ isTerminal c = true
    | Threw _ => True
    end
}.

End Generic.

Arguments Definition_ TState W : clear implicits.
Arguments t TState : clear implicits.
Arguments current TState : clear implicits.
Arguments holds_of {TState} P c.

End StateMachine.

(* ===================================================================== *)
(** ** src/core/index.ts: ResearchAgent *)
(* ===================================================================== *)

Module ResearchAgent.
Import Js Errors.
Import StateMachine (outcome, Fulfilled, Rejected, Pending).

(** *** Collaborators *)

(** How an awaited collaborator call ends.  For a rejection, [status]
    is what the handlers' catch blocks extract from the error: the
    integer [parseInt(error.status)] when the error has a status that
    parses, nothing otherwise. *)
Inductive reply (A : Type) : Type :=
| Resolves (a : A)
| Rejects (status : option Z)
| Never.
Arguments Resolves {A} a.
Arguments Rejects {A} status.
Arguments Never {A}.

Record ProviderResult : Type := {
  pr_url : string;
  pr_title : string;
  pr_snippet : string;
  pr_relevance : option string
}.

(** The injected services and the engine.  Each service is an oracle
    answering its [n]-th call; it may answer anything. *)
Record Collaborators : Type := {
  llm_name : string;
  llm_model : string;
  search : nat -> reply (list ProviderResult);    (* searchProvider.search *)
  generate : nat -> reply string;                 (* llmProvider.generate, .content *)
  read : nat -> reply string;                     (* contentReader.read *)
  JSON_parse : string -> option jsval;            (* None: SyntaxError *)
  date : nat -> Z                                 (* new Date() after n service calls *)
}.

(** The four prompts, each with the data it is built from. *)
Inductive Purpose : Type :=
| Decide (context : StateManager.Context)            (* buildDecisionPrompt(context) *)
| Extract (url : jsval)                              (* Content from ${url} *)
| Continue (query : string) (items : nat)            (* query, knowledge.length *)
| Final (query : string) (knowledge : list StateManager.KnowledgeItem).

Inductive Call : Type :=
| CallSearch (query : jsval)
| CallGenerate (purpose : Purpose)
| CallRead (url : jsval).

Definition is_search (c : Call) : bool :=
  match c with CallSearch _ => true | _ => false end.
Definition is_generate (c : Call) : bool :=
  match c with CallGenerate _ => true | _ => false end.
Definition is_read (c : Call) : bool :=
  match c with CallRead _ => true | _ => false end.
Definition is_final (c : Call) : bool :=
  match c with CallGenerate (Final _ _) => true | _ => false end.

(** The world the handlers act on: the injected state manager and the
    service calls made so far (most recent last). *)
Record World : Type := {
  manager : StateManager.t;
  calls : list Call
}.

Record AgentConfig : Type := {
  tokenBudget : Z;
  maxSteps : Z;
  maxDuration : Z;
  maxBadAttempts : Z;
  timeout : Z;
  enableTelemetry : bool
}.

(** *** core/types/agent: the states *)

(** [references] of a completed state: the action's own field, or the
    list the state manager builds. *)
Inductive references : Type :=
| FromAction (v : jsval)
| FromManager (l : list StateManager.RefItem).

(** The fields hold what the handlers put there at run time: values
    copied from a parsed action are arbitrary. *)
Inductive AgentState : Type :=
| Idle
| Initializing (query : string) (startTime : Z)
| Searching (step : Z) (query : jsval)
| Reading (step : Z) (url : jsval)
| Evaluating (step : Z) (answer : jsval)
| Reflecting (step : Z) (feedback : string)
| Completed (answer : jsval) (refs : references)
| Failed (error : string)
| Cancelled (reason : string).

#[export] Instance AgentState_status : StateMachine.HasStatus AgentState :=
  fun s =>
    match s with
    | Idle => "idle"
    | Initializing _ _ => "initializing"
    | Searching _ _ => "searching"
    | Reading _ _ => "reading"
    | Evaluating _ _ => "evaluating"
    | Reflecting _ _ => "reflecting"
    | Completed _ _ => "completed"
    | Failed _ => "failed"
    | Cancelled _ => "cancelled"
    end.

Definition hasStatus (s : AgentState) (lit : string) : bool :=
  String.eqb (StateMachine.status s) lit.

Definition isIdle (s : AgentState) : bool := hasStatus s "idle".
Definition isInitializing (s : AgentState) : bool := hasStatus s "initializing".
Definition isSearching (s : AgentState) : bool := hasStatus s "searching".
Definition isReading (s : AgentState) : bool := hasStatus s "reading".
Definition isEvaluating (s : AgentState) : bool := hasStatus s "evaluating".
Definition isReflecting (s : AgentState) : bool := hasStatus s "reflecting".

(** [isTerminal] of core/types/agent *)
Definition isTerminal (s : AgentState) : bool :=
  hasStatus s "completed" || hasStatus s "failed" || hasStatus s "cancelled".

Record ResearchResult : Type := {
  r_query : string;
  r_answer : jsval;
  r_references : references;
  r_metrics : StateManager.ResearchMetrics;
  r_duration : Z;
  r_steps : nat
}.

(** *** A small monad for handlers: world passing, exceptions, and
    awaits that never settle *)

Definition M (A : Type) : Type := World -> outcome A * World.

Definition ret {A : Type} (a : A) : M A := fun w => (Fulfilled a, w).
Definition throw {A : Type} (e : thrown) : M A := fun w => (Rejected e, w).

Definition bind {A B : Type} (m : M A) (k : A -> M B) : M B :=
  fun w =>
    match m w with
    | (Fulfilled a, w') => k a w'
    | (Rejected e, w') => (Rejected e, w')
    | (Pending, w') => (Pending, w')
    end.

(** [try { m } catch (error) { h error }] *)
Definition try_catch {A : Type} (m : M A) (h : thrown -> M A) : M A :=
  fun w =>
    match m w with
    | (Rejected e, w') => h e w'
    | r => r
    end.

Notation "'let!' x ':=' m 'in' k" := (bind m (fun x => k))
  (at level 10, x name, m at level 100, k at level 200).
Notation "'do!' m 'in' k" := (bind m (fun _ => k))
  (at level 10, m at level 100, k at level 200).

(** Lift a property read that raises TypeError on undefined or null. *)
Definition access (o : option jsval) : M jsval :=
  match o with
  | Some v => ret v
  | None => throw ETypeError
  end.



(** [post m Q]: whenever [m] fulfils, its value satisfies [Q]. *)
Definition post {A : Type} (m : M A) (Q : A -> Prop) : Prop :=
  forall w, match m w with
            | (Fulfilled a, _) => Q a
            | _ => True
            end.

(** The states a handler can hand back: every one but idle, failed and
    cancelled. *)
Definition made_by_handler (s : AgentState) : bool :=
  match s with
  | Idle | Failed _ | Cancelled _ => false
  | _ => true
  end.

Definition not_failed_or_cancelled (s : AgentState) : bool :=
  match s with
  | Failed _ | Cancelled _ => false
  | _ => true
  end.

Section Agent.
Variable config : AgentConfig.
Variable svc : Collaborators.

Definition now (w : World) : Z := date svc (length (calls w)).

(** State manager calls: a mutator returns, or throws. *)
Definition on_manager (f : StateManager.t -> Z -> option thrown * StateManager.t)
  : M unit :=
  fun w =>
    let '(error, sm) := f (manager w) (now w) in
    let w' := {| manager := sm; calls := calls w |} in
    match error with
    | Some e => (Rejected e, w')
    | None => (Fulfilled tt, w')
    end.

Definition count_calls (p : Call -> bool) (w : World) : nat :=
  length (List.filter p (calls w)).

(** An awaited service call: logged, then answered by the oracle. *)
Definition await {A : Type} (c : Call) (oracle : nat -> reply A)
    (p : Call -> bool) : M A :=
  fun w =>
    let w' := {| manager := manager w; calls := (calls w ++ [c])%list |} in
    match oracle (count_calls p w) with
    | Resolves a => (Fulfilled a, w')
    | Rejects st => (Rejected (EExternal st), w')
    | Never => (Pending, w')
    end.


Definition get_manager : M StateManager.t :=
  fun w => (Fulfilled (manager w), w).

(** The LLMError the catch blocks build from what they caught. *)
Definition llm_error (message : string) (caught : thrown) : thrown :=
  ELLM (new_LLMError message
          {| provider := llm_name svc;
             statusCode := status_of caught;
             model := Some (llm_model svc) |}).

(** [content.match(/\{[\s\S]*\}/)]: from the first opening brace to
    the last closing brace after it. *)
Definition match_braces (content : string) : option string :=
  let i := JsString.indexOf content "{"%char in
  let j := JsString.lastIndexOf content "}"%char in
  if (0 <=? i) && (i <? j) then Some (JsString.slice content i (j + 1))
  else None.

(** [parseAction(content)].  The default action's [id] and
    [timestamp], which nothing reads, are left out. *)
Definition parseAction (content : string) : M jsval :=
  try_catch
    (match match_braces content with
     | Some text =>
         match JSON_parse svc text with
         | Some parsed => ret parsed
         | None => throw ESyntaxError
         end
     | None =>
         let! sm := get_manager in
         ret (JObj [("type", JStr "search");
                    ("think", JStr content);
                    ("queries",
                     JArr [JObj [("query", JStr (StateManager.getQuery sm));
                                 ("priority", JStr "high")]])])
     end)
    (fun _ =>
       throw (ELLM (new_LLMError "Failed to parse action"
                      {| provider := llm_name svc;
                         statusCode := None;
                         model := Some (llm_model svc) |}))).

(** [decideNextAction()] *)
Definition decideNextAction : M jsval :=
  let! sm := get_manager in
  let context := StateManager.getContext sm in
  try_catch
    (let! content :=
       await (CallGenerate (Decide context)) (generate svc) is_generate in
     parseAction content)
    (fun error => throw (llm_error "Failed to decide next action" error)).

(** [extractKnowledge(content, url)] *)
Definition extractKnowledge (url : jsval) : M string :=
  try_catch
    (await (CallGenerate (Extract url)) (generate svc) is_generate)
    (fun error => throw (llm_error "Failed to extract knowledge" error)).

(** [shouldContinueResearch()] *)
Definition shouldContinueResearch : M bool :=
  let! sm := get_manager in
  let metrics := StateManager.getMetrics sm in
  if StateManager.isBudgetExhausted sm then ret false
  else if maxBadAttempts config <=? StateManager.errorCount metrics then ret false
  else
    let context := StateManager.getContext sm in
    try_catch
      (let! content :=
         await (CallGenerate (Continue (StateManager.ctx_query context)
                                (length (StateManager.ctx_knowledge context))))
           (generate svc) is_generate in
       ret (negb (JsString.includes (JsString.toLowerCase content) "yes")))
      (fun _ => ret false).

(** [generateFinalAnswer()] *)
Definition generateFinalAnswer : M (string * list StateManager.RefItem) :=
  let! sm := get_manager in
  let context := StateManager.getContext sm in
  let references := StateManager.getReferences sm 10 in
  try_catch
    (let! content :=
       await (CallGenerate (Final (StateManager.ctx_query context)
                              (StateManager.ctx_knowledge context)))
         (generate svc) is_generate in
     ret (content, references))
    (fun error => throw (llm_error "Failed to generate final answer" error)).

(** *** Transition handlers *)

Definition handleIdle (state : AgentState) : M AgentState :=
  if negb (isIdle state) then throw (EError "Invalid state for idle handler")
  else
    let! sm := get_manager in
    let query := StateManager.getQuery sm in
    if String.eqb query "" then throw (EConfiguration "Query not initialized")
    else fun w => ret (Initializing query (now w)) w.

Definition handleInitializing (state : AgentState) : M AgentState :=
  match state with
  | Initializing query _ =>
      do! on_manager StateManager.incrementStep in
      ret (Searching 1 (JStr query))
  | _ => throw (EError "Invalid state for initializing handler")
  end.

Definition convert (r : ProviderResult) : StateManager.SearchResult :=
  {| StateManager.sr_url := pr_url r;
     StateManager.sr_title := pr_title r;
     StateManager.sr_snippet := pr_snippet r;
     StateManager.sr_relevance :=
       match pr_relevance r with Some x => x | None => "0.5" end;
     StateManager.sr_visited := false |}.

(** The [visit] branch shared by [handleSearching] and
    [handleReflecting]. *)
Definition visit_first (action : jsval) (step : Z) : M AgentState :=
  let! urls := access (get_prop action "urls") in
  let! firstUrl := access (get_index0 urls) in
  if negb (truthy firstUrl) then throw (EError "No URLs to visit")
  else
    let! url := access (get_prop firstUrl "url") in
    ret (Reading step url).

(** [action.queries[0]?.query || fallback] *)
Definition first_query (action : jsval) (fallback : jsval) : M jsval :=
  let! queries := access (get_prop action "queries") in
  let! q0 := access (get_index0 queries) in
  ret (or_else (get_prop_opt q0 "query") fallback).

Definition handleSearching (state : AgentState) : M AgentState :=
  match state with
  | Searching step query =>
      try_catch
        (let! results := await (CallSearch query) (search svc) is_search in
         let convertedResults := map convert results in
         do! on_manager
               (fun sm t => StateManager.addSearchResults sm convertedResults t) in
         let! action := decideNextAction in
         let! type := access (get_prop action "type") in
         if is_str type "visit" then visit_first action step
         else if is_str type "search" then
           let! q := first_query action query in
           ret (Searching (step + 1) q)
         else if is_str type "answer" then
           let! answer := access (get_prop action "answer") in
           ret (Evaluating step answer)
         else ret (Searching (step + 1) query))
        (fun error =>
           do! on_manager StateManager.incrementErrorCount in
           throw (ESearch (new_SearchError "Search failed"
                             {| search_provider := "search";
                                search_statusCode := status_of error;
                                search_query := Some query |})))
  | _ => throw (EError "Invalid state for searching handler")
  end.

Definition handleReading (state : AgentState) : M AgentState :=
  match state with
  | Reading step url =>
      let key := to_string url in
      try_catch
        (let! content := await (CallRead url) (read svc) is_read in
         do! on_manager (fun sm t => StateManager.markUrlVisited sm key t) in
         do! on_manager (fun sm t => StateManager.addContent sm key content t) in
         let! knowledge := extractKnowledge url in
         do! on_manager
               (fun sm t =>
                  StateManager.addKnowledge sm key knowledge StateManager.Kvisit t) in
         ret (Evaluating step (JStr ("Visited " ++ to_string url))))
        (fun _ =>
           do! on_manager StateManager.incrementErrorCount in
           throw (EContent "Failed to read content" url))
  | _ => throw (EError "Invalid state for reading handler")
  end.

Definition handleEvaluating (state : AgentState) : M AgentState :=
  match state with
  | Evaluating step _ =>
      let! shouldContinue := shouldContinueResearch in
      if shouldContinue then ret (Reflecting step "Evaluating progress")
      else
        let! finalAnswer := generateFinalAnswer in
        ret (Completed (JStr (fst finalAnswer)) (FromManager (snd finalAnswer)))
  | _ => throw (EError "Invalid state for evaluating handler")
  end.

Definition handleReflecting (state : AgentState) : M AgentState :=
  match state with
  | Reflecting step _ =>
      let! action := decideNextAction in
      let! type := access (get_prop action "type") in
      if is_str type "search" then
        let! sm := get_manager in
        let! q := first_query action (JStr (StateManager.getQuery sm)) in
        ret (Searching (step + 1) q)
      else if is_str type "visit" then visit_first action step
      else if is_str type "answer" then
        let! answer := access (get_prop action "answer") in
        let! refs := access (get_prop action "references") in
        ret (Completed answer (FromAction refs))
      else
        let! finalAnswer := generateFinalAnswer in
        ret (Completed (JStr (fst finalAnswer)) (FromManager (snd finalAnswer)))
  | _ => throw (EError "Invalid state for reflecting handler")
  end.

(** *** The machine of [createStateMachine] *)

Definition handlers (status : string)
  : option (@StateMachine.StateTransitionHandler AgentState World) :=
  if String.eqb status "idle" then Some handleIdle
  else if String.eqb status "initializing" then Some handleInitializing
  else if String.eqb status "searching" then Some handleSearching
  else if String.eqb status "reading" then Some handleReading
  else if String.eqb status "evaluating" then Some handleEvaluating
  else if String.eqb status "reflecting" then Some handleReflecting
  else None.

Definition validators (status : string) : option (AgentState -> bool) :=
  if String.eqb status "idle" then Some isIdle
  else if String.eqb status "initializing" then Some isInitializing
  else if String.eqb status "searching" then Some isSearching
  else if String.eqb status "reading" then Some isReading
  else if String.eqb status "evaluating" then Some isEvaluating
  else if String.eqb status "reflecting" then Some isReflecting
  else None.

Definition definition : StateMachine.Definition_ AgentState World :=
  {| StateMachine.options :=
       {| StateMachine.maxSteps := maxSteps config;
          StateMachine.maxDuration := maxDuration config;
          StateMachine.timeout := timeout config |};
     StateMachine.transitionHandlers := handlers;
     StateMachine.validators := validators |}.

(** The agent's own mutable part is its state machine; the state
    manager it was given lives in the world. *)
Definition t : Type := StateMachine.t AgentState.

(** [new ResearchAgent(config, options, stateManager)] *)
Definition create (t0 : Z) : t := StateMachine.create Idle t0.

(** [cancel(reason)] *)
Definition cancel (agent : t) (reason : string) : t :=
  StateMachine.cancel agent reason.

(** [buildResult(state)]; [elapsed] and [steps] are what the machine
    reports. *)
Definition buildResult (state : AgentState) (sm : StateManager.t)
    (elapsed : Z) (steps : nat) : ResearchResult :=
  match state with
  | Completed answer refs =>
      {| r_query := StateManager.getQuery sm; r_answer := answer;
         r_references := refs; r_metrics := StateManager.getMetrics sm;
         r_duration := elapsed; r_steps := steps |}
  | Failed error =>
      {| r_query := StateManager.getQuery sm;
         r_answer := JStr ("Research failed: " ++ error);
         r_references := FromManager [];
         r_metrics := StateManager.getMetrics sm;
         r_duration := elapsed; r_steps := steps |}
  | Cancelled reason =>
      {| r_query := StateManager.getQuery sm;
         r_answer := JStr ("Research cancelled: " ++ reason);
         r_references := FromManager [];
         r_metrics := StateManager.getMetrics sm;
         r_duration := elapsed; r_steps := steps |}
  | _ =>
      (* the else branch, taken for whatever is not completed or failed *)
      {| r_query := StateManager.getQuery sm;
         r_answer := JStr "Research cancelled: undefined";
         r_references := FromManager [];
         r_metrics := StateManager.getMetrics sm;
         r_duration := elapsed; r_steps := steps |}
  end.

(** [handleError(error)]: everything raised here is an Error already. *)
Definition handleError (error : thrown) : thrown := error.

Inductive research_result : Type :=
| Result (r : ResearchResult)
| Raised (e : thrown).

(** [research(query)] *)
Definition research (env : StateMachine.Env) (fuel : nat) (agent : t)
    (query : string) (w : World) : option (research_result * t * World) :=
  let '(error, sm) := StateManager.initialize (manager w) query (now w) in
  let w1 := {| manager := sm; calls := calls w |} in
  match error with
  | Some e => Some (Raised (handleError e), agent, w1)
  | None =>
      match StateMachine.run definition env fuel agent w1 with
      | None => None
      | Some (StateMachine.Threw error, agent', w') =>
          Some (Raised (handleError error), agent', w')
      | Some (StateMachine.Returned StateMachine.TimerCallback, agent', w') =>
          Some (Raised (handleError (EError "Research terminated in non-terminal state")),
                agent', w')
      | Some (StateMachine.Returned (StateMachine.State finalState), agent', w') =>
          if negb (isTerminal finalState) then
            Some (Raised (handleError (EError "Research terminated in non-terminal state")),
                  agent', w')
          else
            Some (Result (buildResult finalState (manager w')
                            (now w' - StateMachine.startTime agent')
                            (StateMachine.stepCount agent')),
                  agent', w')
      end
  end.

End Agent.
End ResearchAgent.

(* ===================================================================== *)
(** ** Concrete sessions used by the examples *)
(* ===================================================================== *)

Module Scenarios.
Import Js Errors ResearchAgent.

(** The defaults of [AgentConfigSchema], with a 1000-token budget. *)
Definition default_config : AgentConfig :=
  {| tokenBudget := 1000; maxSteps := 100; maxDuration := 300000;
     maxBadAttempts := 3; timeout := 30000; enableTelemetry := false |}.

Definition short_config : AgentConfig :=
  {| tokenBudget := 1000; maxSteps := 4; maxDuration := 300000;
     maxBadAttempts := 3; timeout := 30000; enableTelemetry := false |}.

(** The options the CLI passes to the state manager. *)
Definition cli_options (budget : Z) : StateManager.StateManagerOptions :=
  {| StateManager.tokenBudget := budget;
     StateManager.maxKnowledge := Some 100;
     StateManager.maxUrls := Some 50 |}.

(** An Immer that throws when a recipe assigns to [__proto__]. *)
Definition immer : StateManager.accessor_write :=
  StateManager.Throws "[Immer] Object.setPrototypeOf() cannot be used on an Immer draft".

(** [new StateManager({ tokenBudget: 1000, ... })] at time 0. *)
Definition fresh_manager : StateManager.t :=
  StateManager.create immer (cli_options 1000) 0.

(** A manager whose state holds the given query and token usage. *)
Definition manager_holding (q : string) (used : Z) : StateManager.t :=
  {| StateManager.state :=
       {| StateManager.query := q;
          StateManager.step := 0;
          StateManager.startTime := 0;
          StateManager.lastUpdate := 0;
          StateManager.budget := {| StateManager.total := 1000; StateManager.used := used |};
          StateManager.knowledge := [];
          StateManager.urls := ∅;
          StateManager.content := ∅;
          StateManager.metrics :=
            {| StateManager.searchCount := 0; StateManager.visitCount := 0;
               StateManager.evaluationCount := 0; StateManager.errorCount := 0 |} |};
     StateManager.frozen := false;
     StateManager.options := cli_options 1000;
     StateManager.proto_write := immer |}.


(** A manager whose state object is the given one, not frozen. *)
Definition manager_with (d : StateManager.ResearchState)
    (opts : StateManager.StateManagerOptions) : StateManager.t :=
  {| StateManager.state := d;
     StateManager.frozen := false;
     StateManager.options := opts;
     StateManager.proto_write := immer |}.

Definition world_of (sm : StateManager.t) : World := {| manager := sm; calls := [] |}.

(** The double-quote character, and a JSON string literal. *)
Definition dq : string := String (ascii_of_nat 34) EmptyString.
Definition lit (s : string) : string := dq ++ s ++ dq.

(** The text  {"type":"answer","answer":"4","references":[]}  *)
Definition answer_text : string :=
  "{" ++ lit "type" ++ ":" ++ lit "answer" ++ "," ++ lit "answer" ++ ":" ++ lit "4"
  ++ "," ++ lit "references" ++ ":[]}".

Definition answer_action : jsval :=
  JObj [("type", JStr "answer"); ("answer", JStr "4"); ("references", JArr [])].

(** The text  {"type":"answer","answer":"5","references":[]}  *)
Definition second_answer_text : string :=
  "{" ++ lit "type" ++ ":" ++ lit "answer" ++ "," ++ lit "answer" ++ ":" ++ lit "5"
  ++ "," ++ lit "references" ++ ":[]}".

Definition second_answer_action : jsval :=
  JObj [("type", JStr "answer"); ("answer", JStr "5"); ("references", JArr [])].

(** [JSON.parse] on the texts the examples feed it: the two answer
    texts above and the empty object; any other text used below is not
    JSON. *)
Definition parse_sample (text : string) : option jsval :=
  if String.eqb text answer_text then Some answer_action
  else if String.eqb text second_answer_text then Some second_answer_action
  else if String.eqb text "{}" then Some (JObj [])
  else None.

(** A clock that stands still, and a caller that never cancels. *)
Definition calm : StateMachine.Env :=
  {| StateMachine.start_time := 0;
     StateMachine.now_at := fun _ => 0;
     StateMachine.cancel_during := fun _ => None |}.

(** Services: the search finds nothing, the reader returns a page, and
    the LLM answers its [n]-th call with [llm n]. *)
Definition services (srch : nat -> reply (list ProviderResult))
    (llm : nat -> reply string) : Collaborators :=
  {| llm_name := "openai";
     llm_model := "gpt-4o-mini";
     search := srch;
     generate := llm;
     read := fun _ => Resolves "page text";
     JSON_parse := parse_sample;
     date := fun _ => 0 |}.

Definition search_ok : nat -> reply (list ProviderResult) := fun _ => Resolves [].

(** An LLM that never produces an action: every reply is prose. *)
Definition llm_prose : nat -> reply string := fun _ => Resolves "hello".

(** An LLM that first replies with prose, then answers 4, then says
    the research is not complete, then answers 5. *)
Definition llm_answers : nat -> reply string :=
  fun n =>
    match n with
    | 0%nat => Resolves "hello"
    | 1%nat => Resolves answer_text
    | 2%nat => Resolves "no"
    | _ => Resolves second_answer_text
    end.

(** An LLM whose every reply is the first answer text. *)
Definition llm_always_answers : nat -> reply string := fun _ => Resolves answer_text.

(** The kind of a service call. *)
Definition kind (c : Call) : string :=
  match c with
  | CallSearch _ => "search"
  | CallGenerate (Decide _) => "decide"
  | CallGenerate (Extract _) => "extract"
  | CallGenerate (Continue _ _) => "continue"
  | CallGenerate (Final _ _) => "final"
  | CallRead _ => "read"
  end.


(** The caller cancels while transition [k] is awaited. *)
Definition cancelling (k : nat) (reason : string) : StateMachine.Env :=
  {| StateMachine.start_time := 0;
     StateMachine.now_at := fun _ => 0;
     StateMachine.cancel_during :=
       fun i => if Nat.eqb i k then Some reason else None |}.

(** The clock reads [t] at every check after a start at 0. *)
Definition late (t : Z) : StateMachine.Env :=
  {| StateMachine.start_time := 0;
     StateMachine.now_at := fun _ => t;
     StateMachine.cancel_during := fun _ => None |}.

(** Parts of what [research] and [run] give back. *)
Definition result_of {A B C : Type} (x : option (A * B * C)) : option A :=
  match x with
  | Some (a, _, _) => Some a
  | None => None
  end.

Definition machine_of {A B C : Type} (x : option (A * B * C)) : option B :=
  match x with
  | Some (_, b, _) => Some b
  | None => None
  end.


Definition final_status (x : option (research_result * ResearchAgent.t * World))
  : option string :=
  match machine_of x with
  | Some m => StateMachine.status_of (StateMachine.currentState m)
  | None => None
  end.

(** A handler of the generic machine that settles at once and leaves
    the world alone. *)
Definition stub (next : AgentState -> AgentState)
  : @StateMachine.StateTransitionHandler AgentState unit :=
  fun s w => (StateMachine.Fulfilled (next s), w).

(** [createStateMachine(initialState, config, options, handlers)] with
    a single handler, which hands back the searching state it was
    given, and a limit of three steps. *)
Definition spinning : StateMachine.Definition_ AgentState unit :=
  {| StateMachine.options :=
       {| StateMachine.maxSteps := 3; StateMachine.maxDuration := 300000;
          StateMachine.timeout := 30000 |};
     StateMachine.transitionHandlers :=
       fun status =>
         if String.eqb status "searching" then Some (stub (fun s => s)) else None;
     StateMachine.validators := fun _ => None |}.

(** The same with two handlers: from searching to evaluating, and from
    evaluating to completed with the answer 4. *)
Definition two_steps : StateMachine.Definition_ AgentState unit :=
  {| StateMachine.options :=
       {| StateMachine.maxSteps := 100; StateMachine.maxDuration := 300000;
          StateMachine.timeout := 30000 |};
     StateMachine.transitionHandlers :=
       fun status =>
         if String.eqb status "searching"
         then Some (stub (fun _ => Evaluating 1 (JStr "4")))
         else if String.eqb status "evaluating"
         then Some (stub (fun _ => Completed (JStr "4") (FromManager [])))
         else None;
     StateMachine.validators := fun _ => None |}.

(** The status of the state a run left the machine in. *)
Definition status_after {A C : Type} (x : option (A * StateMachine.t AgentState * C))
  : option string :=
  match machine_of x with
  | Some m => StateMachine.status_of (StateMachine.currentState m)
  | None => None
  end.

(** The draft after the [addKnowledge] updater has run [n] times on a
    new manager's state, adding the items q1/a1, ..., qn/an at times
    1, ..., n. *)
Fixpoint drafted (opts : StateManager.StateManagerOptions) (n : nat)
  : StateManager.ResearchState :=
  match n with
  | O => StateManager.state (StateManager.create immer opts 0)
  | S k =>
      StateManager.addKnowledge_recipe opts
        ("q" ++ StateMachine.show (Z.of_nat n)) ("a" ++ StateMachine.show (Z.of_nat n))
        StateManager.Kqa (Z.of_nat n) (drafted opts k)
  end.

Definition item (n : nat) : StateManager.KnowledgeItem :=
  {| StateManager.k_question := "q" ++ StateMachine.show (Z.of_nat n);
     StateManager.k_answer := "a" ++ StateMachine.show (Z.of_nat n);
     StateManager.k_type := StateManager.Kqa;
     StateManager.k_timestamp := Z.of_nat n |}.

Definition capped (m : Z) : StateManager.StateManagerOptions :=
  {| StateManager.tokenBudget := 1000;
     StateManager.maxKnowledge := Some m;
     StateManager.maxUrls := Some 50 |}.

End Scenarios.

(* ===================================================================== *)
(** ** What handlers are measured against *)
(* ===================================================================== *)

Module HandlerSpecs.
Import Js Errors ResearchAgent.
Import StateMachine (Fulfilled, Rejected, Pending).

(** Two managers whose states differ at most in [lastUpdate] (and in
    whether the state object is frozen). *)
Definition same_but_lastUpdate (a b : StateManager.t) : Prop :=
  StateManager.with_lastUpdate (StateManager.state a) 0
  = StateManager.with_lastUpdate (StateManager.state b) 0
  /\ StateManager.options a = StateManager.options b
  /\ StateManager.proto_write a = StateManager.proto_write b.

(** [frames m]: [m] leaves the state manager as it found it, [lastUpdate]
    apart. *)
Definition frames {A : Type} (m : M A) : Prop :=
  forall w, same_but_lastUpdate (manager w) (manager (snd (m w))).

(** [fails m R]: whenever [m] rejects, the error satisfies [R]. *)
Definition fails {A : Type} (m : M A) (R : thrown -> Prop) : Prop :=
  forall w, match fst (m w) with
            | Rejected e => R e
            | _ => True
            end.

(** [grows n m]: [m] only adds to the log of service calls, and adds at
    most [n] calls. *)
Definition grows {A : Type} (n : nat) (m : M A) : Prop :=
  forall w, exists added,
    calls (snd (m w)) = (calls w ++ added)%list /\ (length added <= n)%nat.





(** [wp m Q E w]: run from [w], [m] ends in a world that satisfies [Q]
    with its value when it fulfils and [E] with its error when it
    rejects. *)
Definition wp {A : Type} (m : M A) (Q : A -> World -> Prop)
    (E : thrown -> World -> Prop) (w : World) : Prop :=
  match m w with
  | (Fulfilled a, w') => Q a w'
  | (Rejected e, w') => E e w'
  | (Pending, _) => True
  end.

(** The world after the call [c] has been logged. *)
Definition logged (w : World) (c : Call) : World :=
  {| manager := manager w; calls := (calls w ++ [c])%list |}.

(** The state object of the world's manager is not frozen. *)
Definition unfrozen (w : World) : Prop := StateManager.frozen (manager w) = false.

(** The last service call was the request for the next action. *)
Definition decided_last (w : World) : Prop :=
  exists before context, calls w = (before ++ [CallGenerate (Decide context)])%list.

(** The errors with which [research] can end. *)
Inductive research_error (svc : Collaborators) : thrown -> Prop :=
| raises_cancelled (reason : string) :
    research_error svc (EError ("State machine cancelled: " ++ reason))
| raises_max_steps (limit step : Z) :
    research_error svc
      (EError ("Max steps (" ++ StateMachine.show limit ++ ") exceeded at step "
               ++ StateMachine.show step))
| raises_max_duration (limit elapsed : Z) :
    research_error svc
      (EError ("Max duration (" ++ StateMachine.show limit ++ "ms) exceeded after "
               ++ StateMachine.show elapsed ++ "ms"))
| raises_after_timeout :
    research_error svc (EError "No transition handler for state: undefined")
| raises_configuration :
    research_error svc (EConfiguration "Query not initialized")
| raises_search (status : option Z) (query : jsval) :
    research_error svc
      (ESearch (new_SearchError "Search failed"
                  {| search_provider := "search";
                     search_statusCode := status;
                     search_query := Some query |}))
| raises_content (url : jsval) :
    research_error svc (EContent "Failed to read content" url)
| raises_llm_final (status : option Z) :
    research_error svc
      (ELLM (new_LLMError "Failed to generate final answer"
               {| provider := llm_name svc;
                  statusCode := status;
                  model := Some (llm_model svc) |}))
| raises_llm_decide (status : option Z) :
    research_error svc
      (ELLM (new_LLMError "Failed to decide next action"
               {| provider := llm_name svc;
                  statusCode := status;
                  model := Some (llm_model svc) |}))
| raises_type_error :
    research_error svc ETypeError
| raises_no_urls :
    research_error svc (EError "No URLs to visit").

(** What an error raised to the caller tells about the world: a
    TypeError is raised with the state of the manager frozen, or right
    after the reply to a request for the next action. *)
Definition accounted (svc : Collaborators) (e : thrown) (w : World) : Prop :=
  research_error svc e
  /\ (e = ETypeError ->
      StateManager.frozen (manager w) = true \/ decided_last w).

End HandlerSpecs.

(* ===================================================================== *)
(** ** The error hierarchy *)
(* ===================================================================== *)

Module AgentErrors.
Import Errors.

Record ContentError : Type := {
  content_message : string;
  content_url : option string;
  content_originalError : option string;   (* the original error's message *)
  content_code : string;
  content_retryable : bool
}.

(** [new ContentError(message, url, originalError)] *)
Definition new_ContentError (message : string) (url : option string)
    (originalError : option string) : ContentError :=
  {| content_message := message;
     content_url := url;
     content_originalError := originalError;
     content_code := "CONTENT_ERROR";
     content_retryable :=
       match originalError with
       | None => true
       | Some m =>
           JsString.includes m "ECONNREFUSED"
           || JsString.includes m "ETIMEDOUT"
           || JsString.includes m "ENOTFOUND"
       end |}.

(** The subclasses of [AgentError].  The context of the classes whose
    [retryable] is a constant is left out: no function below reads it. *)
Inductive AgentError : Type :=
| Configuration (message : string)
| Validation (message : string)
| LLM (e : LLMError)
| Search (e : SearchError)
| Content (e : ContentError)
| Timeout (message : string)
| BudgetExceeded (message : string)
| MaxSteps (message : string)
| StateMachineFailure (message : string).

(** [error.code]: a constant of each class. *)
Definition code (e : AgentError) : string :=
  match e with
  | Configuration _ => "CONFIGURATION_ERROR"
  | Validation _ => "VALIDATION_ERROR"
  | LLM _ => "LLM_ERROR"
  | Search _ => "SEARCH_ERROR"
  | Content _ => "CONTENT_ERROR"
  | Timeout _ => "TIMEOUT_ERROR"
  | BudgetExceeded _ => "BUDGET_EXCEEDED"
  | MaxSteps _ => "MAX_STEPS_EXCEEDED"
  | StateMachineFailure _ => "STATE_MACHINE_ERROR"
  end.

Definition retryable (e : AgentError) : bool :=
  match e with
  | LLM e => llm_retryable e
  | Search e => search_retryable e
  | Content e => content_retryable e
  | _ => false
  end.

Definition message (e : AgentError) : string :=
  match e with
  | Configuration m | Validation m | Timeout m | BudgetExceeded m | MaxSteps m
  | StateMachineFailure m => m
  | LLM e => llm_message e
  | Search e => search_message e
  | Content e => content_message e
  end.

(** [isRetryable(error)] and [isNonRetryable(error)] *)
Definition isRetryable (e : AgentError) : bool := retryable e.
Definition isNonRetryable (e : AgentError) : bool := negb (retryable e).

(** What a [catch] can hold: an AgentError, another Error (of which
    only the message is read), or any other value. *)
Inductive unknown : Type :=
| UAgentError (e : AgentError)
| UError (message : string)
| UValue (v : Js.jsval).

(** [toAgentError(error)].  The [originalError] the second branch adds
    to the context is not a field any constructor reads. *)
Definition toAgentError (error : unknown) : AgentError :=
  match error with
  | UAgentError e => e
  | UError m =>
      LLM (new_LLMError m {| provider := "unknown"; statusCode := None; model := None |})
  | UValue (Js.JStr s) =>
      LLM (new_LLMError s {| provider := "unknown"; statusCode := None; model := None |})
  | UValue v =>
      LLM (new_LLMError (Js.to_string v)
             {| provider := "unknown"; statusCode := None; model := None |})
  end.

End AgentErrors.

(* ===================================================================== *)
(** ** The text functions of the content reader *)
(* ===================================================================== *)

Module ContentText.
Import JsString.

(** A character is a code unit below 256.  [\s] and [trim] agree on
    what white space is: tab, line feed, vertical tab, form feed,
    carriage return, space and the no-break space. *)
Definition TAB : ascii := "009"%char.
Definition LF : ascii := "010"%char.
Definition CR : ascii := "013"%char.
Definition SPACE : ascii := " "%char.
Definition LT : ascii := "<"%char.
Definition GT : ascii := ">"%char.

Definition is_space (a : ascii) : bool :=
  let n := nat_of_ascii a in
  (Nat.leb 9 n && Nat.leb n 13) || Nat.eqb n 32 || Nat.eqb n 160.

(** [[ \t]] *)
Definition is_blank (a : ascii) : bool := Ascii.eqb a SPACE || Ascii.eqb a TAB.

(** [s.trim()] *)
Fixpoint trimStart (s : string) : string :=
  match s with
  | EmptyString => EmptyString
  | String a r => if is_space a then trimStart r else s
  end.

Fixpoint trimEnd (s : string) : string :=
  match s with
  | EmptyString => EmptyString
  | String a r =>
      match trimEnd r with
      | EmptyString => if is_space a then EmptyString else String a EmptyString
      | r' => String a r'
      end
  end.

Definition trim (s : string) : string := trimEnd (trimStart s).

(** [s.split(/\s+/)]: the pieces between the runs of white space, the
    empty pieces at either end included.  [cur] is the piece being read
    and [skipping] says that the last character read was white space. *)
Fixpoint split_go (cur : string) (skipping : bool) (s : string) : list string :=
  match s with
  | EmptyString => [cur]
  | String a r =>
      if is_space a then
        if skipping then split_go cur true r else cur :: split_go EmptyString true r
      else split_go (cur ++ String a EmptyString) false r
  end.

Definition split_spaces (s : string) : list string := split_go EmptyString false s.

(** [calculateWordCount(text)] *)
Definition calculateWordCount (text : string) : Z :=
  Z.of_nat (length (List.filter (fun word => 0 <? len word)
                      (split_spaces (trim text)))).

(** [calculateReadingTime(wordCount)]: [Math.ceil(wordCount / 200)] of
    an integer count. *)
Definition calculateReadingTime (wordCount : Z) : Z := - ((- wordCount) / 200).

(** [s.replace(/\r\n/g, '\n')] *)
Fixpoint replace_crlf (s : string) : string :=
  match s with
  | EmptyString => EmptyString
  | String a r =>
      match r with
      | String b r' =>
          if Ascii.eqb a CR && Ascii.eqb b LF then String LF (replace_crlf r')
          else String a (replace_crlf r)
      | EmptyString => String a EmptyString
      end
  end.

Fixpoint newlines (k : nat) : string :=
  match k with
  | O => EmptyString
  | S k' => String LF (newlines k')
  end.

(** [s.replace(/\n{3,}/g, '\n\n')]; [k] line feeds have been read and
    not yet written. *)
Fixpoint collapse_newlines_go (k : nat) (s : string) : string :=
  match s with
  | EmptyString => newlines (Nat.min k 2)
  | String a r =>
      if Ascii.eqb a LF then collapse_newlines_go (S k) r
      else newlines (Nat.min k 2) ++ String a (collapse_newlines_go 0 r)
  end.

Definition collapse_newlines (s : string) : string := collapse_newlines_go 0 s.

(** [s.replace(/p+/g, ' ')] for a class [p] of characters; [in_run]
    says that the last character read was in the class. *)
Fixpoint collapse_go (p : ascii -> bool) (in_run : bool) (s : string) : string :=
  match s with
  | EmptyString => EmptyString
  | String a r =>
      if p a then
        if in_run then collapse_go p true r else String SPACE (collapse_go p true r)
      else String a (collapse_go p false r)
  end.

Definition collapse (p : ascii -> bool) (s : string) : string := collapse_go p false s.

(** [cleanText(text)] *)
Definition cleanText (text : string) : string :=
  trim (collapse is_blank (collapse_newlines (replace_crlf text))).

(** [html.replace(/<[^>]+>/g, ' ')].  A match starts at a [<] that is
    followed by at least one character other than [>] and then by a
    [>]; it ends at the first [>].  [pending] holds the text read since
    a [<] that may open a match. *)
Fixpoint remove_tags_go (pending : option string) (s : string) : string :=
  match s with
  | EmptyString =>
      match pending with
      | Some buf => buf
      | None => EmptyString
      end
  | String a r =>
      match pending with
      | None =>
          if Ascii.eqb a LT then remove_tags_go (Some (String LT EmptyString)) r
          else String a (remove_tags_go None r)
      | Some buf =>
          if Ascii.eqb a GT then
            if String.eqb buf (String LT EmptyString)
            then String LT (String GT (remove_tags_go None r))
            else String SPACE (remove_tags_go None r)
          else remove_tags_go (Some (buf ++ String a EmptyString)) r
      end
  end.

Definition remove_tags (s : string) : string := remove_tags_go None s.

(** [stripHtml(html)] *)
Definition stripHtml (html : string) : string :=
  trim (collapse is_space (remove_tags html)).

(** The options of [processContent]; a missing [options] is [None]. *)
Record ProcessOptions : Type := {
  opt_stripHtml : option bool;
  opt_extractMain : option bool;
  opt_maxLength : option Z;
  opt_clean : option bool
}.

Definition flag (o : option ProcessOptions) (f : ProcessOptions -> option bool) : bool :=
  match o with
  | Some opts => match f opts with Some b => b | None => false end
  | None => false
  end.

(** [processContent(content, options)].  [extractMainContent] is a
    pipeline of regular expressions of its own and is taken as given. *)
Definition processContent (extractMainContent : string -> string)
    (content : string) (options : option ProcessOptions) : string :=
  let processed := content in
  let processed :=
    if flag options opt_extractMain then extractMainContent processed else processed in
  let processed :=
    if flag options opt_stripHtml then stripHtml processed else processed in
  let processed :=
    (* options?.clean !== false *)
    match options with
    | Some {| opt_clean := Some false |} => processed
    | _ => cleanText processed
    end in
  let maxLength :=
    match options with
    | Some opts => match opt_maxLength opts with Some m => m | None => 0 end
    | None => 0
    end in
  if negb (maxLength =? 0) && (maxLength <? len processed)
  then ContentReader.truncateContent processed maxLength
  else processed.

(** *** Shapes of text, to state what the functions achieve *)

Fixpoint all_chars (p : ascii -> bool) (s : string) : bool :=
  match s with
  | EmptyString => true
  | String a r => p a && all_chars p r
  end.

(** No two neighbours are both in the class [p]. *)
Fixpoint no_pair (p : ascii -> bool) (s : string) : bool :=
  match s with
  | EmptyString => true
  | String a r =>
      match r with
      | String b _ => negb (p a && p b) && no_pair p r
      | EmptyString => true
      end
  end.

(** With [k] characters of the class [p] just before [s], no run of
    such characters reaches three. *)
Fixpoint run_below3 (p : ascii -> bool) (k : nat) (s : string) : bool :=
  match s with
  | EmptyString => true
  | String a r =>
      if p a then Nat.ltb (S k) 3 && run_below3 p (S k) r else run_below3 p 0 r
  end.

(** Neither end is white space. *)
Definition trimmed (s : string) : bool := String.eqb (trim s) s.

Fixpoint has_char (c : ascii) (s : string) : bool :=
  match s with
  | EmptyString => false
  | String a r => Ascii.eqb a c || has_char c r
  end.

Definition starts_with (c : ascii) (s : string) : bool :=
  match s with
  | String a _ => Ascii.eqb a c
  | EmptyString => false
  end.

(** No [<] of [s] opens a tag: each is followed at once by a [>], or by
    no [>] at all. *)
Fixpoint tag_free (s : string) : bool :=
  match s with
  | EmptyString => true
  | String a r =>
      (negb (Ascii.eqb a LT) || starts_with GT r || negb (has_char GT r))
      && tag_free r
  end.

(** The words that end in [s]: maximal runs of characters other than
    white space, [in_word] saying whether one is being read where [s]
    starts. *)
Fixpoint count_words (in_word : bool) (s : string) : nat :=
  match s with
  | EmptyString => if in_word then 1 else 0
  | String a r =>
      if is_space a then ((if in_word then 1 else 0) + count_words false r)%nat
      else count_words true r
  end.

End ContentText.

(* ===================================================================== *)
(** ** Providers whose errors carry no status *)
(* ===================================================================== *)

Module Providers.
Import Errors ResearchAgent.

(** The providers of this repository (OpenAIProvider, JinaSearchProvider,
    WebContentReader) reject with plain [Error]s made from a message:
    none of them has a [status] property, and neither have the errors of
    [fetch] and [JSON.parse] that they let through. *)
Definition statusless (svc : Collaborators) : Prop :=
  (forall n st, search svc n = Rejects st -> st = None)
  /\ (forall n st, generate svc n = Rejects st -> st = None)
  /\ (forall n st, read svc n = Rejects st -> st = None).

(** An LLMError or SearchError without a status code, marked retryable. *)
Definition retryable_without_status (e : thrown) : Prop :=
  match e with
  | ELLM l => statusCode (llm_context l) = None /\ llm_retryable l = true
  | ESearch s =>
      search_statusCode (search_context s) = None /\ search_retryable s = true
  | _ => True
  end.

End Providers.

(* ===================================================================== *)
(** ** Configuration schemas *)
(* ===================================================================== *)

(** The part of Zod that the schemas of this repository use. *)
Module Zod.

#[local] Set Warnings "-register-all".

(** A JavaScript number, as far as the checks used here can tell numbers
    apart: every bound in the schemas is an integer, so of a finite
    number that is not an integer only its floor matters. *)
Inductive number : Type :=
| Int (n : Z)
| NonInt (floor : Z)
| NaN
| PosInfinity
| NegInfinity.

Inductive value : Type :=
| VUndefined
| VNull
| VBool (b : bool)
| VNum (n : number)
| VStr (s : string)
| VObj (fields : list (string * value))
| VOther.                      (* an array, a function, a symbol, ... *)

Fixpoint lookup (key : string) (fields : list (string * value)) : value :=
  match fields with
  | [] => VUndefined
  | (k, v) :: rest => if String.eqb key k then v else lookup key rest
  end.

(** [v.key] of a validated object. *)
Definition field (key : string) (v : value) : value :=
  match v with
  | VObj fields => lookup key fields
  | _ => VUndefined
  end.

(** [.int()], [.positive()], [.nonnegative()], [.min(k)], [.max(k)] *)
Inductive check : Type :=
| CInt
| CPositive
| CNonnegative
| CMin (k : Z)
| CMax (k : Z).

Definition passes (c : check) (n : number) : bool :=
  match c, n with
  | CInt, Int _ => true
  | CInt, _ => false
  | CPositive, Int z => 0 <? z
  | CPositive, NonInt f => 0 <=? f
  | CPositive, PosInfinity => true
  | CPositive, _ => false
  | CNonnegative, Int z => 0 <=? z
  | CNonnegative, NonInt f => 0 <=? f
  | CNonnegative, PosInfinity => true
  | CNonnegative, _ => false
  | CMin k, Int z => k <=? z
  | CMin k, NonInt f => k <=? f
  | CMin _, PosInfinity => true
  | CMin _, _ => false
  | CMax k, Int z => z <=? k
  | CMax k, NonInt f => f <? k
  | CMax _, NegInfinity => true
  | CMax _, _ => false
  end.

Inductive schema : Type :=
| ZString (min : nat)                       (* z.string().min(n) *)
| ZUrl                                      (* z.string().url() *)
| ZEnum (members : list string)             (* z.enum([...]) *)
| ZNumber (checks : list check)             (* z.number()... *)
| ZBoolean                                  (* z.boolean() *)
| ZObject (strict : bool) (shape : list (string * schema))
| ZOptional (inner : schema)                (* .optional() *)
| ZDefault (inner : schema) (default : value).  (* .default(v) *)

(** The fields of an object under a shape: every key of the shape is
    parsed, a missing one as [undefined]; one failure fails the object.
    A key whose parsed value is [undefined] is left out. *)
Fixpoint parse_fields (p : schema -> value -> option value)
    (fields : list (string * value)) (shape : list (string * schema))
  : option (list (string * value)) :=
  match shape with
  | [] => Some []
  | (k, s) :: rest =>
      match p s (lookup k fields), parse_fields p fields rest with
      | Some VUndefined, Some out => Some out
      | Some r, Some out => Some ((k, r) :: out)
      | _, _ => None
      end
  end.

Definition known_keys (shape : list (string * schema))
    (fields : list (string * value)) : bool :=
  forallb (fun kv => existsb (String.eqb (fst kv)) (map fst shape)) fields.

Section Parse.
(** Whether a string is a URL is for the URL parser to say. *)
Variable is_url : string -> bool.

(** [schema.parse(v)]; [None] is the ZodError it throws. *)
Fixpoint parse (s : schema) (v : value) : option value :=
  match s with
  | ZString min =>
      match v with
      | VStr x => if Nat.leb min (String.length x) then Some v else None
      | _ => None
      end
  | ZUrl =>
      match v with
      | VStr x => if is_url x then Some v else None
      | _ => None
      end
  | ZEnum members =>
      match v with
      | VStr x => if existsb (String.eqb x) members then Some v else None
      | _ => None
      end
  | ZNumber checks =>
      match v with
      | VNum NaN => None
      | VNum n => if forallb (fun c => passes c n) checks then Some v else None
      | _ => None
      end
  | ZBoolean =>
      match v with
      | VBool _ => Some v
      | _ => None
      end
  | ZObject strict shape =>
      match v with
      | VObj fields =>
          if strict && negb (known_keys shape fields) then None
          else
            match parse_fields parse fields shape with
            | Some out => Some (VObj out)
            | None => None
            end
      | _ => None
      end
  | ZOptional inner =>
      match v with
      | VUndefined => Some VUndefined
      | _ => parse inner v
      end
  | ZDefault inner default =>
      match v with
      | VUndefined => parse inner default
      | _ => parse inner v
      end
  end.

End Parse.
End Zod.

Module Schemas.
Import Zod.

Definition int (n : Z) : value := VNum (Int n).

Definition LLMProviderConfigSchema : schema :=
  ZObject true
    [("name", ZEnum ["openai"; "gemini"; "anthropic"]);
     ("apiKey", ZString 1);
     ("baseUrl", ZOptional ZUrl);
     ("model", ZString 1);
     ("temperature", ZOptional (ZNumber [CMin 0; CMax 2]));
     ("maxTokens", ZOptional (ZNumber [CInt; CPositive]));
     ("timeout", ZDefault (ZNumber [CInt; CPositive]) (int 30000))].

Definition SearchProviderConfigSchema : schema :=
  ZObject true
    [("name", ZEnum ["jina"; "brave"; "serper"]);
     ("apiKey", ZString 1);
     ("maxResults", ZDefault (ZNumber [CInt; CPositive; CMax 100]) (int 10));
     ("timeout", ZDefault (ZNumber [CInt; CPositive]) (int 10000))].

Definition ToolConfigSchema : schema :=
  ZObject true
    [("coder",
      ZOptional (ZObject false
                   [("model", ZOptional (ZString 0));
                    ("temperature", ZOptional (ZNumber [CMin 0; CMax 2]))]));
     ("evaluator",
      ZOptional (ZObject false
                   [("model", ZOptional (ZString 0));
                    ("temperature", ZOptional (ZNumber [CMin 0; CMax 2]));
                    ("maxTokens", ZOptional (ZNumber [CInt; CPositive]))]));
     ("agent",
      ZOptional (ZObject false
                   [("model", ZOptional (ZString 0));
                    ("temperature", ZOptional (ZNumber [CMin 0; CMax 2]));
                    ("maxTokens", ZOptional (ZNumber [CInt; CPositive]))]))].

Definition ResearchLimitsSchema : schema :=
  ZObject true
    [("maxSteps", ZNumber [CInt; CPositive; CMax 1000]);
     ("maxDuration", ZNumber [CInt; CPositive; CMax 3600000]);
     ("maxBadAttempts", ZNumber [CInt; CNonnegative; CMax 10]);
     ("tokenBudget", ZNumber [CInt; CPositive; CMax 10000000])].

Definition FeatureFlagsSchema : schema :=
  ZObject true
    [("enableTelemetry", ZDefault ZBoolean (VBool false));
     ("enableCaching", ZDefault ZBoolean (VBool true));
     ("enableTracing", ZDefault ZBoolean (VBool false));
     ("enableMetrics", ZDefault ZBoolean (VBool false))].

Definition ObservabilityConfigSchema : schema :=
  ZObject true
    [("logLevel", ZDefault (ZEnum ["debug"; "info"; "warn"; "error"]) (VStr "info"));
     ("metricsEnabled", ZDefault ZBoolean (VBool false));
     ("tracingEnabled", ZDefault ZBoolean (VBool false))].

Definition AppConfigSchema : schema :=
  ZObject true
    [("llm", LLMProviderConfigSchema);
     ("search", SearchProviderConfigSchema);
     ("tools", ZOptional ToolConfigSchema);
     ("limits", ResearchLimitsSchema);
     ("features", FeatureFlagsSchema);
     ("observability", ObservabilityConfigSchema)].

Definition AgentConfigSchema : schema :=
  ZObject true
    [("tokenBudget", ZNumber [CInt; CPositive; CMax 10000000]);
     ("maxSteps", ZDefault (ZNumber [CInt; CPositive; CMax 1000]) (int 100));
     ("maxDuration", ZDefault (ZNumber [CInt; CPositive; CMax 3600000]) (int 300000));
     ("maxBadAttempts", ZDefault (ZNumber [CInt; CNonnegative; CMax 10]) (int 3));
     ("timeout", ZDefault (ZNumber [CInt; CPositive; CMax 60000]) (int 30000));
     ("enableTelemetry", ZDefault ZBoolean (VBool false))].

Section Config.
Variable is_url : string -> bool.
(** [process.env] and [parseInt]. *)
Variable env : string -> option string.
Variable parseInt : string -> number.

(** [validateConfig(config)] *)
Definition validateConfig (config : value) : option value :=
  parse is_url AppConfigSchema config.

(** [a ?? b] on an environment variable. *)
Definition or_default (a : option string) (b : string) : string :=
  match a with
  | Some s => s
  | None => b
  end.

Definition or_next (a b : option string) : option string :=
  match a with
  | Some s => Some s
  | None => b
  end.

(** [loadConfigFromEnv()] *)
Definition loadConfigFromEnv : option value :=
  parse is_url AppConfigSchema
    (VObj
       [("llm",
         VObj [("name", VStr (or_default (env "LLM_PROVIDER") "openai"));
               ("apiKey",
                VStr (or_default
                        (or_next (env "LLM_API_KEY")
                           (or_next (env "OPENAI_API_KEY")
                              (or_next (env "GEMINI_API_KEY")
                                 (env "ANTHROPIC_API_KEY"))))
                        EmptyString));
               ("baseUrl",
                match env "OPENAI_BASE_URL" with
                | Some s => VStr s
                | None => VUndefined
                end);
               ("model", VStr (or_default (env "DEFAULT_MODEL_NAME") "gpt-4o-mini"))]);
        ("search",
         VObj [("name", VStr (or_default (env "SEARCH_PROVIDER") "jina"));
               ("apiKey",
                VStr (or_default
                        (or_next (env "JINA_API_KEY")
                           (or_next (env "BRAVE_API_KEY") (env "SERPER_API_KEY")))
                        EmptyString))]);
        ("limits",
         VObj [("maxSteps", VNum (parseInt (or_default (env "MAX_STEPS") "100")));
               ("maxDuration",
                VNum (parseInt (or_default (env "MAX_DURATION") "300000")));
               ("maxBadAttempts",
                VNum (parseInt (or_default (env "MAX_BAD_ATTEMPTS") "3")));
               ("tokenBudget",
                VNum (parseInt (or_default (env "TOKEN_BUDGET") "2000000")))]);
        ("observability",
         VObj [("logLevel", VStr (or_default (env "LOG_LEVEL") "info"))])]).

(** [validateConfigWithErrors(config)]: the ZodError becomes an Error
    with another message; the outcome is the same. *)
Definition validateConfigWithErrors (config : value) : option value :=
  validateConfig config.

End Config.
End Schemas.

(* ===================================================================== *)
(** ** The command line *)
(* ===================================================================== *)

Module Cli.
Import Zod Schemas.

(** A validated number and a validated flag, read as the agent would. *)
Definition to_Z (v : value) : Z :=
  match v with
  | VNum (Int n) => n
  | _ => 0
  end.

Definition to_bool (v : value) : bool :=
  match v with
  | VBool b => b
  | _ => false
  end.

(** The configuration [main] hands to [new ResearchAgent(...)]. *)
Definition agent_config_of (config : value) : ResearchAgent.AgentConfig :=
  {| ResearchAgent.tokenBudget := to_Z (field "tokenBudget" (field "limits" config));
     ResearchAgent.maxSteps := to_Z (field "maxSteps" (field "limits" config));
     ResearchAgent.maxDuration := to_Z (field "maxDuration" (field "limits" config));
     ResearchAgent.maxBadAttempts :=
       to_Z (field "maxBadAttempts" (field "limits" config));
     ResearchAgent.timeout := 30000;
     ResearchAgent.enableTelemetry :=
       to_bool (field "enableTelemetry" (field "features" config)) |}.

(** The options [main] hands to [new StateManager(...)]. *)
Definition manager_options_of (config : value) : StateManager.StateManagerOptions :=
  {| StateManager.tokenBudget := to_Z (field "tokenBudget" (field "limits" config));
     StateManager.maxKnowledge := Some 100;
     StateManager.maxUrls := Some 50 |}.

(** How far [main] gets: it prints the usage and exits, it reports an
    error and exits, or it calls [agent.research(query)] with an agent
    and a state manager made from the configuration. *)
Inductive progress : Type :=
| Usage
| Failed
| Researches (query : string) (config : ResearchAgent.AgentConfig)
    (options : StateManager.StateManagerOptions).

Section Main.
Variable is_url : string -> bool.
Variable env : string -> option string.
Variable parseInt : string -> number.

(** [main()], up to the call of [research]; [args] is
    [process.argv.slice(2)]. *)
Definition main (args : list string) : progress :=
  match args with
  | [] => Usage
  | query :: _ =>
      if String.eqb query EmptyString then Usage
      else
        match loadConfigFromEnv is_url env parseInt with
        | None => Failed
        | Some config =>
            Researches query (agent_config_of config) (manager_options_of config)
        end
  end.

End Main.
End Cli.

(* ===================================================================== *)
(** * Properties *)
(* ===================================================================== *)

(** ** Objects used as records *)

Module JsObjectFacts.
Import JsObject.

Lemma lookup_unfold {V : Type} (o : t V) (key : string) :
  o !! key = snd <$> List.find (fun p => String.eqb (fst p) key) (own o).
Proof. reflexivity. Qed.

Lemma insert_unfold {V : Type} (o : t V) (key : string) (v : V) :
  <[key := v]> o = {| own := put key v (own o) |}.
Proof. reflexivity. Qed.

Lemma lookup_empty {V : Type} (key : string) : (∅ : t V) !! key = None.
Proof. reflexivity. Qed.

(** What was just stored is what is read. *)
Lemma lookup_insert_eq {V : Type} (o : t V) (key : string) (v : V) :
  <[key := v]> o !! key = Some v.
Proof.
  rewrite insert_unfold, lookup_unfold. cbn [own].
  induction (own o) as [|[k x] r IH]; cbn [put List.find fst].
  - rewrite String.eqb_refl. reflexivity.
  - destruct (String.eqb k key) eqn:E; cbn [List.find fst].
    + rewrite E. reflexivity.
    + rewrite E. exact IH.
Qed.

(** Storing under one key leaves the others alone. *)
Lemma lookup_insert_ne {V : Type} (o : t V) (key key' : string) (v : V) :
  key <> key' -> <[key := v]> o !! key' = o !! key'.
Proof.
  intros Hne. rewrite insert_unfold, !lookup_unfold. cbn [own].
  induction (own o) as [|[k x] r IH]; cbn [put List.find fst].
  - destruct (String.eqb key key') eqn:E; [apply String.eqb_eq in E; contradiction|].
    reflexivity.
  - destruct (String.eqb k key) eqn:E; cbn [List.find fst].
    + apply String.eqb_eq in E. subst k.
      destruct (String.eqb key key') eqn:E'; [apply String.eqb_eq in E'; contradiction|].
      reflexivity.
    + destruct (String.eqb k key'); [reflexivity|exact IH].
Qed.

Lemma keys_put_known {V : Type} (key : string) (v : V) (l : list (string * V)) :
  In key l.*1 -> (put key v l).*1 = l.*1.
Proof.
  induction l as [|[k x] r IH]; cbn [put fmap list_fmap fst]; intros Hin.
  - destruct Hin.
  - destruct (String.eqb k key) eqn:E.
    + reflexivity.
    + cbn [fmap list_fmap fst]. f_equal. apply IH.
      destruct Hin as [->|Hin]; [|exact Hin].
      rewrite String.eqb_refl in E. discriminate.
Qed.

Lemma keys_put_new {V : Type} (key : string) (v : V) (l : list (string * V)) :
  ~ In key l.*1 -> (put key v l).*1 = (l.*1 ++ [key])%list.
Proof.
  induction l as [|[k x] r IH]; cbn [put fmap list_fmap fst]; intros Hin.
  - reflexivity.
  - destruct (String.eqb k key) eqn:E.
    + apply String.eqb_eq in E. subst k. exfalso. apply Hin. left. reflexivity.
    + cbn [fmap list_fmap fst app]. f_equal. apply IH.
      intros H. apply Hin. right. exact H.
Qed.

Lemma lookup_Some_keys {V : Type} (o : t V) (key : string) (v : V) :
  o !! key = Some v -> In key (keys o).
Proof.
  rewrite lookup_unfold. unfold keys.
  induction (own o) as [|[k x] r IH]; cbn [List.find fst fmap list_fmap]; [discriminate|].
  destruct (String.eqb k key) eqn:E.
  - intros _. left. apply String.eqb_eq in E. exact E.
  - intros H. right. apply IH. exact H.
Qed.

Lemma lookup_None_keys {V : Type} (o : t V) (key : string) :
  o !! key = None <-> ~ In key (keys o).
Proof.
  rewrite lookup_unfold. unfold keys.
  induction (own o) as [|[k x] r IH]; cbn [List.find fst fmap list_fmap].
  - split; [intros _ []|reflexivity].
  - destruct (String.eqb k key) eqn:E.
    + apply String.eqb_eq in E. subst k. split; [discriminate|].
      intros H. exfalso. apply H. left. reflexivity.
    + rewrite IH. apply String.eqb_neq in E. split.
      * intros H [->|Hin]; [apply E; reflexivity|apply H; exact Hin].
      * intros H Hin. apply H. right. exact Hin.
Qed.

(** Storing never removes a key, and adds at most the one stored. *)
Lemma keys_insert {V : Type} (o : t V) (key : string) (v : V) :
  keys (<[key := v]> o)
  = match o !! key with
    | Some _ => keys o
    | None => (keys o ++ [key])%list
    end.
Proof.
  rewrite insert_unfold. unfold keys at 1. cbn [own].
  destruct (o !! key) as [x|] eqn:E.
  - apply keys_put_known. apply (lookup_Some_keys o key x E).
  - apply keys_put_new. apply lookup_None_keys. exact E.
Qed.

(** For a key that is not inherited, [o[key]] is truthy exactly when the
    object has the key. *)
Lemma truthy_at_own {V : Type} (o : t V) (key : string) :
  inherited_name key = false ->
  truthy_at o key = match o !! key with Some _ => true | None => false end.
Proof. intros Hk. unfold truthy_at. destruct (o !! key); [reflexivity|exact Hk]. Qed.

(** Sorting moves entries around and loses none. *)
Lemma place_perm {A : Type} (x : N * A) (l : list (N * A)) :
  Permutation (place x l) (x :: l).
Proof.
  induction l as [|y r IH]; cbn [place]; [reflexivity|].
  destruct (fst x <? fst y)%N; [reflexivity|].
  rewrite IH. apply perm_swap.
Qed.

Lemma ascending_perm {A : Type} (l : list (N * A)) : Permutation (ascending l) l.
Proof.
  induction l as [|x r IH]; cbn [ascending foldr]; [reflexivity|].
  rewrite place_perm. fold (ascending r). rewrite IH. reflexivity.
Qed.





(** With no array index among the keys, [Object.entries] follows the
    order of creation. *)
Lemma entries_in_creation_order {V : Type} (o : t V) :
  Forall (fun k => array_index k = None) (keys o) -> entries o = own o.
Proof.
  unfold entries, keys. induction (own o) as [|[k v] r IH]; intros Hk; [reflexivity|].
  apply Forall_cons in Hk as [Hk Hr]. cbn [fst] in Hk.
  cbn [omap list_omap List.filter fst]. unfold indexed at 1. cbn [fst]. rewrite Hk.
  specialize (IH Hr).
  assert (Hno : omap indexed r = []).
  { clear -Hr. induction r as [|[k' v'] r IH]; [reflexivity|].
    apply Forall_cons in Hr as [Hk' Hr]. cbn [fst] in Hk'.
    cbn [omap list_omap]. unfold indexed at 1. cbn [fst]. rewrite Hk'. apply IH, Hr. }
  rewrite Hno in IH |- *. cbn [ascending foldr fmap list_fmap app] in IH |- *.
  f_equal. exact IH.
Qed.


(** Storing twice under a key is storing the later value. *)
Lemma put_put {V : Type} (key : string) (v w : V) (l : list (string * V)) :
  put key v (put key w l) = put key v l.
Proof.
  induction l as [|[k x] r IH]; cbn [put].
  - rewrite String.eqb_refl. reflexivity.
  - destruct (String.eqb k key) eqn:E; cbn [put]; rewrite E; [reflexivity|].
    f_equal. exact IH.
Qed.

Lemma insert_insert_eq {V : Type} (o : t V) (key : string) (v w : V) :
  <[key := v]> (<[key := w]> o) = <[key := v]> o.
Proof. rewrite !insert_unfold. unfold set_own. cbn [own]. rewrite put_put. reflexivity. Qed.

(** [Object.entries] lists every property once. *)
Lemma entries_perm {V : Type} (o : t V) : Permutation (entries o) (own o).
Proof.
  unfold entries. rewrite ascending_perm.
  induction (own o) as [|[k v] r IH]; [reflexivity|].
  cbn [omap list_omap List.filter fst]. unfold indexed at 1. cbn [fst].
  destruct (array_index k); cbn [fmap list_fmap snd app].
  - rewrite IH. reflexivity.
  - rewrite <- Permutation_middle, IH. reflexivity.
Qed.

Lemma length_entries {V : Type} (o : t V) : length (entries o) = length (keys o).
Proof. unfold keys. rewrite length_fmap. apply Permutation_length, entries_perm. Qed.

End JsObjectFacts.

(** ** Strings *)

Module JsStringFacts.
Import JsString.

Lemma length_substring_le (s : string) :
  forall n m, (String.length (substring n m s) <= m)%nat.
Proof.
  induction s as [|a r IH]; intros n m.
  - destruct n, m; simpl; lia.
  - destruct n as [|n].
    + destruct m as [|m]; simpl; [lia|]. specialize (IH 0%nat m). lia.
    + simpl. apply IH.
Qed.

Lemma substring_all (s : string) : substring 0 (String.length s) s = s.
Proof. induction s as [|a r IH]; simpl; [reflexivity | now rewrite IH]. Qed.

Lemma length_append (s t : string) :
  String.length (s ++ t) = (String.length s + String.length t)%nat.
Proof. induction s as [|a r IH]; simpl; [reflexivity | now rewrite IH]. Qed.

Lemma len_slice0_le (s : string) (e : Z) :
  0 <= e -> len (slice s 0 e) <= e.
Proof.
  intros He. unfold slice, len, clamp.
  assert (H0 : (0 <? 0) = false) by reflexivity. rewrite H0.
  pose proof (length_substring_le s
    (Z.to_nat (Z.min 0 (Z.of_nat (String.length s))))
    (Z.to_nat ((if e <? 0 then Z.max (Z.of_nat (String.length s) + e) 0
                else Z.min e (Z.of_nat (String.length s)))
               - Z.min 0 (Z.of_nat (String.length s))))) as Hle.
  destruct (e <? 0) eqn:E; [apply Z.ltb_lt in E; lia|].
  lia.
Qed.

Lemma lastIndexOf_from_range (s : string) (c : ascii) :
  forall i, 0 <= i -> -1 <= lastIndexOf_from s c i < i + len s.
Proof.
  unfold len. induction s as [|a r IH]; intros i Hi; simpl String.length.
  - simpl. lia.
  - simpl lastIndexOf_from. specialize (IH (i + 1) ltac:(lia)).
    destruct (0 <=? lastIndexOf_from r c (i + 1)); [lia|].
    destruct (Ascii.eqb a c); lia.
Qed.

Lemma lastIndexOf_range (s : string) (c : ascii) :
  -1 <= lastIndexOf s c < len s.
Proof. apply (lastIndexOf_from_range s c 0). lia. Qed.

Lemma len_nonneg (s : string) : 0 <= len s.
Proof. unfold len. lia. Qed.

Lemma len_append (s t : string) : len (s ++ t) = len s + len t.
Proof. unfold len. rewrite length_append. lia. Qed.

(** [s.slice(0, e)] for [0 <= e <= s.length] has exactly [e] characters. *)
Lemma length_substring_exact (s : string) :
  forall m, (m <= String.length s)%nat -> String.length (substring 0 m s) = m.
Proof.
  induction s as [|a r IH]; intros m Hm; simpl in Hm.
  - assert (m = 0%nat) by lia. subst. reflexivity.
  - destruct m as [|m]; simpl; [reflexivity|]. rewrite IH; lia.
Qed.

Lemma len_slice0_exact (s : string) (e : Z) :
  0 <= e <= len s -> len (slice s 0 e) = e.
Proof.
  intros [He1 He2]. unfold slice, clamp, len in *.
  change (0 <? 0) with false. cbv iota.
  destruct (e <? 0) eqn:E; [apply Z.ltb_lt in E; lia|].
  rewrite Z.min_l by lia. change (Z.to_nat 0) with 0%nat.
  rewrite Z.min_l by lia. rewrite Z.sub_0_r.
  rewrite length_substring_exact by lia. lia.
Qed.

(** [s.slice(0, -1)] drops the last character. *)
Lemma len_slice0_minus1 (s : string) :
  len (slice s 0 (-1)) = Z.max (len s - 1) 0.
Proof.
  unfold slice, clamp, len.
  change (0 <? 0) with false. change (-1 <? 0) with true. cbv iota.
  rewrite Z.min_l by lia. change (Z.to_nat 0) with 0%nat. rewrite Z.sub_0_r.
  rewrite length_substring_exact by lia. lia.
Qed.

End JsStringFacts.

(** ** Truncation *)

Module ContentReaderFacts.
Import JsString JsStringFacts ContentReader.

(** Content that fits is returned as it is. *)
Lemma truncateContent_fits (content : string) (maxLength : Z) :
  len content <= maxLength -> truncateContent content maxLength = content.
Proof.
  intros H. unfold truncateContent.
  destruct (len content <=? maxLength) eqn:E; [reflexivity|].
  apply Z.leb_gt in E. lia.
Qed.

(** Content that does not fit comes back with at most [maxLength + 2]
    characters: the cut keeps fewer than [maxLength] characters and three
    dots are added. *)
Lemma truncateContent_bound (content : string) (maxLength : Z) :
  0 < maxLength -> maxLength < len content ->
  len (truncateContent content maxLength) <= maxLength + 2.
Proof.
  intros Hpos Hlong. unfold truncateContent.
  destruct (len content <=? maxLength) eqn:E; [apply Z.leb_le in E; lia|].
  rewrite len_append. change (len "...") with 3.
  set (truncated := slice content 0 maxLength).
  assert (Ht : len truncated = maxLength)
    by (apply len_slice0_exact; lia).
  pose proof (lastIndexOf_range truncated " "%char) as [Hlo Hhi].
  destruct (Z.eq_dec (lastIndexOf truncated " "%char) (-1)) as [Hm|Hm].
  - rewrite Hm, len_slice0_minus1. lia.
  - pose proof (len_slice0_le truncated (lastIndexOf truncated " "%char)). lia.
Qed.

(** C10.  [truncateContent] does not keep its result within
    [maxLength]: six letters cut at 3 come back as five characters (the
    missing space makes [lastIndexOf] answer -1, so [slice(0, -1)] only
    drops one letter, and the dots are added on top); and a text whose
    cut ends on a space comes back two characters too long.  The web
    reader, which calls it, returns the same overlong content. *)
Theorem truncateContent_exceeds_maxLength :
  truncateContent "abcdef" 3 = "ab..."
  /\ len (truncateContent "abcdef" 3) = 5
  /\ truncateContent "hello world foo" 12 = "hello world..."
  /\ len (truncateContent "hello world foo" 12) = 14
  /\ readWithMetadata_content (Some 3) "abcdef" = "ab...".
Proof. repeat split; reflexivity. Qed.

End ContentReaderFacts.

(** ** Retryable errors *)

Module ErrorsFacts.
Import Errors.

(** A client error other than 429 is never retryable. *)
Lemma LLMError_4xx_not_retryable (message : string) (context : LLMContext) (c : Z) :
  statusCode context = Some c -> 400 <= c <= 499 -> c <> 429 ->
  llm_retryable (new_LLMError message context) = false.
Proof.
  intros Hc Hr Hn. simpl. rewrite Hc. simpl.
  destruct (c =? 0) eqn:E0; [apply Z.eqb_eq in E0; lia|].
  destruct (c =? 429) eqn:E1; [apply Z.eqb_eq in E1; lia|].
  destruct (500 <=? c) eqn:E2; [apply Z.leb_le in E2; lia|].
  reflexivity.
Qed.

(** On the status codes HTTP defines (100 to 599) the flag is set exactly
    for 429 and for the server errors. *)
Lemma LLMError_retryable_http (message : string) (context : LLMContext) (c : Z) :
  statusCode context = Some c -> 100 <= c <= 599 ->
  (llm_retryable (new_LLMError message context) = true <-> c = 429 \/ 500 <= c).
Proof.
  intros Hc Hr. simpl. rewrite Hc. simpl.
  rewrite !orb_true_iff, negb_true_iff, negb_false_iff, !Z.eqb_eq, Z.leb_le.
  split; [intros [[H|H]|H]; lia | intros [H|H]; auto].
Qed.

(** C9, as the code has it.  An LLMError is retryable exactly when its
    context has no status code, or the status code is 0 (which the
    negation treats like a missing one), or 429, or at least 500. *)
Theorem LLMError_retryable_iff (message : string) (context : LLMContext) :
  llm_retryable (new_LLMError message context) = true
  <-> (statusCode context = None
       \/ statusCode context = Some 0
       \/ statusCode context = Some 429
       \/ exists c, statusCode context = Some c /\ 500 <= c).
Proof.
  simpl. destruct (statusCode context) as [c|]; simpl.
  - rewrite !orb_true_iff, negb_true_iff, negb_false_iff.
    rewrite !Z.eqb_eq, Z.leb_le. split.
    + intros [[H|H]|H]; subst; eauto 6.
    + intros [H|[H|[H|[c' [H H']]]]]; try discriminate;
        injection H as ->; auto.
  - split; auto.
Qed.

(** C9, as stated, fails for status code 0: the error carries a status
    code, it is neither 429 nor 500 or more, and yet it is retryable. *)
Lemma LLMError_status_zero_is_retryable :
  let context := {| provider := "openai"; statusCode := Some 0; model := None |} in
  llm_retryable (new_LLMError "Failed to decide next action" context) = true
  /\ ~ (statusCode context = None
        \/ statusCode context = Some 429
        \/ exists c, statusCode context = Some c /\ 500 <= c).
Proof.
  split; [reflexivity|].
  intros [H|[H|[c [H Hc]]]]; try discriminate.
  injection H as <-. lia.
Qed.

End ErrorsFacts.

(** ** The state manager *)

Module StateManagerFacts.
Import StateManager.

(** The next state that [produce] hands back to [trackTokenUsage] does
    hold the sum; [update] drops it. *)
Lemma produce_trackTokenUsage (sm : t) (tokens : Z) :
  tokens <> 0 ->
  exists next,
    produce (state sm) (trackTokenUsage_updater tokens) = Assigned next
    /\ used (budget next) = used (budget (state sm)) + tokens.
Proof.
  intros Hn. unfold produce, trackTokenUsage_updater.
  destruct (tokens =? 0) eqn:E; [apply Z.eqb_eq in E; contradiction|].
  eexists. split; reflexivity.
Qed.

(** [update] returns exactly when the state is not frozen and the
    updater assigned something; otherwise it throws, a TypeError unless
    Immer refused the updater. *)
Lemma update_returns (sm : t) (u : ResearchState -> drafted) (now : Z) :
  fst (update sm u now) = None
  <-> frozen sm = false /\ exists next, u (state sm) = Assigned next.
Proof.
  unfold update, produce. destruct (u (state sm)) as [next| |message]; cbn [fst].
  - destruct (frozen sm) eqn:Ef; cbn [fst]; split.
    + discriminate.
    + intros [H _]. discriminate.
    + intros _. split; [reflexivity|]. exists next. reflexivity.
    + reflexivity.
  - split; [discriminate|]. intros [_ [next H]]. discriminate.
  - split; [discriminate|]. intros [_ [next H]]. discriminate.
Qed.

(** What [update] leaves behind: the state it found, with [lastUpdate]
    written when it returns. *)
Lemma update_state (sm : t) (u : ResearchState -> drafted) (now : Z) :
  state (snd (update sm u now))
  = match fst (update sm u now) with
    | None => with_lastUpdate (state sm) now
    | Some _ => state sm
    end.
Proof.
  unfold update, produce. destruct (u (state sm)); [destruct (frozen sm)| |]; reflexivity.
Qed.

Lemma update_options (sm : t) (u : ResearchState -> drafted) (now : Z) :
  options (snd (update sm u now)) = options sm
  /\ proto_write (snd (update sm u now)) = proto_write sm.
Proof.
  unfold update, produce.
  destruct (u (state sm)); [destruct (frozen sm)| |]; split; reflexivity.
Qed.

(** Once frozen, always frozen; and a call that throws a TypeError
    leaves the state frozen. *)
Lemma update_frozen (sm : t) (u : ResearchState -> drafted) (now : Z) :
  (frozen sm = true -> frozen (snd (update sm u now)) = true)
  /\ (fst (update sm u now) = Some Errors.ETypeError ->
      frozen (snd (update sm u now)) = true)
  /\ (fst (update sm u now) = None -> frozen (snd (update sm u now)) = false).
Proof.
  unfold update, produce.
  destruct (u (state sm)); [destruct (frozen sm) eqn:Ef| |]; cbn [fst snd frozen freeze];
    repeat split; try congruence; try discriminate; auto.
Qed.

(** On a state that is not frozen, the mutators whose updater always
    assigns return, having written [lastUpdate]; on a frozen state every
    mutator throws, a TypeError unless Immer refused the updater. *)
Lemma update_assigns (sm : t) (u : ResearchState -> drafted) (now : Z)
    (next : ResearchState) :
  frozen sm = false -> u (state sm) = Assigned next ->
  update sm u now = (None, touch sm now).
Proof. intros Hf Hu. unfold update, produce. rewrite Hu, Hf. reflexivity. Qed.

Lemma update_on_frozen (sm : t) (u : ResearchState -> drafted) (now : Z) :
  frozen sm = true ->
  update sm u now
  = (Some match u (state sm) with
          | Refused message => Errors.EError message
          | _ => Errors.ETypeError
          end, sm).
Proof.
  intros Hf. unfold update, produce. destruct (u (state sm)); rewrite ?Hf; try reflexivity.
  unfold freeze. destruct sm; cbn in *. subst. reflexivity.
Qed.

Lemma incrementErrorCount_returns (sm : t) (now : Z) :
  frozen sm = false -> incrementErrorCount sm now = (None, touch sm now).
Proof. intros Hf. eapply update_assigns; [exact Hf|reflexivity]. Qed.

Lemma incrementStep_returns (sm : t) (now : Z) :
  frozen sm = false -> incrementStep sm now = (None, touch sm now).
Proof. intros Hf. eapply update_assigns; [exact Hf|reflexivity]. Qed.

Lemma addSearchResults_returns (sm : t) (results : list SearchResult) (now : Z) :
  frozen sm = false -> addSearchResults sm results now = (None, touch sm now).
Proof. intros Hf. eapply update_assigns; [exact Hf|reflexivity]. Qed.

Lemma addKnowledge_returns (sm : t) (question answer : string) (type : KnowledgeType)
    (now : Z) :
  frozen sm = false -> addKnowledge sm question answer type now = (None, touch sm now).
Proof. intros Hf. eapply update_assigns; [exact Hf|reflexivity]. Qed.

(** [initialize], counting an error and counting a step throw nothing
    but a TypeError, which leaves the state frozen. *)
Lemma initialize_throws (sm : t) (q : string) (now : Z) (e : Errors.thrown) :
  fst (initialize sm q now) = Some e ->
  e = Errors.ETypeError /\ frozen (snd (initialize sm q now)) = true.
Proof.
  unfold initialize, update, produce, initialize_updater.
  destruct (_ && _); [|destruct (frozen sm) eqn:Ef]; cbn [fst snd freeze frozen];
    intros He; try discriminate He; injection He as <-; split; auto.
Qed.

Lemma incrementErrorCount_throws (sm : t) (now : Z) (e : Errors.thrown) :
  fst (incrementErrorCount sm now) = Some e ->
  e = Errors.ETypeError /\ frozen (snd (incrementErrorCount sm now)) = true.
Proof.
  unfold incrementErrorCount, update, produce, incrementErrorCount_updater.
  destruct (frozen sm) eqn:Ef; cbn [fst snd]; intros He; [|discriminate He].
  injection He as <-. split; auto.
Qed.

Lemma incrementStep_throws (sm : t) (now : Z) (e : Errors.thrown) :
  fst (incrementStep sm now) = Some e ->
  e = Errors.ETypeError /\ frozen (snd (incrementStep sm now)) = true.
Proof.
  unfold incrementStep, update, produce, incrementStep_updater.
  destruct (frozen sm) eqn:Ef; cbn [fst snd]; intros He; [|discriminate He].
  injection He as <-. split; auto.
Qed.

Lemma apply_op_update (sm : t) (o : op) (now : Z) :
  apply_op sm o now = update sm (updater_of (proto_write sm) (options sm) o now) now.
Proof. destruct o; reflexivity. Qed.

Lemma apply_op_state (sm : t) (o : op) (now : Z) :
  state (snd (apply_op sm o now))
  = match fst (apply_op sm o now) with
    | None => with_lastUpdate (state sm) now
    | Some _ => state sm
    end.
Proof. rewrite apply_op_update. apply update_state. Qed.

Lemma apply_op_options (sm : t) (o : op) (now : Z) :
  options (snd (apply_op sm o now)) = options sm
  /\ proto_write (snd (apply_op sm o now)) = proto_write sm.
Proof. rewrite apply_op_update. apply update_options. Qed.

(** C8.  After any mutator of the state manager (initialize,
    addSearchResults, markUrlVisited, addContent, addKnowledge,
    trackTokenUsage, incrementErrorCount, incrementStep), whether the
    call returned or threw, every field of the state other than
    lastUpdate has the value it had before the call; lastUpdate is the
    time of the call when it returned and what it was when it threw; in
    particular getUsedTokens answers the same before and after
    trackTokenUsage(n), for every n. *)
Theorem mutators_change_only_lastUpdate (sm : t) (o : op) (now : Z) :
  let sm' := snd (apply_op sm o now) in
  query (state sm') = query (state sm)
  /\ step (state sm') = step (state sm)
  /\ startTime (state sm') = startTime (state sm)
  /\ budget (state sm') = budget (state sm)
  /\ knowledge (state sm') = knowledge (state sm)
  /\ urls (state sm') = urls (state sm)
  /\ content (state sm') = content (state sm)
  /\ metrics (state sm') = metrics (state sm)
  /\ lastUpdate (state sm')
     = match fst (apply_op sm o now) with
       | None => now
       | Some _ => lastUpdate (state sm)
       end
  /\ options sm' = options sm
  /\ (forall n : Z, getUsedTokens (snd (trackTokenUsage sm n now)) = getUsedTokens sm).
Proof.
  cbv zeta. rewrite apply_op_state.
  destruct (apply_op_options sm o now) as [Ho _]. rewrite Ho.
  assert (Hu : forall n, getUsedTokens (snd (trackTokenUsage sm n now)) = getUsedTokens sm).
  { intros n. unfold getUsedTokens, trackTokenUsage. rewrite update_state.
    destruct (fst (update sm (trackTokenUsage_updater n) now)); reflexivity. }
  destruct (fst (apply_op sm o now)); repeat split; try reflexivity; exact Hu.
Qed.

(** Everything but lastUpdate survives a whole session. *)
Lemma apply_ops_frame (os : list (op * Z)) :
  forall sm : t,
    let sm' := apply_ops sm os in
    query (state sm') = query (state sm)
    /\ step (state sm') = step (state sm)
    /\ budget (state sm') = budget (state sm)
    /\ knowledge (state sm') = knowledge (state sm)
    /\ urls (state sm') = urls (state sm)
    /\ content (state sm') = content (state sm)
    /\ metrics (state sm') = metrics (state sm)
    /\ startTime (state sm') = startTime (state sm)
    /\ options sm' = options sm
    /\ proto_write sm' = proto_write sm.
Proof.
  induction os as [|[o now] r IH]; intros sm; cbv zeta.
  - repeat split; reflexivity.
  - simpl apply_ops. specialize (IH (snd (apply_op sm o now))). cbv zeta in IH.
    rewrite apply_op_state in IH.
    destruct (apply_op_options sm o now) as [Ho Hp]. rewrite Ho, Hp in IH.
    destruct (fst (apply_op sm o now)); exact IH.
Qed.

(** C5.  Across a session (any sequence of state operations, each at
    its own time, whether they return or throw) the recorded token usage
    does not decrease, the step counter does not decrease, and every URL
    record and every content record present before is still present,
    unchanged, afterwards; trackTokenUsage(n) on its own never lowers
    the usage. *)
Theorem session_is_monotone (sm : t) (os : list (op * Z)) :
  let sm' := apply_ops sm os in
  used (budget (state sm)) <= used (budget (state sm'))
  /\ step (state sm) <= step (state sm')
  /\ (forall url r, urls (state sm) !! url = Some r -> urls (state sm') !! url = Some r)
  /\ (forall url c,
        content (state sm) !! url = Some c -> content (state sm') !! url = Some c)
  /\ (forall n now : Z,
        used (budget (state sm))
        <= used (budget (state (snd (trackTokenUsage sm n now))))).
Proof.
  destruct (apply_ops_frame os sm) as (_ & Hs & Hb & _ & Hu & Hc & _).
  cbv zeta. rewrite Hs, Hb, Hu, Hc.
  repeat split; try reflexivity; try lia; auto.
  intros n now. unfold trackTokenUsage. rewrite update_state.
  destruct (fst (update sm (trackTokenUsage_updater n) now)); cbn; lia.
Qed.

(** The same holds of the drafts the updaters compute, whatever becomes
    of them: no updater deletes a URL or a content record. *)
Lemma addSearchResults_recipe_keys (results : list SearchResult) :
  forall (d : ResearchState) (key : string),
    In key (JsObject.keys (urls d)) ->
    In key (JsObject.keys (urls (addSearchResults_recipe results d))).
Proof.
  unfold addSearchResults_recipe. cbn [urls with_metrics].
  induction results as [|r rs IHrs]; intros d key Hin.
  - exact Hin.
  - cbn [fold_left]. destruct (JsObject.truthy_at (urls d) (sr_url r)).
    + apply IHrs. exact Hin.
    + apply IHrs. cbn [urls with_urls]. rewrite JsObjectFacts.keys_insert.
      destruct (urls d !! sr_url r); [exact Hin|].
      apply in_or_app. left. exact Hin.
Qed.

Lemma addSearchResults_recipe_content (results : list SearchResult) :
  forall d : ResearchState, content (addSearchResults_recipe results d) = content d.
Proof.
  unfold addSearchResults_recipe. cbn [content with_metrics].
  induction results as [|r rs IHrs]; intros d; [reflexivity|].
  cbn [fold_left]. destruct (JsObject.truthy_at (urls d) (sr_url r)); rewrite IHrs; reflexivity.
Qed.

Lemma recipes_keep_records (opts : StateManagerOptions) (o : op) (now : Z)
    (d : ResearchState) (key : string) :
  (In key (JsObject.keys (urls d)) ->
   In key (JsObject.keys (urls (recipe_of opts o now d))))
  /\ (In key (JsObject.keys (content d)) ->
      In key (JsObject.keys (content (recipe_of opts o now d)))).
Proof.
  destruct o; cbn [recipe_of].
  - split; auto.
  - split; [apply addSearchResults_recipe_keys|].
    rewrite addSearchResults_recipe_content. auto.
  - unfold markUrlVisited_recipe. destruct (urls d !! url) eqn:E; [|split; auto].
    cbn [urls content with_urls]. rewrite JsObjectFacts.keys_insert, E. split; auto.
  - unfold addContent_recipe. destruct (String.eqb url "__proto__"); [split; auto|].
    cbn [urls content with_content with_metrics]. split; [auto|].
    rewrite JsObjectFacts.keys_insert. destruct (content d !! url); [auto|].
    intros H. apply in_or_app. left. exact H.
  - unfold addKnowledge_recipe.
    destruct (maxKnowledge opts) as [m|]; [|split; auto].
    match goal with |- context [if ?c then _ else _] => destruct c end; split; auto.
  - split; auto.
  - split; auto.
  - split; auto.
Qed.

End StateManagerFacts.

(** ** The knowledge store *)

Module KnowledgeFacts.
Import StateManager ResearchAgent.

Lemma arr_slice_from_last {A : Type} (l : list A) (m : Z) :
  0 < m -> arr_slice_from l (- m) = last_items (Z.to_nat m) l.
Proof.
  intros Hm. unfold arr_slice_from, last_items, JsString.clamp.
  destruct (- m <? 0) eqn:E; [|apply Z.ltb_ge in E; lia].
  f_equal. lia.
Qed.

Lemma last_items_all {A : Type} (n : nat) (l : list A) :
  (length l <= n)%nat -> last_items n l = l.
Proof.
  intros H. unfold last_items.
  replace (length l - n)%nat with 0%nat by lia. reflexivity.
Qed.

Lemma generateFinalAnswer_calls (svc : Collaborators) (w : World) :
  calls (snd (generateFinalAnswer svc w))
  = (calls w
     ++ [CallGenerate (Final (ctx_query (getContext (manager w)))
                             (ctx_knowledge (getContext (manager w))))])%list.
Proof.
  unfold generateFinalAnswer, bind, get_manager, try_catch, await, ret, throw.
  destruct (generate svc (count_calls is_generate w)); reflexivity.
Qed.

(** C7, as the code has it.  The addKnowledge updater appends the new
    item at the end of the draft's knowledge list; when maxKnowledge is
    set (a positive number) the draft then keeps only the most recent
    maxKnowledge items, so older items leave the store itself, and with
    no maxKnowledge every item stays.  What the LLM is shown is the most
    recent 10 stored items, and the final answer is requested with
    exactly that window. *)
Theorem knowledge_is_a_bounded_window
    (opts : StateManagerOptions) (question answer : string) (type : KnowledgeType)
    (now : Z) (d : ResearchState) (svc : Collaborators) (w : World) :
  match maxKnowledge opts with Some m => 0 < m | None => True end ->
  let item := {| k_question := question; k_answer := answer;
                 k_type := type; k_timestamp := now |} in
  knowledge (addKnowledge_recipe opts question answer type now d)
  = match maxKnowledge opts with
    | Some m => last_items (Z.to_nat m) (knowledge d ++ [item])
    | None => (knowledge d ++ [item])%list
    end
  /\ ctx_knowledge (getContext (manager w))
     = last_items 10 (knowledge (state (manager w)))
  /\ calls (snd (generateFinalAnswer svc w))
     = (calls w
        ++ [CallGenerate
              (Final (query (state (manager w)))
                     (last_items 10 (knowledge (state (manager w)))))])%list.
Proof.
  intros Hm item.
  assert (Hctx : ctx_knowledge (getContext (manager w))
                 = last_items 10 (knowledge (state (manager w)))).
  { unfold getContext. cbn [ctx_knowledge].
    exact (arr_slice_from_last _ 10 ltac:(lia)). }
  split; [|split; [exact Hctx|]].
  - unfold addKnowledge_recipe. fold item.
    destruct (maxKnowledge opts) as [m|]; [|reflexivity].
    destruct (m =? 0) eqn:E0; [apply Z.eqb_eq in E0; lia|].
    cbn [negb andb].
    destruct (m <? Z.of_nat (length (knowledge d ++ [item]))) eqn:E1.
    + cbn [knowledge with_knowledge]. apply arr_slice_from_last. exact Hm.
    + cbn [knowledge with_knowledge]. apply Z.ltb_ge in E1.
      symmetry. apply last_items_all. lia.
  - rewrite generateFinalAnswer_calls, Hctx. reflexivity.
Qed.

(** The window at work: with a cap of 2, adding a third item leaves
    the two most recent in the draft. *)
Lemma knowledge_is_a_bounded_window_witness :
  let opts := Scenarios.capped 2 in
  let d := Scenarios.drafted opts 2 in
  let w := Scenarios.world_of (Scenarios.manager_with d opts) in
  (0 < 2)
  /\ knowledge (addKnowledge_recipe opts "q3" "a3" Kqa 3 d)
     = last_items 2 (knowledge d ++ [Scenarios.item 3])
  /\ ctx_knowledge (getContext (manager w)) = last_items 10 (knowledge d).
Proof.
  cbv zeta. split; [lia|].
  pose proof (knowledge_is_a_bounded_window (Scenarios.capped 2)
                "q3" "a3" Kqa 3
                (Scenarios.drafted (Scenarios.capped 2) 2)
                (Scenarios.services Scenarios.search_ok Scenarios.llm_prose)
                (Scenarios.world_of
                   (Scenarios.manager_with (Scenarios.drafted (Scenarios.capped 2) 2)
                      (Scenarios.capped 2)))
                ltac:(simpl; lia)) as H.
  cbv zeta in H. destruct H as (H1 & H2 & _).
  split; [exact H1 | exact H2].
Defined.

(** C7, as stated, fails.  With a cap of 2, the third item added leaves
    the draft without the first one; the store the code actually keeps
    is still empty after an addKnowledge call; and of eleven stored
    items the final answer is requested with ten, the first one
    missing. *)
Lemma knowledge_items_are_dropped :
  knowledge (Scenarios.drafted (Scenarios.capped 2) 3)
  = [Scenarios.item 2; Scenarios.item 3]
  /\ knowledge (state (snd (addKnowledge Scenarios.fresh_manager "q1" "a1" Kqa 1))) = []
  /\ (let d := Scenarios.drafted (Scenarios.cli_options 1000) 11 in
      let w := {| manager := Scenarios.manager_with d (Scenarios.cli_options 1000);
                  calls := [] |} in
      In (Scenarios.item 1) (knowledge d)
      /\ calls (snd (generateFinalAnswer
                       (Scenarios.services Scenarios.search_ok Scenarios.llm_prose) w))
         = [CallGenerate (Final "" (map Scenarios.item (seq 2 10)))]
      /\ ~ In (Scenarios.item 1) (map Scenarios.item (seq 2 10))).
Proof.
  split; [vm_compute; reflexivity|]. split; [reflexivity|].
  cbv zeta. split; [vm_compute; auto|]. split; [vm_compute; reflexivity|].
  vm_compute. intros H. repeat (destruct H as [H|H]; [discriminate H|]). exact H.
Qed.

End KnowledgeFacts.

(** ** The run loop *)

Module StateMachineFacts.
Import Errors StateMachine.

Section Generic.
Context {TState W : Type} `{HasStatus TState}.
Variable d : Definition_ TState W.
Variable env : Env.

Lemma within_duration_S (start : Z) (i n : nat) :
  within_duration d env start i (S n)
  = (now_at env i - start <=? maxDuration (options d))
    && within_duration d env start (S i) n.
Proof. reflexivity. Qed.

Lemma check_passes (m : t TState) (now : Z) :
  checkTerminationConditions d m now = None ->
  Z.of_nat (stepCount m) < maxSteps (options d)
  /\ now - startTime m <= maxDuration (options d).
Proof.
  unfold checkTerminationConditions.
  destruct (maxSteps (options d) <=? Z.of_nat (stepCount m)) eqn:E1; [discriminate|].
  destruct (maxDuration (options d) <? now - startTime m) eqn:E2; [discriminate|].
  intros _. apply Z.leb_gt in E1. apply Z.ltb_ge in E2. lia.
Qed.

Lemma finished_here (i : nat) (m : t TState) (r : run_result (current TState)) :
  match r with
  | Returned c => c = currentState m /\ isTerminal c = true
  | Threw _ => True
  end ->
  finished d env i m r m.
Proof.
  intros Hr. split; try reflexivity; try lia; [|exact Hr].
  rewrite Nat.sub_diag. reflexivity.
Qed.

Lemma finished_cancel (i : nat) (m : t TState) (reason : option string)
    (r : run_result (current TState)) :
  finished d env i m r m ->
  finished d env i m r (match reason with Some x => cancel m x | None => m end).
Proof.
  intros [H1 H2 H3 H4 H5]. destruct reason as [x|]; [|split; assumption].
  split; cbn [cancel startTime stepCount currentState]; assumption.
Qed.

(** With more fuel than steps remain, the loop finishes. *)
Lemma run_loop_finishes :
  forall (fuel i : nat) (m : t TState) (w : W),
    (remaining d m < fuel)%nat ->
    exists r m' w',
      run_loop d env fuel i m w = Some (r, m', w') /\ finished d env i m r m'.
Proof.
  induction fuel as [|fuel IH]; intros i m w Hfuel; [lia|].
  cbn [run_loop].
  destruct (isTerminal (currentState m)) eqn:Eterm.
  { eexists _, _, _. split; [reflexivity|]. apply finished_here. auto. }
  destruct (isCancelled m).
  { eexists _, _, _. split; [reflexivity|]. apply finished_here. exact I. }
  destruct (checkTerminationConditions d m (now_at env i)) as [e|] eqn:Echeck.
  { eexists _, _, _. split; [reflexivity|]. apply finished_here. exact I. }
  apply check_passes in Echeck. destruct Echeck as [Hsteps Hclock].
  destruct (currentState m) as [s|] eqn:Ecur.
  2:{ eexists _, _, _. split; [reflexivity|]. apply finished_here. exact I. }
  destruct (transitionHandlers d (status s)) as [handler|].
  2:{ eexists _, _, _. split; [reflexivity|]. apply finished_here. exact I. }
  destruct (negb _).
  { eexists _, _, _. split; [reflexivity|]. apply finished_here. exact I. }
  destruct (executeWithTimeout handler s w) as [[e|nextState] w'].
  { eexists _, _, _. split; [reflexivity|].
    unfold deliver_cancel. apply finished_cancel, finished_here. exact I. }
  set (m2 := {| currentState := nextState;
                stepCount := S (stepCount (deliver_cancel env i m));
                isCancelled := isCancelled (deliver_cancel env i m);
                cancelReason := cancelReason (deliver_cancel env i m);
                startTime := startTime (deliver_cancel env i m);
                history := recordTransition (history (deliver_cancel env i m))
                             (currentState (deliver_cancel env i m)) nextState |}).
  assert (Hsc : stepCount m2 = S (stepCount m)).
  { unfold m2, deliver_cancel. destruct (cancel_during env i); reflexivity. }
  assert (Hst : startTime m2 = startTime m).
  { unfold m2, deliver_cancel. destruct (cancel_during env i); reflexivity. }
  assert (Hrem : remaining d m = S (remaining d m2)).
  { unfold remaining. rewrite Hsc. lia. }
  destruct (IH (S i) m2 w' ltac:(lia)) as (r & m' & w'' & Hrun & Hfin).
  exists r, m', w''. split; [exact Hrun|].
  destruct Hfin as [F1 F2 F3 F4 F5].
  rewrite Hsc in F2, F3, F4. rewrite Hst in F1, F4.
  split.
  - exact F1.
  - lia.
  - lia.
  - replace (stepCount m' - stepCount m)%nat
      with (S (stepCount m' - S (stepCount m)))%nat by lia.
    rewrite within_duration_S, F4, andb_true_r. apply Z.leb_le. exact Hclock.
  - exact F5.
Qed.

(** Fuel beyond what is needed changes nothing. *)
Lemma run_loop_more_fuel :
  forall (fuel i : nat) (m : t TState) (w : W) (res : run_result (current TState) * t TState * W),
    run_loop d env fuel i m w = Some res ->
    forall extra : nat, run_loop d env (fuel + extra) i m w = Some res.
Proof.
  induction fuel as [|fuel IH]; intros i m w res Hrun extra; [discriminate|].
  cbn [run_loop Nat.add] in *.
  destruct (isTerminal (currentState m)); [exact Hrun|].
  destruct (isCancelled m); [exact Hrun|].
  destruct (checkTerminationConditions d m (now_at env i)); [exact Hrun|].
  destruct (currentState m) as [s|]; [|exact Hrun].
  destruct (transitionHandlers d (status s)) as [handler|]; [|exact Hrun].
  destruct (negb _); [exact Hrun|].
  destruct (executeWithTimeout handler s w) as [[e|nextState] w']; [exact Hrun|].
  apply IH. exact Hrun.
Qed.

(** [run] always comes to an end: it makes at most as many transitions
    as [maxSteps] still allows, starts none once the clock has passed
    [maxDuration], and ends either with a terminal state or with a
    thrown error. *)
Lemma run_finishes (m : t TState) (w : W) (extra : nat) :
  exists r m' w',
    run d env (run_fuel d m + extra) m w = Some (r, m', w')
    /\ (stepCount m <= stepCount m')%nat
    /\ (stepCount m' - stepCount m <= remaining d m)%nat
    /\ within_duration d env (start_time env) 0 (stepCount m' - stepCount m) = true
    /\ match r with
       | Returned c => c = currentState m' /\ isTerminal c = true
       | Threw _ => True
       end.
Proof.
  unfold run.
  set (m0 := {| currentState := currentState m; stepCount := stepCount m;
                isCancelled := isCancelled m; cancelReason := cancelReason m;
                startTime := start_time env; history := history m |}).
  destruct (run_loop_finishes (run_fuel d m) 0 m0 w) as (r & m' & w' & Hrun & Hfin).
  { unfold run_fuel, remaining. cbn [stepCount m0]. lia. }
  exists r, m', w'. split; [apply run_loop_more_fuel; exact Hrun|].
  destruct Hfin as [F1 F2 F3 F4 F5]. repeat split; try assumption.
  all: destruct r; try exact I; try apply F5.
Qed.

(** What the loop returns is the state the machine is left in. *)
Lemma run_loop_returns_current :
  forall (fuel i : nat) (m : t TState) (w : W) c m' w',
    run_loop d env fuel i m w = Some (Returned c, m', w') ->
    c = currentState m'.
Proof.
  induction fuel as [|fuel IH]; intros i m w c m' w' Hrun; [discriminate|].
  cbn [run_loop] in Hrun.
  destruct (isTerminal (currentState m)); [injection Hrun as <- <- <-; reflexivity|].
  destruct (isCancelled m); [discriminate|].
  destruct (checkTerminationConditions d m (now_at env i)); [discriminate|].
  destruct (currentState m) as [s|]; [|discriminate].
  destruct (transitionHandlers d (status s)) as [handler|]; [|discriminate].
  destruct (negb _); [discriminate|].
  destruct (executeWithTimeout handler s w) as [[e|nextState] v]; [discriminate|].
  eapply IH. exact Hrun.
Qed.

(** A cancelled machine that is not in a terminal state throws at the
    head of the loop, whatever else is the case; in a terminal state
    the flag is not looked at. *)
Lemma run_loop_cancelled (fuel i : nat) (m : t TState) (reason : string) (w : W) :
  run_loop d env (S fuel) i (cancel m reason) w
  = if isTerminal (currentState m)
    then Some (Returned (currentState m), cancel m reason, w)
    else Some (Threw (EError ("State machine cancelled: " ++ reason)),
               cancel m reason, w).
Proof.
  cbn [run_loop cancel currentState isCancelled cancelReason show_status].
  destruct (isTerminal (currentState m)); reflexivity.
Qed.

End Generic.

End StateMachineFacts.

(** ** The research agent *)

Module ResearchAgentFacts.
Import Js Errors ResearchAgent HandlerSpecs.
Import StateMachine (State, TimerCallback, Returned, Threw, Fulfilled, Rejected,
                     Pending, currentState, stepCount, startTime, isCancelled,
                     start_time, now_at, cancel_during, run_loop, run, run_fuel,
                     remaining, within_duration, holds_of, status).

(** *** Rules for [post] *)

Lemma post_ret {A : Type} (a : A) (Q : A -> Prop) : Q a -> post (ret a) Q.
Proof. intros H w. exact H. Qed.

Lemma post_throw {A : Type} (e : thrown) (Q : A -> Prop) : post (throw e) Q.
Proof. intros w. exact I. Qed.

Lemma post_bind {A B : Type} (m : M A) (k : A -> M B) (Q : B -> Prop) :
  (forall a, post (k a) Q) -> post (bind m k) Q.
Proof.
  intros Hk w. unfold bind. destruct (m w) as [[a|e|] w']; try exact I.
  apply Hk.
Qed.

Lemma post_try_catch {A : Type} (m : M A) (h : thrown -> M A) (Q : A -> Prop) :
  post m Q -> (forall e, post (h e) Q) -> post (try_catch m h) Q.
Proof.
  intros Hm Hh w. unfold try_catch. specialize (Hm w).
  destruct (m w) as [[a|e|] w']; try exact I; [exact Hm | apply Hh].
Qed.

Ltac post_step :=
  lazymatch goal with
  | |- post (throw _) _ => apply post_throw
  | |- post (ret _) _ => apply post_ret; reflexivity
  | |- post (try_catch _ _) _ => apply post_try_catch; [|intros ?]
  | |- post (bind _ _) _ => apply post_bind; intros ?
  | |- post (if ?c then _ else _) _ => destruct c
  | |- post (match ?x with _ => _ end) _ => destruct x
  | |- post (let x := ?v in _) _ => cbv zeta
  end.

(** *** Rules for awaited calls *)

Lemma count_calls_app (p : Call -> bool) (w : World) (c : Call) (sm : StateManager.t) :
  count_calls p {| manager := sm; calls := (calls w ++ [c])%list |}
  = (count_calls p w + if p c then 1 else 0)%nat.
Proof.
  unfold count_calls. cbn [calls]. rewrite List.filter_app, List.length_app.
  f_equal. cbn [List.filter]. destruct (p c); reflexivity.
Qed.

(** *** Rules for [budget_blind] *)







Section Agent.
Variable config : AgentConfig.
Variable svc : Collaborators.











(** A handler hands back neither idle nor failed nor cancelled. *)
Lemma handlers_produce (st : string) (s : AgentState) :
  match handlers config svc st with
  | Some h => post (h s) (fun s' => made_by_handler s' = true)
  | None => True
  end.
Proof.
  unfold handlers.
  repeat match goal with
         | |- match (if ?c then _ else _) with _ => _ end => destruct c
         end; try exact I.
  - unfold handleIdle. repeat post_step. intros w. reflexivity.
  - unfold handleInitializing. repeat post_step.
  - unfold handleSearching, visit_first, first_query. repeat post_step.
  - unfold handleReading. repeat post_step.
  - unfold handleEvaluating. repeat post_step.
  - unfold handleReflecting, visit_first, first_query. repeat post_step.
Qed.

Lemma post_weaken {A : Type} (m : M A) (P Q : A -> Prop) :
  (forall a, P a -> Q a) -> post m P -> post m Q.
Proof.
  intros HPQ Hm w. specialize (Hm w).
  destruct (m w) as [[a|e|] w']; try exact I. apply HPQ, Hm.
Qed.

(** What the handlers maintain, the run loop maintains. *)
Lemma run_loop_preserves (P : AgentState -> Prop) (env : StateMachine.Env) :
  (forall st s, match handlers config svc st with
                | Some h => post (h s) P
                | None => True
                end) ->
  forall (fuel i : nat) (m : ResearchAgent.t) (w : World) r m' w',
    run_loop (definition config svc) env fuel i m w = Some (r, m', w') ->
    holds_of P (currentState m) -> holds_of P (currentState m').
Proof.
  intros Hh. induction fuel as [|fuel IH]; intros i m w r m' w' Hrun HP;
    [discriminate|].
  cbn [run_loop] in Hrun.
  destruct (StateMachine.isTerminal (currentState m));
    [injection Hrun as <- <- <-; exact HP|].
  destruct (isCancelled m); [injection Hrun as <- <- <-; exact HP|].
  destruct (StateMachine.checkTerminationConditions _ m _);
    [injection Hrun as <- <- <-; exact HP|].
  destruct (currentState m) as [s|] eqn:Ecur;
    [|injection Hrun as <- <- <-; rewrite Ecur; exact HP].
  cbn [StateMachine.transitionHandlers definition] in Hrun.
  pose proof (Hh (status s) s) as Hs.
  destruct (handlers config svc (status s)) as [h|];
    [|injection Hrun as <- <- <-; rewrite Ecur; exact HP].
  destruct (negb _); [injection Hrun as <- <- <-; rewrite Ecur; exact HP|].
  unfold StateMachine.executeWithTimeout in Hrun. specialize (Hs w).
  destruct (h s w) as [[s'|e|] w1].
  - apply IH in Hrun; [exact Hrun|exact Hs].
  - injection Hrun as <- <- <-. unfold StateMachine.deliver_cancel.
    destruct (cancel_during env i); cbn [StateMachine.cancel currentState];
      rewrite Ecur; exact HP.
  - apply IH in Hrun; [exact Hrun|exact I].
Qed.

(** C1, as the code has it.  [research] always comes to an end, with
    fuel to spare: the run loop makes at most as many transitions as
    maxSteps still allows, every transition it makes was started with
    the elapsed time within maxDuration, and the call ends in one of
    two ways: with a result built from a terminal state, or with an
    error raised to the caller (which is how a step limit, a duration
    limit, a cancellation and a failing handler all end). *)
Theorem research_terminates (env : StateMachine.Env) (agent : ResearchAgent.t)
    (query : string) (w : World) (extra : nat) :
  exists out agent' w',
    research config svc env (run_fuel (definition config svc) agent + extra)
      agent query w = Some (out, agent', w')
    /\ (stepCount agent <= stepCount agent')%nat
    /\ (stepCount agent' - stepCount agent
        <= Z.to_nat (maxSteps config - Z.of_nat (stepCount agent)))%nat
    /\ within_duration (definition config svc) env (start_time env) 0
         (stepCount agent' - stepCount agent) = true
    /\ match out with
       | Result r =>
           exists s, currentState agent' = State s
                     /\ ResearchAgent.isTerminal s = true
                     /\ r = buildResult s (manager w')
                              (now svc w' - startTime agent') (stepCount agent')
       | Raised _ => True
       end.
Proof.
  unfold research.
  destruct (StateManager.initialize (manager w) query (now svc w)) as [[e|] sm].
  { eexists _, _, _. split; [reflexivity|].
    rewrite Nat.sub_diag. repeat split; try reflexivity; lia. }
  set (w1 := {| manager := sm; calls := calls w |}).
  destruct (StateMachineFacts.run_finishes (definition config svc) env agent w1 extra)
    as (r & agent' & w' & Hrun & H1 & H2 & H3 & H4).
  rewrite Hrun.
  destruct r as [[s|]|e].
  - destruct (negb (ResearchAgent.isTerminal s)) eqn:Et.
    + eexists _, _, _. split; [reflexivity|]. repeat split; assumption.
    + eexists _, _, _. split; [reflexivity|]. repeat split; try assumption.
      exists s. destruct H4 as [H4 _]. apply negb_false_iff in Et.
      repeat split; [symmetry; exact H4 | exact Et].
  - eexists _, _, _. split; [reflexivity|]. repeat split; assumption.
  - eexists _, _, _. split; [reflexivity|]. repeat split; assumption.
Qed.

(** A result that [research] returns from a new agent always comes from
    a completed state: the failed and cancelled states exist in the type
    but nothing enters them. *)
Lemma research_result_is_completed (env : StateMachine.Env) (fuel : nat) (t0 : Z)
    (query : string) (w w' : World) (r : ResearchResult) (agent' : ResearchAgent.t) :
  research config svc env fuel (create t0) query w = Some (Result r, agent', w') ->
  exists answer refs,
    currentState agent' = State (Completed answer refs) /\ r_answer r = answer.
Proof.
  unfold research, run. intros Hres.
  destruct (StateManager.initialize (manager w) query (now svc w)) as [[e0|] sm];
    [discriminate|].
  match type of Hres with
  | context [run_loop ?d ?e ?f ?i ?m ?v] =>
      destruct (run_loop d e f i m v) as [[[res a] u]|] eqn:Hrun; [|discriminate]
  end.
  assert (Hinv : holds_of (fun s => not_failed_or_cancelled s = true) (currentState a)).
  { eapply run_loop_preserves; [|exact Hrun|reflexivity].
    intros st s. pose proof (handlers_produce st s) as Hp.
    destruct (handlers config svc st); [|exact I].
    eapply post_weaken; [|exact Hp].
    intros x Hx. destruct x; try discriminate Hx; reflexivity. }
  destruct res as [[s|]|e]; try discriminate Hres.
  destruct (negb (ResearchAgent.isTerminal s)) eqn:Hterm; [discriminate|].
  injection Hres as <- <- <-.
  assert (Hcur : currentState a = State s)
    by (symmetry; eapply StateMachineFacts.run_loop_returns_current; exact Hrun).
  rewrite Hcur in Hinv. cbn [holds_of] in Hinv.
  apply negb_false_iff in Hterm.
  destruct s; try discriminate Hterm; try discriminate Hinv.
  eexists _, _. split; [exact Hcur|reflexivity].
Qed.

(** With a state manager that holds no query and is not frozen,
    [initialize] with a query that is not empty returns and leaves the
    query empty (C8), so the idle handler raises "Query not initialized"
    whatever the services do, as long as the first check passes. *)
Lemma research_without_query (env : StateMachine.Env) (fuel : nat) (t0 : Z)
    (query : string) (w : World) :
  StateManager.getQuery (manager w) = "" ->
  StateManager.frozen (manager w) = false ->
  query <> "" ->
  0 < maxSteps config ->
  now_at env 0 - start_time env <= maxDuration config ->
  exists agent',
    research config svc env (S fuel) (create t0) query w
    = Some (Raised (EConfiguration "Query not initialized"), agent',
            {| manager := StateManager.touch (manager w) (now svc w);
               calls := calls w |})
    /\ currentState agent' = State Idle
    /\ stepCount agent' = 0%nat.
Proof.
  intros Hq Hf Hne Hsteps Hclock. unfold research.
  unfold StateManager.initialize, StateManager.update, StateManager.produce,
    StateManager.initialize_updater.
  unfold StateManager.getQuery in Hq. rewrite Hq, Hf.
  destruct (String.eqb query "") eqn:E; [apply String.eqb_eq in E; contradiction|].
  cbn [andb handleError]. unfold run. cbn [run_loop].
  cbn [create StateMachine.create currentState stepCount isCancelled
       StateMachine.isTerminal StateMachine.status_of status AgentState_status
       String.eqb Ascii.eqb Bool.eqb orb].
  unfold StateMachine.checkTerminationConditions.
  cbn [definition StateMachine.options StateMachine.maxSteps StateMachine.maxDuration
       stepCount startTime].
  destruct (maxSteps config <=? Z.of_nat 0) eqn:E1; [apply Z.leb_le in E1; lia|].
  destruct (maxDuration config <? now_at env 0 - start_time env) eqn:E2;
    [apply Z.ltb_lt in E2; lia|].
  cbn [StateMachine.transitionHandlers StateMachine.validators definition handlers
       validators status AgentState_status String.eqb Ascii.eqb Bool.eqb isIdle
       hasStatus negb].
  unfold StateMachine.executeWithTimeout, handleIdle, bind, get_manager.
  cbn [isIdle hasStatus status AgentState_status String.eqb Ascii.eqb Bool.eqb negb
       manager StateManager.getQuery StateManager.touch StateManager.state
       StateManager.with_lastUpdate StateManager.query].
  rewrite Hq. cbn [String.eqb throw StateMachine.deliver_cancel].
  unfold StateMachine.deliver_cancel. cbn [create StateMachine.create].
  destruct (cancel_during env 0); eexists; repeat split; reflexivity.
Qed.

Lemma validators_pass (s : AgentState) :
  match validators (status s) with
  | Some validator => validator s
  | None => true
  end = true.
Proof. destruct s; reflexivity. Qed.

Lemma isTerminal_agrees (s : AgentState) :
  StateMachine.isTerminal (State s) = ResearchAgent.isTerminal s.
Proof. reflexivity. Qed.

(** C4, as the code has it.  A [cancel(reason)] that arrives while a
    transition is awaited is acted on at the head of the next
    iteration, if the state reached is not terminal: the run loop
    throws "State machine cancelled: reason" and stays in the state it
    had reached.  More generally a machine on which cancel was called
    throws at the head of the loop unless its state is terminal, in
    which case it returns that state; [research] on such a machine
    returns no result: it raises that error to its caller, unless the
    state manager's initialize has thrown before the run, whose error
    is then the one raised; and no handler ever hands back a cancelled
    (or failed) state. *)
Theorem cancel_raises_at_next_check
    (env : StateMachine.Env) (fuel i : nat) (agent : ResearchAgent.t)
    (w w' : World) (s s' : AgentState)
    (h : AgentState -> M AgentState) (reason : string) :
  currentState agent = State s ->
  isCancelled agent = false ->
  StateMachine.checkTerminationConditions (definition config svc) agent
    (now_at env i) = None ->
  handlers config svc (status s) = Some h ->
  h s w = (Fulfilled s', w') ->
  ResearchAgent.isTerminal s = false ->
  ResearchAgent.isTerminal s' = false ->
  cancel_during env i = Some reason ->
  (exists agent',
      run_loop (definition config svc) env (S (S fuel)) i agent w
      = Some (Threw (EError ("State machine cancelled: " ++ reason)), agent', w')
      /\ currentState agent' = State s'
      /\ isCancelled agent' = true)
  /\ (forall (m : ResearchAgent.t) (j : nat) (v : World),
        run_loop (definition config svc) env (S fuel) j
          (ResearchAgent.cancel m reason) v
        = if StateMachine.isTerminal (currentState m)
          then Some (Returned (currentState m), ResearchAgent.cancel m reason, v)
          else Some (Threw (EError ("State machine cancelled: " ++ reason)),
                     ResearchAgent.cancel m reason, v))
  /\ (forall (m : ResearchAgent.t) (query : string) (v : World),
        StateMachine.isTerminal (currentState m) = false ->
        Scenarios.result_of
          (research config svc env (S fuel) (ResearchAgent.cancel m reason) query v)
        = Some (Raised
                  match fst (StateManager.initialize (manager v) query (now svc v)) with
                  | Some e => e
                  | None => EError ("State machine cancelled: " ++ reason)
                  end))
  /\ (forall (st : string) (x : AgentState),
        match handlers config svc st with
        | Some handler => post (handler x) (fun y => made_by_handler y = true)
        | None => True
        end).
Proof.
  intros Hcur Hnc Hcheck Hh Hrun Hs Hs' Hcancel.
  split; [|split; [|split]].
  - cbn [run_loop]. rewrite Hcur, isTerminal_agrees, Hs, Hnc, Hcheck.
    cbn [StateMachine.transitionHandlers StateMachine.validators definition].
    rewrite Hh, validators_pass. cbn [negb].
    unfold StateMachine.executeWithTimeout. rewrite Hrun.
    unfold StateMachine.deliver_cancel. rewrite Hcancel.
    cbn [StateMachine.cancel currentState isCancelled StateMachine.cancelReason
         StateMachine.show_status].
    rewrite isTerminal_agrees, Hs'.
    eexists. split; [reflexivity|]. split; reflexivity.
  - intros m j v. apply StateMachineFacts.run_loop_cancelled.
  - intros m query v Hterm. unfold research, run.
    destruct (StateManager.initialize (manager v) query (now svc v)) as [[e|] sm];
      [reflexivity|].
    cbn [run_loop].
    cbn [ResearchAgent.cancel StateMachine.cancel currentState isCancelled
         StateMachine.cancelReason StateMachine.show_status].
    rewrite Hterm. reflexivity.
  - exact handlers_produce.
Qed.

(** *** Budget *)


(** *** Errors *)

Lemma on_manager_returns (f : StateManager.t -> Z -> option thrown * StateManager.t)
    (v : World) (sm : StateManager.t) :
  f (manager v) (now svc v) = (None, sm) ->
  on_manager svc f v = (Fulfilled tt, {| manager := sm; calls := calls v |}).
Proof. intros Hf. unfold on_manager. rewrite Hf. reflexivity. Qed.

Lemma on_manager_throws (f : StateManager.t -> Z -> option thrown * StateManager.t)
    (v : World) (sm : StateManager.t) (e : thrown) :
  f (manager v) (now svc v) = (Some e, sm) ->
  on_manager svc f v = (Rejected e, {| manager := sm; calls := calls v |}).
Proof. intros Hf. unfold on_manager. rewrite Hf. reflexivity. Qed.

Lemma on_manager_calls (f : StateManager.t -> Z -> option thrown * StateManager.t)
    (v : World) :
  calls (snd (on_manager svc f v)) = calls v.
Proof.
  unfold on_manager. destruct (f (manager v) (now svc v)) as [[e|] sm]; reflexivity.
Qed.







(** *** Rules for [absorbs_nothing] *)





















(** [research] hands on whatever [initialize] or the run loop threw. *)
Lemma research_rethrows (env : StateMachine.Env) (fuel : nat) (agent : ResearchAgent.t)
    (query : string) (w : World) :
  let init := StateManager.initialize (manager w) query (now svc w) in
  let w1 := {| manager := snd init; calls := calls w |} in
  research config svc env fuel agent query w
  = match fst init with
    | Some e => Some (Raised e, agent, w1)
    | None =>
        match run (definition config svc) env fuel agent w1 with
        | Some (Threw e, agent', w') => Some (Raised e, agent', w')
        | Some (Returned c, agent', w') =>
            Some (match c with
                  | State s =>
                      if ResearchAgent.isTerminal s
                      then Result (buildResult s (manager w')
                                     (now svc w' - startTime agent') (stepCount agent'))
                      else Raised (EError "Research terminated in non-terminal state")
                  | TimerCallback =>
                      Raised (EError "Research terminated in non-terminal state")
                  end, agent', w')
        | None => None
        end
    end.
Proof.
  cbv zeta. unfold research.
  destruct (StateManager.initialize (manager w) query (now svc w)) as [[e|] sm];
    cbn [fst snd]; [reflexivity|].
  destruct (run _ _ _ _ _) as [[[[[s|]|e] agent'] w']|]; try reflexivity.
  destruct (ResearchAgent.isTerminal s); reflexivity.
Qed.


(** *** Answers *)

Lemma parseAction_object (content text : string) (action : jsval) (v : World) :
  match_braces content = Some text ->
  JSON_parse svc text = Some action ->
  parseAction svc content v = (Fulfilled action, v).
Proof.
  intros Hm Hp. unfold parseAction, try_catch. rewrite Hm, Hp. reflexivity.
Qed.

Lemma decideNextAction_object (content text : string) (action : jsval) (v : World) :
  generate svc (count_calls is_generate v) = Resolves content ->
  match_braces content = Some text ->
  JSON_parse svc text = Some action ->
  fst (decideNextAction svc v) = Fulfilled action.
Proof.
  intros Hg Hm Hp. unfold decideNextAction, bind, get_manager, try_catch, await.
  cbn [manager]. rewrite Hg. rewrite (parseAction_object content text action _ Hm Hp).
  reflexivity.
Qed.

(** C6, what the code does.  When the LLM replies with an object
    whose type is "answer": in the searching state (the state manager
    not being frozen) the agent goes to the evaluating state with that
    answer, at every step (there is no flag and no first-step
    shortcut); in the reflecting state the agent completes at once with
    that answer and its references, and the answer is not evaluated. *)
Theorem answer_action_routing
    (step : Z) (q : jsval) (feedback : string) (v : World)
    (results : list ProviderResult) (content text : string)
    (fields : list (string * jsval)) :
  StateManager.frozen (manager v) = false ->
  search svc (count_calls is_search v) = Resolves results ->
  generate svc (count_calls is_generate v) = Resolves content ->
  match_braces content = Some text ->
  JSON_parse svc text = Some (JObj fields) ->
  field "type" fields = JStr "answer" ->
  fst (handleSearching svc (Searching step q) v)
  = Fulfilled (Evaluating step (field "answer" fields))
  /\ fst (handleReflecting svc (Reflecting step feedback) v)
     = Fulfilled (Completed (field "answer" fields)
                    (FromAction (field "references" fields))).
Proof.
  intros Hf Hs Hg Hm Hp Hty. split.
  - unfold handleSearching, try_catch, bind at 1. unfold await at 1. rewrite Hs.
    unfold bind at 1.
    erewrite on_manager_returns
      by (apply StateManagerFacts.addSearchResults_returns; exact Hf).
    set (v2 := {| manager := _; calls := calls _ |}).
    assert (Hg2 : generate svc (count_calls is_generate v2) = Resolves content).
    { unfold v2. cbn [calls]. rewrite count_calls_app. cbn [is_generate].
      rewrite Nat.add_0_r. exact Hg. }
    pose proof (decideNextAction_object content text (JObj fields) v2 Hg2 Hm Hp) as Hd.
    unfold bind at 1.
    destruct (decideNextAction svc v2) as [[x|e|] v3]; cbn [fst] in Hd;
      try discriminate Hd.
    injection Hd as ->.
    unfold bind, access, ret. cbn [get_prop]. rewrite Hty. reflexivity.
  - pose proof (decideNextAction_object content text (JObj fields) v Hg Hm Hp) as Hd.
    unfold handleReflecting, bind at 1.
    destruct (decideNextAction svc v) as [[x|e|] v3]; cbn [fst] in Hd;
      try discriminate Hd.
    injection Hd as ->.
    unfold bind, access, ret. cbn [get_prop]. rewrite Hty. reflexivity.
Qed.

End Agent.

(** A session in which the caller cancels during the first transition:
    the second iteration throws, from the initializing state. *)
Lemma cancel_raises_at_next_check_witness :
  let config := Scenarios.default_config in
  let svc := Scenarios.services Scenarios.search_ok Scenarios.llm_prose in
  let w := Scenarios.world_of (Scenarios.manager_holding "q" 0) in
  exists agent',
    run_loop (definition config svc) (Scenarios.cancelling 0 "stop") 2 0
      (create 0) w
    = Some (Threw (EError "State machine cancelled: stop"), agent', w)
    /\ currentState agent' = State (Initializing "q" 0)
    /\ isCancelled agent' = true.
Proof.
  cbv zeta.
  exact (proj1 (cancel_raises_at_next_check Scenarios.default_config
                  (Scenarios.services Scenarios.search_ok Scenarios.llm_prose)
                  (Scenarios.cancelling 0 "stop") 0 0 (create 0)
                  (Scenarios.world_of (Scenarios.manager_holding "q" 0))
                  (Scenarios.world_of (Scenarios.manager_holding "q" 0))
                  Idle (Initializing "q" 0)
                  (handleIdle (Scenarios.services Scenarios.search_ok Scenarios.llm_prose))
                  "stop"
                  eq_refl eq_refl eq_refl eq_refl eq_refl eq_refl eq_refl eq_refl)).
Defined.

(** C4, as stated, fails.  In a machine that goes from searching to
    evaluating to completed, a cancel during the first transition makes
    the run throw at the head of the second iteration, with the machine
    left in the evaluating state, not in a cancelled one; a cancel
    during the last transition is not noticed at all, the completed
    state is returned and the result built from it carries the answer;
    and a cancel before [research], on a new manager, makes it raise the
    same error from the idle state. *)
Lemma cancel_never_reaches_cancelled_state :
  let start := StateMachine.create (Searching 1 (JStr "q")) 0 in
  let early :=
    StateMachine.run Scenarios.two_steps (Scenarios.cancelling 0 "stop") 5 start tt in
  let late :=
    StateMachine.run Scenarios.two_steps (Scenarios.cancelling 1 "stop") 5 start tt in
  let before :=
    research Scenarios.default_config
      (Scenarios.services Scenarios.search_ok Scenarios.llm_answers) Scenarios.calm 101
      (ResearchAgent.cancel (create 0) "stop") "q"
      (Scenarios.world_of Scenarios.fresh_manager) in
  Scenarios.result_of early = Some (Threw (EError "State machine cancelled: stop"))
  /\ Scenarios.status_after early = Some "evaluating"
  /\ Scenarios.result_of late
     = Some (Returned (State (Completed (JStr "4") (FromManager []))))
  /\ (isCancelled <$> Scenarios.machine_of late) = Some true
  /\ r_answer (buildResult (Completed (JStr "4") (FromManager []))
                 Scenarios.fresh_manager 0 2) = JStr "4"
  /\ Scenarios.result_of before = Some (Raised (EError "State machine cancelled: stop"))
  /\ Scenarios.final_status before = Some "idle".
Proof. vm_compute. repeat split; reflexivity. Qed.





(** An LLM that answers 4: from searching the agent goes to evaluating,
    from reflecting it completes. *)
Lemma answer_action_routing_witness :
  let svc := Scenarios.services Scenarios.search_ok Scenarios.llm_always_answers in
  let v := Scenarios.world_of Scenarios.fresh_manager in
  fst (handleSearching svc (Searching 1 (JStr "q")) v)
  = Fulfilled (Evaluating 1 (JStr "4"))
  /\ fst (handleReflecting svc (Reflecting 2 "Evaluating progress") v)
     = Fulfilled (Completed (JStr "4") (FromAction (JArr []))).
Proof.
  cbv zeta.
  exact (answer_action_routing
           (Scenarios.services Scenarios.search_ok Scenarios.llm_always_answers)
           1 (JStr "q") "Evaluating progress"
           (Scenarios.world_of Scenarios.fresh_manager)
           [] Scenarios.answer_text Scenarios.answer_text
           [("type", JStr "answer"); ("answer", JStr "4"); ("references", JArr [])]
           eq_refl eq_refl eq_refl eq_refl eq_refl eq_refl).
Defined.

(** C1, as stated, fails: the call can end without any terminal
    state.  With the default limits and a new state manager, [research]
    on an agent that was cancelled raises from the idle state, and so
    does [research] with a clock that has passed maxDuration at the
    first check; and a machine whose handler keeps searching makes its
    three transitions and then throws, still searching. *)
Lemma research_can_end_without_terminal_state :
  let svc := Scenarios.services Scenarios.search_ok Scenarios.llm_prose in
  let cancelled :=
    research Scenarios.default_config svc Scenarios.calm 101
      (ResearchAgent.cancel (create 0) "enough") "q"
      (Scenarios.world_of Scenarios.fresh_manager) in
  let slow :=
    research Scenarios.default_config svc (Scenarios.late 300001) 101 (create 0) "q"
      (Scenarios.world_of Scenarios.fresh_manager) in
  let spin :=
    StateMachine.run Scenarios.spinning Scenarios.calm 5
      (StateMachine.create (Searching 1 (JStr "q")) 0) tt in
  Scenarios.result_of cancelled
  = Some (Raised (EError "State machine cancelled: enough"))
  /\ Scenarios.final_status cancelled = Some "idle"
  /\ Scenarios.result_of slow
     = Some (Raised (EError "Max duration (300000ms) exceeded after 300001ms"))
  /\ Scenarios.final_status slow = Some "idle"
  /\ Scenarios.result_of spin = Some (Threw (EError "Max steps (3) exceeded at step 3"))
  /\ Scenarios.status_after spin = Some "searching"
  /\ (stepCount <$> Scenarios.machine_of spin) = Some 3%nat.
Proof. vm_compute. repeat split; reflexivity. Qed.

End ResearchAgentFacts.

(** ** More on strings *)

Module JsStringMore.
Import JsString JsStringFacts.

Lemma clamp_0 (n : Z) : 0 <= n -> clamp n 0 = 0.
Proof. intros Hn. unfold clamp. cbn. lia. Qed.

Lemma clamp_range (n i : Z) : 0 <= n -> 0 <= clamp n i <= n.
Proof.
  intros Hn. unfold clamp. destruct (i <? 0) eqn:E.
  - apply Z.ltb_lt in E. lia.
  - apply Z.ltb_ge in E. lia.
Qed.

Lemma clamp_beyond (n i : Z) : 0 <= n -> n <= i -> clamp n i = n.
Proof.
  intros Hn Hi. unfold clamp. destruct (i <? 0) eqn:E.
  - apply Z.ltb_lt in E. lia.
  - lia.
Qed.

(** [s.slice(0, e)] is a prefix of [s], of [clamp] many characters. *)
Lemma slice_0 (s : string) (e : Z) :
  slice s 0 e = substring 0 (Z.to_nat (clamp (len s) e)) s.
Proof.
  unfold slice. cbv zeta. rewrite clamp_0 by apply len_nonneg.
  rewrite Z.sub_0_r. reflexivity.
Qed.

Lemma slice_0_all (s : string) (e : Z) : len s <= e -> slice s 0 e = s.
Proof.
  intros He. rewrite slice_0, clamp_beyond by (try apply len_nonneg; exact He).
  unfold len. rewrite Nat2Z.id. apply substring_all.
Qed.

Lemma substring_0_prefix (s : string) :
  forall n, String.prefix (substring 0 n s) s = true.
Proof.
  induction s as [|a r IH]; intros n.
  - destruct n; reflexivity.
  - destruct n as [|n]; [reflexivity|].
    cbn [substring String.prefix]. destruct (ascii_dec a a); [apply IH | congruence].
Qed.

Lemma prefix_trans (a b c : string) :
  String.prefix a b = true -> String.prefix b c = true -> String.prefix a c = true.
Proof.
  revert b c. induction a as [|x a IH]; intros b c Hab Hbc; [destruct c; reflexivity|].
  destruct b as [|y b]; [discriminate|]. destruct c as [|z c]; [discriminate|].
  cbn [String.prefix] in *.
  destruct (ascii_dec x y); [|discriminate].
  destruct (ascii_dec y z); [|discriminate].
  destruct (ascii_dec x z); [|congruence].
  eapply IH; eassumption.
Qed.

Lemma append_empty (s : string) : s ++ EmptyString = s.
Proof.
  induction s as [|a r IH]; [reflexivity|].
  change (String a r ++ "") with (String a (r ++ "")). rewrite IH. reflexivity.
Qed.

Lemma substring_0_snoc (s : string) :
  forall n c, substring n 1 s = String c EmptyString ->
    substring 0 (S n) s = substring 0 n s ++ String c EmptyString.
Proof.
  induction s as [|a r IH]; intros n c H.
  - destruct n; discriminate H.
  - destruct n as [|n].
    + cbn in H. destruct r; cbn in H; injection H as ->; reflexivity.
    + cbn [substring] in H |- *.
      change (String a (substring 0 n r) ++ String c "")
        with (String a (substring 0 n r ++ String c "")).
      f_equal. apply IH. exact H.
Qed.

Lemma lastIndexOf_from_lower (s : string) (c : ascii) :
  forall i, 0 <= i -> lastIndexOf_from s c i = -1 \/ i <= lastIndexOf_from s c i.
Proof.
  induction s as [|a r IH]; intros i Hi; cbn [lastIndexOf_from]; [left; reflexivity|].
  destruct (0 <=? lastIndexOf_from r c (i + 1)) eqn:E.
  - apply Z.leb_le in E. destruct (IH (i + 1) ltac:(lia)); [lia|]. right. lia.
  - destruct (Ascii.eqb a c); [right; lia | left; reflexivity].
Qed.

(** The character [lastIndexOf] points at. *)
Lemma lastIndexOf_from_char (s : string) (c : ascii) :
  forall i, 0 <= i -> 0 <= lastIndexOf_from s c i ->
    substring (Z.to_nat (lastIndexOf_from s c i - i)) 1 s = String c EmptyString.
Proof.
  induction s as [|a r IH]; intros i Hi Hk; cbn [lastIndexOf_from] in *; [lia|].
  destruct (0 <=? lastIndexOf_from r c (i + 1)) eqn:E.
  - apply Z.leb_le in E.
    pose proof (lastIndexOf_from_lower r c (i + 1) ltac:(lia)) as Hr.
    specialize (IH (i + 1) ltac:(lia) E).
    destruct Hr as [Hr|Hr]; [lia|].
    replace (Z.to_nat (lastIndexOf_from r c (i + 1) - i))
      with (S (Z.to_nat (lastIndexOf_from r c (i + 1) - (i + 1)))) by lia.
    cbn [substring]. exact IH.
  - destruct (Ascii.eqb a c) eqn:Ea; [|lia].
    apply Ascii.eqb_eq in Ea. subst a. rewrite Z.sub_diag. cbn.
    destruct r; reflexivity.
Qed.

(** Where [lastIndexOf] finds nothing, [indexOf] finds nothing. *)
Lemma lastIndexOf_from_none (s : string) (c : ascii) :
  forall i j, 0 <= i -> lastIndexOf_from s c i < 0 -> indexOf_from s c j = -1.
Proof.
  induction s as [|a r IH]; intros i j Hi H; cbn [lastIndexOf_from indexOf_from] in *;
    [reflexivity|].
  destruct (0 <=? lastIndexOf_from r c (i + 1)) eqn:E.
  - apply Z.leb_le in E. lia.
  - apply Z.leb_gt in E. destruct (Ascii.eqb a c); [lia|]. apply (IH (i + 1)); [lia|exact E].
Qed.

(** [lastIndexOf] splits the string at the last occurrence: the
    character is there, and not after it. *)
Lemma lastIndexOf_from_split (s : string) (c : ascii) :
  forall i, 0 <= i -> 0 <= lastIndexOf_from s c i ->
    exists rest,
      s = substring 0 (Z.to_nat (lastIndexOf_from s c i - i)) s ++ String c rest
      /\ indexOf rest c = -1.
Proof.
  induction s as [|a r IH]; intros i Hi Hk; cbn [lastIndexOf_from] in *; [lia|].
  destruct (0 <=? lastIndexOf_from r c (i + 1)) eqn:E.
  - apply Z.leb_le in E.
    destruct (lastIndexOf_from_lower r c (i + 1) ltac:(lia)) as [Hm|Hge]; [lia|].
    destruct (IH (i + 1) ltac:(lia) E) as (rest & Hr & Hno).
    exists rest. split; [|exact Hno].
    replace (Z.to_nat (lastIndexOf_from r c (i + 1) - i))
      with (S (Z.to_nat (lastIndexOf_from r c (i + 1) - (i + 1)))) by lia.
    cbn [substring]. change (String a ?x ++ ?y) with (String a (x ++ y)).
    f_equal. exact Hr.
  - apply Z.leb_gt in E. destruct (Ascii.eqb a c) eqn:Ea; [|lia].
    apply Ascii.eqb_eq in Ea. subst a.
    exists r. rewrite Z.sub_diag. split; [reflexivity|].
    apply (lastIndexOf_from_none r c (i + 1) 0 ltac:(lia) E).
Qed.

End JsStringMore.

(** ** More on the run loop *)

Module StateMachineMore.
Import Errors StateMachine.

Section Generic.
Context {TState W : Type} `{HasStatus TState}.
Variable d : Definition_ TState W.

(** The loop returns terminal states only. *)
Lemma run_loop_returns_terminal (env : Env) :
  forall (fuel i : nat) (m : t TState) (w : W) c m' w',
    run_loop d env fuel i m w = Some (Returned c, m', w') ->
    isTerminal c = true.
Proof.
  induction fuel as [|fuel IH]; intros i m w c m' w' Hrun; [discriminate|].
  cbn [run_loop] in Hrun.
  destruct (isTerminal (currentState m)) eqn:E;
    [injection Hrun as <- <- <-; exact E|].
  destruct (isCancelled m); [discriminate|].
  destruct (checkTerminationConditions d m (now_at env i)); [discriminate|].
  destruct (currentState m) as [s|]; [|discriminate].
  destruct (transitionHandlers d (status s)) as [handler|]; [|discriminate].
  destruct (negb _); [discriminate|].
  destruct (executeWithTimeout handler s w) as [[e|nextState] v]; [discriminate|].
  eapply IH. exact Hrun.
Qed.

(** X1.  Once a run has returned a state, running the machine again
    returns the same state at once: no handler is called (the world is
    handed back as it was given), no step is counted, and neither the
    clock nor a cancel issued in between changes that. *)
Theorem run_again_returns_same
    (env env2 : Env) (fuel fuel2 : nat) (m m' : t TState) (w w' v : W)
    (c : current TState) (reason : string) :
  run d env fuel m w = Some (Returned c, m', w') ->
  (exists m2, run d env2 (S fuel2) m' v = Some (Returned c, m2, v)
              /\ stepCount m2 = stepCount m' /\ history m2 = history m')
  /\ (exists m2, run d env2 (S fuel2) (cancel m' reason) v = Some (Returned c, m2, v)
                 /\ stepCount m2 = stepCount m').
Proof.
  intros Hrun. unfold run in Hrun.
  pose proof (run_loop_returns_terminal _ _ _ _ _ _ _ _ Hrun) as Hterm.
  pose proof (StateMachineFacts.run_loop_returns_current d _ _ _ _ _ _ _ _ Hrun) as Hcur.
  subst c. split.
  - unfold run. cbn [run_loop currentState]. rewrite Hterm.
    eexists. split; [reflexivity|]. split; reflexivity.
  - unfold run. cbn [run_loop cancel currentState]. rewrite Hterm.
    eexists. split; reflexivity.
Qed.

(** [recordTransition] adds one entry while the history has fewer than
    100 and keeps the length at 100 from then on. *)
Lemma length_recordTransition (h : list (current TState * current TState))
    (from to : current TState) :
  (length h <= 100)%nat ->
  length (recordTransition h from to) = Nat.min 100 (length h + 1).
Proof.
  intros Hh. unfold recordTransition.
  rewrite List.length_app. cbn [length].
  destruct (100 <? length h + 1)%nat eqn:E.
  - apply Nat.ltb_lt in E.
    assert (length h = 100%nat) by lia.
    destruct h as [|x h']; [cbn in *; lia|].
    cbn [app tl]. rewrite List.length_app. cbn [length] in *. lia.
  - apply Nat.ltb_ge in E. rewrite List.length_app. cbn [length]. lia.
Qed.

(** The step counter never goes down in the loop. *)
Lemma run_loop_stepCount_mono (env : Env) :
  forall (fuel i : nat) (m : t TState) (w : W) r m' w',
    run_loop d env fuel i m w = Some (r, m', w') ->
    (stepCount m <= stepCount m')%nat.
Proof.
  induction fuel as [|fuel IH]; intros i m w r m' w' Hrun; [discriminate|].
  cbn [run_loop] in Hrun.
  destruct (isTerminal (currentState m)); [injection Hrun as <- <- <-; lia|].
  destruct (isCancelled m); [injection Hrun as <- <- <-; lia|].
  destruct (checkTerminationConditions d m (now_at env i));
    [injection Hrun as <- <- <-; lia|].
  destruct (currentState m) as [s|]; [|injection Hrun as <- <- <-; lia].
  destruct (transitionHandlers d (status s)) as [handler|];
    [|injection Hrun as <- <- <-; lia].
  destruct (negb _); [injection Hrun as <- <- <-; lia|].
  assert (Hc : stepCount (deliver_cancel env i m) = stepCount m)
    by (unfold deliver_cancel; destruct (cancel_during env i); reflexivity).
  destruct (executeWithTimeout handler s w) as [[e|nextState] v].
  - injection Hrun as <- <- <-. lia.
  - apply IH in Hrun. cbn [stepCount] in Hrun. lia.
Qed.

Lemma run_loop_history (env : Env) :
  forall (fuel i : nat) (m : t TState) (w : W) r m' w',
    run_loop d env fuel i m w = Some (r, m', w') ->
    (length (history m) <= 100)%nat ->
    length (history m')
    = Nat.min 100 (length (history m) + (stepCount m' - stepCount m)).
Proof.
  induction fuel as [|fuel IH]; intros i m w r m' w' Hrun Hh; [discriminate|].
  cbn [run_loop] in Hrun.
  assert (Hstay : length (history m)
                  = Nat.min 100 (length (history m) + (stepCount m - stepCount m)))
    by (rewrite Nat.sub_diag; lia).
  destruct (isTerminal (currentState m)); [injection Hrun as <- <- <-; exact Hstay|].
  destruct (isCancelled m); [injection Hrun as <- <- <-; exact Hstay|].
  destruct (checkTerminationConditions d m (now_at env i));
    [injection Hrun as <- <- <-; exact Hstay|].
  destruct (currentState m) as [s|] eqn:Ecur; [|injection Hrun as <- <- <-; exact Hstay].
  destruct (transitionHandlers d (status s)) as [handler|];
    [|injection Hrun as <- <- <-; exact Hstay].
  destruct (negb _); [injection Hrun as <- <- <-; exact Hstay|].
  assert (Hd1 : history (deliver_cancel env i m) = history m)
    by (unfold deliver_cancel; destruct (cancel_during env i); reflexivity).
  assert (Hd2 : stepCount (deliver_cancel env i m) = stepCount m)
    by (unfold deliver_cancel; destruct (cancel_during env i); reflexivity).
  destruct (executeWithTimeout handler s w) as [[e|nextState] v].
  - injection Hrun as <- <- <-. rewrite Hd1, Hd2. exact Hstay.
  - pose proof (run_loop_stepCount_mono _ _ _ _ _ _ _ _ Hrun) as Hgrow.
    apply IH in Hrun; cbn [history stepCount] in Hrun, Hgrow |- *.
    + rewrite Hrun, Hd1, Hd2, length_recordTransition in * by exact Hh. lia.
    + rewrite Hd1, length_recordTransition by exact Hh. lia.
Qed.

(** The loop never touches the start time. *)
Lemma run_loop_startTime (env : Env) :
  forall (fuel i : nat) (m : t TState) (w : W) r m' w',
    run_loop d env fuel i m w = Some (r, m', w') ->
    startTime m' = startTime m.
Proof.
  induction fuel as [|fuel IH]; intros i m w r m' w' Hrun; [discriminate|].
  cbn [run_loop] in Hrun.
  destruct (isTerminal (currentState m)); [injection Hrun as <- <- <-; reflexivity|].
  destruct (isCancelled m); [injection Hrun as <- <- <-; reflexivity|].
  destruct (checkTerminationConditions d m (now_at env i));
    [injection Hrun as <- <- <-; reflexivity|].
  destruct (currentState m) as [s|]; [|injection Hrun as <- <- <-; reflexivity].
  destruct (transitionHandlers d (status s)) as [handler|];
    [|injection Hrun as <- <- <-; reflexivity].
  destruct (negb _); [injection Hrun as <- <- <-; reflexivity|].
  assert (Hc : startTime (deliver_cancel env i m) = startTime m)
    by (unfold deliver_cancel; destruct (cancel_during env i); reflexivity).
  destruct (executeWithTimeout handler s w) as [[e|nextState] v].
  - injection Hrun as <- <- <-. exact Hc.
  - apply IH in Hrun. cbn [startTime] in Hrun. congruence.
Qed.

(** What the handlers do to the world, summed over a run: [R n] relates
    the worlds before and after at most [n] handler calls, and a run
    calls no more handlers than it has steps left. *)
Lemma run_loop_steps (env : Env) (R : nat -> W -> W -> Prop) :
  (forall w, R 0%nat w w) ->
  (forall n w1 w2, R n w1 w2 -> R (S n) w1 w2) ->
  (forall n w1 w2 w3, R 1%nat w1 w2 -> R n w2 w3 -> R (S n) w1 w3) ->
  (forall s h w, transitionHandlers d (status s) = Some h -> R 1%nat w (snd (h s w))) ->
  forall (fuel i : nat) (m : t TState) (w : W) r m' w',
    run_loop d env fuel i m w = Some (r, m', w') ->
    R (remaining d m) w w'.
Proof.
  intros R0 Rmono Rstep Rh.
  assert (Rle : forall k n w1 w2, R n w1 w2 -> R (k + n)%nat w1 w2)
    by (induction k as [|k IHk]; intros n w1 w2 Hn; [exact Hn | apply Rmono, IHk, Hn]).
  assert (Rany : forall n w, R n w w)
    by (intros n w; rewrite <- (Nat.add_0_r n); apply Rle, R0).
  induction fuel as [|fuel IH]; intros i m w r m' w' Hrun; [discriminate|].
  cbn [run_loop] in Hrun.
  destruct (isTerminal (currentState m)); [injection Hrun as <- <- <-; apply Rany|].
  destruct (isCancelled m); [injection Hrun as <- <- <-; apply Rany|].
  destruct (checkTerminationConditions d m (now_at env i)) eqn:Ec;
    [injection Hrun as <- <- <-; apply Rany|].
  assert (Hlt : (Z.of_nat (stepCount m) < maxSteps (options d))).
  { unfold checkTerminationConditions in Ec.
    destruct (maxSteps (options d) <=? Z.of_nat (stepCount m)) eqn:E; [discriminate|].
    apply Z.leb_gt in E. exact E. }
  destruct (currentState m) as [s|]; [|injection Hrun as <- <- <-; apply Rany].
  destruct (transitionHandlers d (status s)) as [handler|] eqn:Eh;
    [|injection Hrun as <- <- <-; apply Rany].
  destruct (negb _); [injection Hrun as <- <- <-; apply Rany|].
  assert (Hd2 : stepCount (deliver_cancel env i m) = stepCount m)
    by (unfold deliver_cancel; destruct (cancel_during env i); reflexivity).
  pose proof (Rh s handler w Eh) as H1.
  assert (Hrem : exists k, remaining d m = S k
                           /\ k = Z.to_nat (maxSteps (options d)
                                            - Z.of_nat (S (stepCount m)))).
  { unfold remaining. eexists. split; [|reflexivity]. lia. }
  destruct Hrem as (k & -> & Hk).
  unfold executeWithTimeout in Hrun.
  destruct (handler s w) as [[s'|e|] v]; cbn [snd] in H1.
  - apply IH in Hrun. unfold remaining in Hrun. cbn [stepCount] in Hrun.
    rewrite Hd2, <- Hk in Hrun. eapply Rstep; eassumption.
  - injection Hrun as <- <- <-.
    replace (S k) with (k + 1)%nat by lia. apply Rle, H1.
  - apply IH in Hrun. unfold remaining in Hrun. cbn [stepCount] in Hrun.
    rewrite Hd2, <- Hk in Hrun. eapply Rstep; eassumption.
Qed.

(** Where the errors of a run come from: the loop's own checks, or the
    handler of a state that passed its validator. *)
Lemma run_loop_threw (env : Env) (R : thrown -> Prop) :
  (forall reason, R (EError ("State machine cancelled: " ++ reason))) ->
  (forall m now e, checkTerminationConditions d m now = Some e -> R e) ->
  R (EError "No transition handler for state: undefined") ->
  (forall s, isTerminal (State s) = false -> transitionHandlers d (status s) = None ->
             R (EError ("No transition handler for state: " ++ status s))) ->
  (forall s h, transitionHandlers d (status s) = Some h ->
               match validators d (status s) with Some v => v s | None => true end
               = false ->
               R (EError ("Invalid state: " ++ status s))) ->
  (forall s h w e, isTerminal (State s) = false ->
                   transitionHandlers d (status s) = Some h ->
                   fst (h s w) = Rejected e -> R e) ->
  forall (fuel i : nat) (m : t TState) (w : W) e m' w',
    run_loop d env fuel i m w = Some (Threw e, m', w') -> R e.
Proof.
  intros Rc Rk Ru Rn Rv Rh.
  induction fuel as [|fuel IH]; intros i m w e m' w' Hrun; [discriminate|].
  cbn [run_loop] in Hrun.
  destruct (isTerminal (currentState m)) eqn:Et; [discriminate|].
  destruct (isCancelled m); [injection Hrun as <- <- <-; apply Rc|].
  destruct (checkTerminationConditions d m (now_at env i)) eqn:Ec;
    [injection Hrun as <- <- <-; eapply Rk; exact Ec|].
  destruct (currentState m) as [s|]; [|injection Hrun as <- <- <-; exact Ru].
  destruct (transitionHandlers d (status s)) as [handler|] eqn:Eh;
    [|injection Hrun as <- <- <-; apply Rn; assumption].
  destruct (match validators d (status s) with Some v => v s | None => true end) eqn:Ev;
    cbn [negb] in Hrun; [|injection Hrun as <- <- <-; eapply Rv; eassumption].
  pose proof (Rh s handler w) as H1.
  unfold executeWithTimeout in Hrun.
  destruct (handler s w) as [[s'|e'|] v]; cbn [fst] in H1.
  - eapply IH. exact Hrun.
  - injection Hrun as <- <- <-. eapply H1; auto.
  - eapply IH. exact Hrun.
Qed.


(** The same with an invariant of the world that the handlers keep as
    long as they fulfil, and errors judged together with the world they
    are raised in. *)
Lemma run_loop_threw_where (env : Env) (Inv : W -> Prop) (R : thrown -> W -> Prop) :
  (forall reason w, R (EError ("State machine cancelled: " ++ reason)) w) ->
  (forall m now e w, checkTerminationConditions d m now = Some e -> R e w) ->
  (forall w, R (EError "No transition handler for state: undefined") w) ->
  (forall s w, isTerminal (State s) = false -> transitionHandlers d (status s) = None ->
               R (EError ("No transition handler for state: " ++ status s)) w) ->
  (forall s h w, transitionHandlers d (status s) = Some h ->
                 match validators d (status s) with Some v => v s | None => true end
                 = false ->
                 R (EError ("Invalid state: " ++ status s)) w) ->
  (forall s h w, Inv w -> isTerminal (State s) = false ->
                 transitionHandlers d (status s) = Some h ->
                 match h s w with
                 | (Fulfilled _, w') => Inv w'
                 | (Rejected e, w') => R e w'
                 | (Pending, _) => True
                 end) ->
  forall (fuel i : nat) (m : t TState) (w : W) e m' w',
    currentState m = TimerCallback \/ Inv w ->
    run_loop d env fuel i m w = Some (Threw e, m', w') -> R e w'.
Proof.
  intros Rc Rk Ru Rn Rv Rh.
  induction fuel as [|fuel IH]; intros i m w e m' w' Hinv Hrun; [discriminate|].
  cbn [run_loop] in Hrun.
  destruct (isTerminal (currentState m)) eqn:Et; [discriminate|].
  destruct (isCancelled m); [injection Hrun as <- <- <-; apply Rc|].
  destruct (checkTerminationConditions d m (now_at env i)) eqn:Ec;
    [injection Hrun as <- <- <-; eapply Rk; exact Ec|].
  destruct (currentState m) as [s|]; [|injection Hrun as <- <- <-; apply Ru].
  destruct Hinv as [Hinv|Hinv]; [discriminate Hinv|].
  destruct (transitionHandlers d (status s)) as [handler|] eqn:Eh;
    [|injection Hrun as <- <- <-; apply Rn; assumption].
  destruct (match validators d (status s) with Some v => v s | None => true end) eqn:Ev;
    cbn [negb] in Hrun; [|injection Hrun as <- <- <-; eapply Rv; eassumption].
  pose proof (Rh s handler w Hinv Et Eh) as H1.
  unfold executeWithTimeout in Hrun.
  destruct (handler s w) as [[s'|e'|] v].
  - eapply IH; [|exact Hrun]. right. exact H1.
  - injection Hrun as <- <- <-. exact H1.
  - eapply IH; [|exact Hrun]. left. reflexivity.
Qed.

(** [recordTransition] keeps the last 100 of what it is given and the
    new entry. *)
Lemma recordTransition_window (h : list (current TState * current TState))
    (from to : current TState) :
  (length h <= 100)%nat ->
  recordTransition h from to = window 100 (h ++ [(from, to)]).
Proof.
  intros Hh. unfold recordTransition, window.
  rewrite List.length_app. cbn [length].
  destruct (100 <? length h + 1)%nat eqn:E.
  - apply Nat.ltb_lt in E.
    replace (length h + 1 - 100)%nat with 1%nat by lia.
    destruct h as [|x h']; [cbn in *; lia|]. reflexivity.
  - apply Nat.ltb_ge in E.
    replace (length h + 1 - 100)%nat with 0%nat by lia. reflexivity.
Qed.

(** Cutting to the last [n] early does not change the last [n]. *)
Lemma window_app {A : Type} (n : nat) (l r : list A) :
  window n (window n l ++ r) = window n (l ++ r).
Proof.
  unfold window. rewrite !List.length_app, length_drop.
  destruct (Nat.le_gt_cases (length l) n) as [Hle|Hgt].
  - replace (length l - n)%nat with 0%nat by lia. cbn [drop].
    rewrite Nat.sub_0_r. reflexivity.
  - replace (length l - (length l - n) + length r - n)%nat with (length r) by lia.
    replace (length l + length r - n)%nat with ((length l - n) + length r)%nat by lia.
    transitivity (drop (length l - n + length r)
                    (take (length l - n) l ++ (drop (length l - n) l ++ r))).
    + rewrite drop_app_add'; [reflexivity|]. rewrite length_take. lia.
    + rewrite List.app_assoc, take_drop. reflexivity.
Qed.

Lemma window_all {A : Type} (n : nat) (l : list A) :
  (length l <= n)%nat -> window n l = l.
Proof.
  intros Hl. unfold window. replace (length l - n)%nat with 0%nat by lia. reflexivity.
Qed.

Lemma length_window {A : Type} (n : nat) (l : list A) :
  length (window n l) = Nat.min n (length l).
Proof. unfold window. rewrite length_drop. lia. Qed.

(** The loop records every transition it makes, in order, and keeps
    the last 100. *)
Lemma run_loop_window (env : Env) :
  forall (fuel i : nat) (m : t TState) (w : W) r m' w',
    run_loop d env fuel i m w = Some (r, m', w') ->
    (length (history m) <= 100)%nat ->
    exists transitions,
      length transitions = (stepCount m' - stepCount m)%nat
      /\ chained (currentState m) transitions (currentState m')
      /\ history m' = window 100 (history m ++ transitions).
Proof.
  induction fuel as [|fuel IH]; intros i m w r m' w' Hrun Hh; [discriminate|].
  cbn [run_loop] in Hrun.
  assert (Hstay : exists transitions,
             length transitions = (stepCount m - stepCount m)%nat
             /\ chained (currentState m) transitions (currentState m)
             /\ history m = window 100 (history m ++ transitions)).
  { exists []. rewrite Nat.sub_diag, app_nil_r, window_all by exact Hh.
    repeat split; reflexivity. }
  destruct (isTerminal (currentState m)); [injection Hrun as <- <- <-; exact Hstay|].
  destruct (isCancelled m); [injection Hrun as <- <- <-; exact Hstay|].
  destruct (checkTerminationConditions d m (now_at env i));
    [injection Hrun as <- <- <-; exact Hstay|].
  destruct (currentState m) as [s|] eqn:Ecur;
    [|injection Hrun as <- <- <-; rewrite Ecur; exact Hstay].
  destruct (transitionHandlers d (status s)) as [handler|];
    [|injection Hrun as <- <- <-; rewrite Ecur; exact Hstay].
  destruct (negb _); [injection Hrun as <- <- <-; rewrite Ecur; exact Hstay|].
  assert (Hd1 : history (deliver_cancel env i m) = history m)
    by (unfold deliver_cancel; destruct (cancel_during env i); reflexivity).
  assert (Hd2 : stepCount (deliver_cancel env i m) = stepCount m)
    by (unfold deliver_cancel; destruct (cancel_during env i); reflexivity).
  assert (Hd3 : currentState (deliver_cancel env i m) = currentState m)
    by (unfold deliver_cancel; destruct (cancel_during env i); reflexivity).
  destruct (executeWithTimeout handler s w) as [[e|nextState] v].
  - injection Hrun as <- <- <-. rewrite Hd1, Hd2, Hd3, Ecur. exact Hstay.
  - pose proof (run_loop_stepCount_mono _ _ _ _ _ _ _ _ Hrun) as Hgrow.
    apply IH in Hrun; cbn [history stepCount currentState] in Hrun, Hgrow |- *.
    + destruct Hrun as (tr & Hlen & Hch & Hhist).
      exists ((State s, nextState) :: tr).
      rewrite Hd1, Hd2, Hd3, Ecur in *.
      split; [cbn [length]; lia|]. split; [cbn [chained]; split; [reflexivity|exact Hch]|].
      rewrite Hhist, recordTransition_window by exact Hh.
      rewrite window_app, <- app_assoc. reflexivity.
    + rewrite Hd1, Hd3, recordTransition_window, length_window by exact Hh. lia.
Qed.

(** X2.  The transition history is the window of the last 100
    transitions: a run records the transitions it makes one after the
    other (each starts in the state the one before ended in, from the
    state the run started in to the state it left the machine in, one
    for every step it counts), and the history afterwards is the last
    100 entries of the history before followed by these. *)
Theorem history_is_last_hundred
    (env : Env) (fuel : nat) (m m' : t TState) (w w' : W)
    (r : run_result (current TState)) :
  run d env fuel m w = Some (r, m', w') ->
  (length (history m) <= 100)%nat ->
  exists transitions,
    length transitions = (stepCount m' - stepCount m)%nat
    /\ chained (currentState m) transitions (currentState m')
    /\ history m' = window 100 (history m ++ transitions)
    /\ length (history m')
       = Nat.min 100 (length (history m) + (stepCount m' - stepCount m)).
Proof.
  intros Hrun Hh. unfold run in Hrun.
  pose proof (run_loop_history _ _ _ _ _ _ _ _ Hrun Hh) as Hlen.
  apply run_loop_window in Hrun; [|exact Hh].
  destruct Hrun as (tr & H1 & H2 & H3). exists tr.
  cbn [history stepCount currentState] in *. repeat split; assumption.
Qed.

(** X3.  A transition whose handler has not settled when the timer
    fires is counted as a step like any other, with the timer's callback
    stored as the state; the next iteration then ends the run with an
    error, which is the cancellation error, a limit error, or
    "No transition handler for state: undefined".  No state is returned
    and no further handler is called. *)
Theorem timed_out_transition_ends_run
    (env : Env) (fuel i : nat) (m : t TState) (w w' : W) (s : TState)
    (handler : TState -> W -> outcome TState * W) :
  currentState m = State s ->
  isTerminal (State s) = false ->
  isCancelled m = false ->
  checkTerminationConditions d m (now_at env i) = None ->
  transitionHandlers d (status s) = Some handler ->
  match validators d (status s) with Some v => v s | None => true end = true ->
  handler s w = (Pending, w') ->
  exists e m',
    run_loop d env (S (S fuel)) i m w = Some (Threw e, m', w')
    /\ stepCount m' = S (stepCount m)
    /\ currentState m' = TimerCallback
    /\ (e = EError ("State machine cancelled: " ++ show_status (cancelReason m'))
        \/ checkTerminationConditions d m' (now_at env (S i)) = Some e
        \/ e = EError "No transition handler for state: undefined").
Proof.
  intros Hcur Hterm Hnc Hcheck Hh Hv Hp.
  cbn [run_loop]. rewrite Hcur, Hterm, Hnc, Hcheck, Hh, Hv. cbn [negb].
  unfold executeWithTimeout. rewrite Hp.
  cbn [isTerminal status_of currentState].
  assert (Hd2 : stepCount (deliver_cancel env i m) = stepCount m)
    by (unfold deliver_cancel; destruct (cancel_during env i); reflexivity).
  destruct (isCancelled (deliver_cancel env i m)) eqn:Ec.
  { eexists _, _. split; [reflexivity|].
    split; [cbn [stepCount]; rewrite Hd2; reflexivity|].
    split; [reflexivity|]. left. reflexivity. }
  match goal with
  | |- context [checkTerminationConditions d ?x ?n] =>
      destruct (checkTerminationConditions d x n) as [e|] eqn:Ek
  end.
  { eexists _, _. split; [reflexivity|].
    split; [cbn [stepCount]; rewrite Hd2; reflexivity|].
    split; [reflexivity|]. right. left. exact Ek. }
  eexists _, _. split; [reflexivity|].
  split; [cbn [stepCount]; rewrite Hd2; reflexivity|].
  split; [reflexivity|]. right. right. reflexivity.
Qed.

End Generic.
End StateMachineMore.

(** ** More on the research agent *)

Module ResearchAgentMore.
Import Js Errors ResearchAgent HandlerSpecs.
Import StateMachine (State, TimerCallback, Returned, Threw, Fulfilled, Rejected,
                     Pending, currentState, stepCount, startTime, isCancelled,
                     start_time, now_at, cancel_during, run_loop, run, run_fuel,
                     remaining, status).

(** *** Rules for [frames] *)

Lemma same_refl (a : StateManager.t) : same_but_lastUpdate a a.
Proof. repeat split; reflexivity. Qed.

Lemma same_trans (a b c : StateManager.t) :
  same_but_lastUpdate a b -> same_but_lastUpdate b c -> same_but_lastUpdate a c.
Proof. intros (H1 & H2 & H3) (H4 & H5 & H6). repeat split; congruence. Qed.

Lemma same_apply_op (sm : StateManager.t) (o : StateManager.op) (t : Z) :
  same_but_lastUpdate sm (snd (StateManager.apply_op sm o t)).
Proof.
  destruct (StateManagerFacts.apply_op_options sm o t) as [Ho Hp].
  split; [|split; [symmetry; exact Ho|symmetry; exact Hp]].
  rewrite StateManagerFacts.apply_op_state.
  destruct (fst (StateManager.apply_op sm o t)); reflexivity.
Qed.

Lemma frames_ret {A : Type} (a : A) : frames (ret a).
Proof. intros w. apply same_refl. Qed.

Lemma frames_throw {A : Type} (e : thrown) : frames (@throw A e).
Proof. intros w. apply same_refl. Qed.

Lemma frames_access (o : option jsval) : frames (access o).
Proof. destruct o; intros w; apply same_refl. Qed.

Lemma frames_get_manager : frames get_manager.
Proof. intros w. apply same_refl. Qed.

Lemma frames_bind {A B : Type} (m : M A) (k : A -> M B) :
  frames m -> (forall a, frames (k a)) -> frames (bind m k).
Proof.
  intros Hm Hk w. unfold bind. specialize (Hm w).
  destruct (m w) as [[a|e|] w']; cbn [snd] in *; try exact Hm.
  eapply same_trans; [exact Hm | apply Hk].
Qed.

Lemma frames_try_catch {A : Type} (m : M A) (h : thrown -> M A) :
  frames m -> (forall e, frames (h e)) -> frames (try_catch m h).
Proof.
  intros Hm Hh w. unfold try_catch. specialize (Hm w).
  destruct (m w) as [[a|e|] w']; cbn [snd] in *; try exact Hm.
  eapply same_trans; [exact Hm | apply Hh].
Qed.

Lemma frames_await {A : Type} (c : Call) (oracle : nat -> reply A)
    (p : Call -> bool) :
  frames (await c oracle p).
Proof. intros w. unfold await. destruct (oracle _); apply same_refl. Qed.

Lemma frames_on_manager (svc : Collaborators) (o : StateManager.op) :
  frames (on_manager svc (fun sm t => StateManager.apply_op sm o t)).
Proof.
  intros w. pose proof (same_apply_op (manager w) o (now svc w)) as Hs.
  unfold on_manager.
  destruct (StateManager.apply_op (manager w) o (now svc w)) as [[e|] sm]; exact Hs.
Qed.

Ltac frames_step :=
  lazymatch goal with
  | |- frames (throw _) => apply frames_throw
  | |- frames (ret _) => apply frames_ret
  | |- frames (access _) => apply frames_access
  | |- frames get_manager => apply frames_get_manager
  | |- frames (await _ _ _) => apply frames_await
  | |- frames (try_catch _ _) => apply frames_try_catch; [|intros ?]
  | |- frames (on_manager _ StateManager.incrementErrorCount) =>
      apply (frames_on_manager _ StateManager.OpIncrementErrorCount)
  | |- frames (on_manager _ StateManager.incrementStep) =>
      apply (frames_on_manager _ StateManager.OpIncrementStep)
  | |- frames (on_manager _ (fun sm t => StateManager.addSearchResults sm ?r t)) =>
      apply (frames_on_manager _ (StateManager.OpAddSearchResults r))
  | |- frames (on_manager _ (fun sm t => StateManager.markUrlVisited sm ?u t)) =>
      apply (frames_on_manager _ (StateManager.OpMarkUrlVisited u))
  | |- frames (on_manager _ (fun sm t => StateManager.addContent sm ?u ?c t)) =>
      apply (frames_on_manager _ (StateManager.OpAddContent u c))
  | |- frames (on_manager _ (fun sm t => StateManager.addKnowledge sm ?q ?a ?k t)) =>
      apply (frames_on_manager _ (StateManager.OpAddKnowledge q a k))
  | |- frames (bind _ _) => apply frames_bind; [|intros ?]
  | |- frames (if ?c then _ else _) => destruct c
  | |- frames (match ?x with _ => _ end) => destruct x
  | |- frames (let x := ?v in _) => cbv zeta
  | |- frames (fun w => ret _ w) => intros ?; apply same_refl
  end.

(** *** Rules for [fails] *)

Lemma fails_ret {A : Type} (a : A) (R : thrown -> Prop) : fails (ret a) R.
Proof. intros w. exact I. Qed.

Lemma fails_throw {A : Type} (e : thrown) (R : thrown -> Prop) :
  R e -> fails (@throw A e) R.
Proof. intros He w. exact He. Qed.

Lemma fails_bind {A B : Type} (m : M A) (k : A -> M B) (R : thrown -> Prop) :
  fails m R -> (forall a, fails (k a) R) -> fails (bind m k) R.
Proof.
  intros Hm Hk w. unfold bind. specialize (Hm w).
  destruct (m w) as [[a|e|] w']; cbn [fst] in *; [apply Hk | exact Hm | exact I].
Qed.

Lemma fails_try_catch {A : Type} (m : M A) (h : thrown -> M A) (R : thrown -> Prop) :
  (forall e, fails (h e) R) -> fails (try_catch m h) R.
Proof.
  intros Hh w. unfold try_catch.
  destruct (m w) as [[a|e|] w']; cbn [fst]; [exact I | apply Hh | exact I].
Qed.

Lemma fails_access (o : option jsval) (R : thrown -> Prop) :
  R ETypeError -> fails (access o) R.
Proof. intros Ht w. destruct o; [exact I | exact Ht]. Qed.

Lemma fails_get_manager (R : thrown -> Prop) : fails get_manager R.
Proof. intros w. exact I. Qed.

(** Counting an error or a step throws nothing but a TypeError. *)
Lemma fails_incrementErrorCount (svc : Collaborators) (R : thrown -> Prop) :
  R ETypeError -> fails (on_manager svc StateManager.incrementErrorCount) R.
Proof.
  intros Ht w. unfold on_manager, StateManager.incrementErrorCount,
    StateManager.update, StateManager.produce, StateManager.incrementErrorCount_updater.
  destruct (StateManager.frozen (manager w)); [exact Ht|exact I].
Qed.

Lemma fails_incrementStep (svc : Collaborators) (R : thrown -> Prop) :
  R ETypeError -> fails (on_manager svc StateManager.incrementStep) R.
Proof.
  intros Ht w. unfold on_manager, StateManager.incrementStep,
    StateManager.update, StateManager.produce, StateManager.incrementStep_updater.
  destruct (StateManager.frozen (manager w)); [exact Ht|exact I].
Qed.

Ltac fails_step :=
  lazymatch goal with
  | |- fails (throw _) _ => apply fails_throw
  | |- fails (ret _) _ => apply fails_ret
  | |- fails (access _) _ => apply fails_access
  | |- fails get_manager _ => apply fails_get_manager
  | |- fails (on_manager _ StateManager.incrementErrorCount) _ =>
      apply fails_incrementErrorCount
  | |- fails (on_manager _ StateManager.incrementStep) _ =>
      apply fails_incrementStep
  | |- fails (try_catch _ _) _ => apply fails_try_catch; intros ?
  | |- fails (bind _ _) _ => apply fails_bind; [|intros ?]
  | |- fails (if ?c then _ else _) _ => destruct c
  | |- fails (match ?x with _ => _ end) _ => destruct x
  | |- fails (let x := ?v in _) _ => cbv zeta
  | |- fails (fun w => ret _ w) _ => intros ?; exact I
  end.

(** *** Rules for [grows] *)

Lemma grows_still {A : Type} (n : nat) (m : M A) :
  (forall w, calls (snd (m w)) = calls w) -> grows n m.
Proof.
  intros Hm w. exists []. rewrite Hm, app_nil_r. split; [reflexivity | cbn; lia].
Qed.

Lemma grows_ret {A : Type} (n : nat) (a : A) : grows n (ret a).
Proof. apply grows_still. reflexivity. Qed.

Lemma grows_throw {A : Type} (n : nat) (e : thrown) : grows n (@throw A e).
Proof. apply grows_still. reflexivity. Qed.

Lemma grows_access (n : nat) (o : option jsval) : grows n (access o).
Proof. apply grows_still. destruct o; reflexivity. Qed.

Lemma grows_get_manager (n : nat) : grows n get_manager.
Proof. apply grows_still. reflexivity. Qed.

Lemma grows_on_manager (svc : Collaborators) (n : nat)
    (f : StateManager.t -> Z -> option thrown * StateManager.t) :
  grows n (on_manager svc f).
Proof. apply grows_still. apply ResearchAgentFacts.on_manager_calls. Qed.

Lemma grows_await {A : Type} (n : nat) (c : Call) (oracle : nat -> reply A)
    (p : Call -> bool) :
  grows (S n) (await c oracle p).
Proof.
  intros w. exists [c]. unfold await.
  destruct (oracle _); cbn [snd calls length]; (split; [reflexivity | lia]).
Qed.

Lemma grows_bind {A B : Type} (a b : nat) (m : M A) (k : A -> M B) :
  grows a m -> (forall x, grows b (k x)) -> grows (a + b) (bind m k).
Proof.
  intros Hm Hk w. unfold bind. destruct (Hm w) as (l1 & E1 & L1).
  destruct (m w) as [[x|e|] w1]; cbn [snd] in *;
    try (exists l1; split; [exact E1 | lia]).
  destruct (Hk x w1) as (l2 & E2 & L2).
  exists (l1 ++ l2)%list. rewrite E2, E1, <- app_assoc, List.length_app.
  split; [reflexivity | lia].
Qed.

Lemma grows_try_catch {A : Type} (a b : nat) (m : M A) (h : thrown -> M A) :
  grows a m -> (forall e, grows b (h e)) -> grows (a + b) (try_catch m h).
Proof.
  intros Hm Hh w. unfold try_catch. destruct (Hm w) as (l1 & E1 & L1).
  destruct (m w) as [[x|e|] w1]; cbn [snd] in *;
    try (exists l1; split; [exact E1 | lia]).
  destruct (Hh e w1) as (l2 & E2 & L2).
  exists (l1 ++ l2)%list. rewrite E2, E1, <- app_assoc, List.length_app.
  split; [reflexivity | lia].
Qed.

Section Agent.
Variable config : AgentConfig.
Variable svc : Collaborators.

Lemma frames_handlers (st : string) (s : AgentState) :
  match handlers config svc st with
  | Some h => frames (h s)
  | None => True
  end.
Proof.
  unfold handlers.
  repeat match goal with
         | |- match (if ?c then _ else _) with _ => _ end => destruct c
         end; try exact I.
  - unfold handleIdle. repeat frames_step.
  - unfold handleInitializing. repeat frames_step.
  - unfold handleSearching, visit_first, first_query, decideNextAction, parseAction.
    repeat frames_step.
  - unfold handleReading, extractKnowledge. repeat frames_step.
  - unfold handleEvaluating, shouldContinueResearch, generateFinalAnswer.
    repeat frames_step.
  - unfold handleReflecting, visit_first, first_query, decideNextAction, parseAction,
      generateFinalAnswer.
    repeat frames_step.
Qed.

(** The handler of a state raises only what [research_error] lists. *)
Lemma fails_handlers (s : AgentState) (h : AgentState -> M AgentState) :
  handlers config svc (StateMachine.status s) = Some h ->
  fails (h s) (research_error svc).
Proof.
  intros Hh.
  destruct s; cbn in Hh; try discriminate; injection Hh as <-.
  - unfold handleIdle. change (negb (isIdle Idle)) with false. cbv beta iota.
    repeat fails_step; constructor.
  - unfold handleInitializing. cbv beta iota. repeat fails_step. constructor.
  - unfold handleSearching. cbv beta iota. repeat fails_step; constructor.
  - unfold handleReading. cbv beta iota zeta. repeat fails_step; constructor.
  - unfold handleEvaluating, shouldContinueResearch, generateFinalAnswer, llm_error.
    cbv beta iota. repeat fails_step; constructor.
  - unfold handleReflecting, visit_first, first_query, decideNextAction,
      generateFinalAnswer, llm_error.
    cbv beta iota. repeat fails_step; constructor.
Qed.

Lemma grows_decideNextAction : grows 1 (decideNextAction svc).
Proof.
  unfold decideNextAction, parseAction.
  apply (grows_bind 0 1); [apply grows_get_manager|intros sm]. cbv zeta.
  apply (grows_try_catch 1 0); [|intros e; apply grows_throw].
  apply (grows_bind 1 0); [apply grows_await|intros content].
  apply (grows_try_catch 0 0); [|intros e; apply grows_throw].
  destruct (match_braces content).
  - destruct (JSON_parse svc s); [apply grows_ret | apply grows_throw].
  - apply (grows_bind 0 0); [apply grows_get_manager|intros ?; apply grows_ret].
Qed.

Lemma grows_generateFinalAnswer : grows 1 (generateFinalAnswer svc).
Proof.
  unfold generateFinalAnswer.
  apply (grows_bind 0 1); [apply grows_get_manager|intros sm]. cbv zeta.
  apply (grows_try_catch 1 0); [|intros e; apply grows_throw].
  apply (grows_bind 1 0); [apply grows_await|intros content; apply grows_ret].
Qed.

Lemma grows_shouldContinueResearch : grows 1 (shouldContinueResearch config svc).
Proof.
  unfold shouldContinueResearch.
  apply (grows_bind 0 1); [apply grows_get_manager|intros sm]. cbv zeta.
  destruct (StateManager.isBudgetExhausted sm); [apply grows_ret|].
  destruct (_ <=? _); [apply grows_ret|].
  apply (grows_try_catch 1 0); [|intros e; apply grows_ret].
  apply (grows_bind 1 0); [apply grows_await|intros content; apply grows_ret].
Qed.

Lemma grows_visit_first (n : nat) (action : jsval) (step : Z) :
  grows n (visit_first action step).
Proof.
  unfold visit_first.
  apply (grows_bind 0 n); [apply grows_access|intros urls].
  apply (grows_bind 0 n); [apply grows_access|intros firstUrl].
  destruct (negb _); [apply grows_throw|].
  apply (grows_bind 0 n); [apply grows_access|intros url; apply grows_ret].
Qed.

Lemma grows_first_query (n : nat) (action fallback : jsval) :
  grows n (first_query action fallback).
Proof.
  unfold first_query.
  apply (grows_bind 0 n); [apply grows_access|intros queries].
  apply (grows_bind 0 n); [apply grows_access|intros q0; apply grows_ret].
Qed.

(** Every handler makes at most two service calls. *)
Lemma grows_handlers (st : string) (s : AgentState) :
  match handlers config svc st with
  | Some h => grows 2 (h s)
  | None => True
  end.
Proof.
  unfold handlers.
  repeat match goal with
         | |- match (if ?c then _ else _) with _ => _ end => destruct c
         end; try exact I.
  - unfold handleIdle. destruct (negb _); [apply grows_throw|].
    apply (grows_bind 0 2); [apply grows_get_manager|intros sm]. cbv zeta.
    destruct (String.eqb _ _); [apply grows_throw|].
    apply grows_still. reflexivity.
  - unfold handleInitializing. destruct s; try apply grows_throw.
    apply (grows_bind 0 2); [apply grows_on_manager|intros ?; apply grows_ret].
  - unfold handleSearching. destruct s; try apply grows_throw.
    apply (grows_try_catch 2 0).
    + apply (grows_bind 1 1); [apply grows_await|intros results]. cbv zeta.
      apply (grows_bind 0 1); [apply grows_on_manager|intros ?].
      apply (grows_bind 1 0); [apply grows_decideNextAction|intros action].
      apply (grows_bind 0 0); [apply grows_access|intros type].
      destruct (is_str type "visit"); [apply grows_visit_first|].
      destruct (is_str type "search").
      { apply (grows_bind 0 0); [apply grows_first_query|intros ?; apply grows_ret]. }
      destruct (is_str type "answer"); [|apply grows_ret].
      apply (grows_bind 0 0); [apply grows_access|intros ?; apply grows_ret].
    + intros e.
      apply (grows_bind 0 0); [apply grows_on_manager|intros ?; apply grows_throw].
  - unfold handleReading. destruct s; try apply grows_throw. cbv zeta.
    apply (grows_try_catch 2 0).
    + apply (grows_bind 1 1); [apply grows_await|intros content].
      apply (grows_bind 0 1); [apply grows_on_manager|intros ?].
      apply (grows_bind 0 1); [apply grows_on_manager|intros ?].
      apply (grows_bind 1 0).
      { unfold extractKnowledge.
        apply (grows_try_catch 1 0); [apply grows_await|intros e; apply grows_throw]. }
      intros knowledge.
      apply (grows_bind 0 0); [apply grows_on_manager|intros ?; apply grows_ret].
    + intros e.
      apply (grows_bind 0 0); [apply grows_on_manager|intros ?; apply grows_throw].
  - unfold handleEvaluating. destruct s; try apply grows_throw.
    apply (grows_bind 1 1); [apply grows_shouldContinueResearch|intros go].
    destruct go; [apply grows_ret|].
    apply (grows_bind 1 0); [apply grows_generateFinalAnswer|intros ?; apply grows_ret].
  - unfold handleReflecting. destruct s; try apply grows_throw.
    apply (grows_bind 1 1); [apply grows_decideNextAction|intros action].
    apply (grows_bind 0 1); [apply grows_access|intros type].
    destruct (is_str type "search").
    { apply (grows_bind 0 1); [apply grows_get_manager|intros sm].
      apply (grows_bind 0 1); [apply grows_first_query|intros ?; apply grows_ret]. }
    destruct (is_str type "visit"); [apply grows_visit_first|].
    destruct (is_str type "answer").
    { apply (grows_bind 0 1); [apply grows_access|intros answer].
      apply (grows_bind 0 1); [apply grows_access|intros ?; apply grows_ret]. }
    apply (grows_bind 1 0); [apply grows_generateFinalAnswer|intros ?; apply grows_ret].
Qed.

(** What [research] does before and after the run: [initialize]
    throws and that is all, or it returns and the machine runs. *)
Lemma research_run (env : StateMachine.Env) (fuel : nat) (agent : ResearchAgent.t)
    (query : string) (w : World) (r : research_result) (agent' : ResearchAgent.t)
    (w' : World) :
  research config svc env fuel agent query w = Some (r, agent', w') ->
  let init := StateManager.initialize (manager w) query (now svc w) in
  let w1 := {| manager := snd init; calls := calls w |} in
  (exists e, fst init = Some e /\ r = Raised e /\ agent' = agent /\ w' = w1)
  \/ (fst init = None
      /\ exists out,
           run (definition config svc) env fuel agent w1 = Some (out, agent', w')).
Proof.
  intros Hr. rewrite ResearchAgentFacts.research_rethrows in Hr. cbv zeta in Hr |- *.
  destruct (fst (StateManager.initialize (manager w) query (now svc w))) as [e|].
  - left. exists e. injection Hr as <- <- <-. repeat split; reflexivity.
  - right. split; [reflexivity|].
    destruct (run _ _ _ _ _) as [[[out a1] w1]|]; [|discriminate].
    exists out. destruct out as [c|e]; injection Hr as _ <- <-; reflexivity.
Qed.

(** A run leaves the manager as it found it, [lastUpdate] apart. *)
Lemma run_keeps_manager (env : StateMachine.Env) (fuel : nat)
    (agent agent' : ResearchAgent.t) (w w' : World)
    (out : StateMachine.run_result (StateMachine.current AgentState)) :
  run (definition config svc) env fuel agent w = Some (out, agent', w') ->
  same_but_lastUpdate (manager w) (manager w').
Proof.
  unfold run. intros Hrun.
  eapply (StateMachineMore.run_loop_steps (definition config svc) env
            (fun _ a b => same_but_lastUpdate (manager a) (manager b)));
    [| | | |exact Hrun].
  - intros; apply same_refl.
  - intros; assumption.
  - intros; eapply same_trans; eassumption.
  - intros s h v Hh. cbn in Hh.
    pose proof (frames_handlers (StateMachine.status s) s) as Hf.
    rewrite Hh in Hf. apply Hf.
Qed.

(** X4.  [research] never changes the research state it was given:
    whatever the services answer and however the run ends, the state
    manager holds afterwards what it held before, its [lastUpdate]
    apart. *)
Theorem research_leaves_manager_unchanged
    (env : StateMachine.Env) (fuel : nat) (agent agent' : ResearchAgent.t)
    (query : string) (w w' : World) (r : research_result) :
  research config svc env fuel agent query w = Some (r, agent', w') ->
  same_but_lastUpdate (manager w) (manager w').
Proof.
  intros Hr.
  pose proof (same_apply_op (manager w) (StateManager.OpInitialize query) (now svc w))
    as Hinit.
  apply research_run in Hr. cbv zeta in Hr.
  destruct Hr as [(e & _ & _ & _ & ->)|(_ & out & Hrun)].
  - exact Hinit.
  - apply run_keeps_manager in Hrun. cbn [manager] in Hrun.
    eapply same_trans; [exact Hinit|exact Hrun].
Qed.

(** A run only adds to the log of service calls, two calls at most for
    every step it has left. *)
Lemma run_adds_calls (env : StateMachine.Env) (fuel : nat)
    (agent agent' : ResearchAgent.t) (w w' : World)
    (out : StateMachine.run_result (StateMachine.current AgentState)) :
  run (definition config svc) env fuel agent w = Some (out, agent', w') ->
  exists added,
    calls w' = (calls w ++ added)%list
    /\ (length added <= 2 * remaining (definition config svc) agent)%nat.
Proof.
  unfold run. intros Hrun.
  apply (StateMachineMore.run_loop_steps (definition config svc) env
           (fun n a b => exists added,
                calls b = (calls a ++ added)%list /\ (length added <= 2 * n)%nat))
    in Hrun.
  - exact Hrun.
  - intros v. exists []. rewrite app_nil_r. split; [reflexivity | cbn; lia].
  - intros n a b (l & E & L). exists l. split; [exact E | lia].
  - intros n a b c (l1 & E1 & L1) (l2 & E2 & L2).
    exists (l1 ++ l2)%list. rewrite E2, E1, <- app_assoc, List.length_app.
    split; [reflexivity | lia].
  - intros s h v Hh. cbn in Hh.
    pose proof (grows_handlers (StateMachine.status s) s) as Hg.
    rewrite Hh in Hg. destruct (Hg v) as (l & E & L).
    exists l. split; [exact E | lia].
Qed.

(** X5.  A run of [research] only adds to the log of service calls, and
    adds at most two calls for every step the machine has left: no more
    than [2 * (maxSteps - stepCount)] searches, page reads and LLM
    requests together. *)
Theorem research_calls_are_bounded
    (env : StateMachine.Env) (fuel : nat) (agent agent' : ResearchAgent.t)
    (query : string) (w w' : World) (r : research_result) :
  research config svc env fuel agent query w = Some (r, agent', w') ->
  exists added,
    calls w' = (calls w ++ added)%list
    /\ (length added <= 2 * remaining (definition config svc) agent)%nat.
Proof.
  intros Hr. apply research_run in Hr. cbv zeta in Hr.
  destruct Hr as [(e & _ & _ & _ & ->)|(_ & out & Hrun)].
  - exists []. cbn [calls]. rewrite app_nil_r. split; [reflexivity|cbn; lia].
  - apply run_adds_calls in Hrun. exact Hrun.
Qed.

End Agent.

(** *** Rules for [wp] *)

Lemma wp_ret {A : Type} (a : A) (Q : A -> World -> Prop) (E : thrown -> World -> Prop)
    (w : World) :
  Q a w -> wp (ret a) Q E w.
Proof. intros H. exact H. Qed.

Lemma wp_throw {A : Type} (e : thrown) (Q : A -> World -> Prop)
    (E : thrown -> World -> Prop) (w : World) :
  E e w -> wp (throw e) Q E w.
Proof. intros H. exact H. Qed.

Lemma wp_bind {A B : Type} (m : M A) (k : A -> M B) (Q : B -> World -> Prop)
    (E : thrown -> World -> Prop) (w : World) :
  wp m (fun a w' => wp (k a) Q E w') E w -> wp (bind m k) Q E w.
Proof.
  unfold wp, bind. destruct (m w) as [[a|e|] w']; intros H; exact H.
Qed.

Lemma wp_try_catch {A : Type} (m : M A) (h : thrown -> M A) (Q : A -> World -> Prop)
    (E : thrown -> World -> Prop) (w : World) :
  wp m Q (fun e w' => wp (h e) Q E w') w -> wp (try_catch m h) Q E w.
Proof.
  unfold wp, try_catch. destruct (m w) as [[a|e|] w']; intros H; exact H.
Qed.

Lemma wp_weaken {A : Type} (m : M A) (Q Q' : A -> World -> Prop)
    (E E' : thrown -> World -> Prop) (w : World) :
  wp m Q E w ->
  (forall a w', Q a w' -> Q' a w') -> (forall e w', E e w' -> E' e w') ->
  wp m Q' E' w.
Proof.
  unfold wp. destruct (m w) as [[a|e|] w']; intros H HQ HE; auto.
Qed.

Lemma wp_get_manager {A : Type} (k : StateManager.t -> M A) (Q : A -> World -> Prop)
    (E : thrown -> World -> Prop) (w : World) :
  wp (k (manager w)) Q E w -> wp (bind get_manager k) Q E w.
Proof. intros H. exact H. Qed.

Lemma wp_access (o : option jsval) (Q : jsval -> World -> Prop)
    (E : thrown -> World -> Prop) (w : World) :
  (forall v, Q v w) -> E ETypeError w -> wp (access o) Q E w.
Proof. intros HQ HE. destruct o; [apply HQ | exact HE]. Qed.

Lemma wp_await {A : Type} (c : Call) (oracle : nat -> reply A) (p : Call -> bool)
    (Q : A -> World -> Prop) (E : thrown -> World -> Prop) (w : World) :
  (forall a, Q a (logged w c)) -> (forall st, E (EExternal st) (logged w c)) ->
  wp (await c oracle p) Q E w.
Proof.
  intros HQ HE. unfold wp, await. destruct (oracle _); [apply HQ | apply HE | exact I].
Qed.

Lemma wp_on_manager (svc : Collaborators)
    (f : StateManager.t -> Z -> option thrown * StateManager.t)
    (Q : unit -> World -> Prop) (E : thrown -> World -> Prop) (w : World) :
  (fst (f (manager w) (now svc w)) = None ->
   Q tt {| manager := snd (f (manager w) (now svc w)); calls := calls w |}) ->
  (forall e, fst (f (manager w) (now svc w)) = Some e ->
             E e {| manager := snd (f (manager w) (now svc w)); calls := calls w |}) ->
  wp (on_manager svc f) Q E w.
Proof.
  intros HQ HE. unfold wp, on_manager.
  destruct (f (manager w) (now svc w)) as [[e|] sm]; cbn [fst snd] in *;
    [apply HE | apply HQ]; reflexivity.
Qed.

(** With the state not frozen, counting an error returns, and the
    catch block goes on to throw. *)
Lemma wp_count_unfrozen {A : Type} (svc : Collaborators) (e0 : thrown)
    (Q : A -> World -> Prop) (E : thrown -> World -> Prop) (w : World) :
  unfrozen w ->
  E e0 {| manager := StateManager.touch (manager w) (now svc w); calls := calls w |} ->
  wp (bind (on_manager svc StateManager.incrementErrorCount) (fun _ => throw e0)) Q E w.
Proof.
  intros Hu He. unfold wp, bind.
  rewrite (ResearchAgentFacts.on_manager_returns svc _ w _
             (StateManagerFacts.incrementErrorCount_returns (manager w) (now svc w) Hu)).
  exact He.
Qed.

Lemma wp_await_resolves {A : Type} (c : Call) (oracle : nat -> reply A)
    (p : Call -> bool) (Q : A -> World -> Prop) (E : thrown -> World -> Prop)
    (w : World) (a : A) :
  oracle (count_calls p w) = Resolves a ->
  Q a (logged w c) -> wp (await c oracle p) Q E w.
Proof. intros Ho HQ. unfold wp, await. rewrite Ho. exact HQ. Qed.

Lemma wp_elim {A : Type} (m : M A) (Q : A -> World -> Prop)
    (E : thrown -> World -> Prop) (w : World) :
  wp m Q E w ->
  (forall a w', m w = (Fulfilled a, w') -> Q a w')
  /\ (forall e w', m w = (Rejected e, w') -> E e w').
Proof.
  unfold wp. intros H. split; intros x w' Hm; rewrite Hm in H; exact H.
Qed.

(** One step of symbolic execution, chosen by the shape of the
    program. *)
Ltac wp_step :=
  cbn beta;
  lazymatch goal with
  | |- wp (ret _) _ _ _ => apply wp_ret
  | |- wp (throw _) _ _ _ => apply wp_throw
  | |- wp (bind get_manager _) _ _ _ => apply wp_get_manager
  | |- wp (bind _ _) _ _ _ => apply wp_bind
  | |- wp (try_catch _ _) _ _ _ => apply wp_try_catch
  | |- wp (access _) _ _ _ => apply wp_access; [intros ?|]
  | |- wp (if ?c then _ else _) _ _ _ => destruct c
  | |- wp (let x := ?v in _) _ _ _ => cbv zeta
  end.

Section Origins.
Variable config : AgentConfig.
Variable svc : Collaborators.

Lemma accounted_other (e : thrown) (w : World) :
  research_error svc e -> e <> ETypeError -> accounted svc e w.
Proof. intros He Hne. split; [exact He|]. intros ->. contradiction. Qed.

(** The catch blocks of the searching and reading handlers. *)
Lemma wp_count_then_throw {A : Type} (e0 : thrown) (Q : A -> World -> Prop)
    (w : World) :
  research_error svc e0 -> e0 <> ETypeError ->
  wp (bind (on_manager svc StateManager.incrementErrorCount) (fun _ => throw e0))
    Q (accounted svc) w.
Proof.
  intros He0 Hne. apply wp_bind, wp_on_manager.
  - intros _. apply wp_throw, accounted_other; assumption.
  - intros e He. apply StateManagerFacts.incrementErrorCount_throws in He as [-> Hf].
    split; [constructor|]. intros _. left. exact Hf.
Qed.

Lemma wp_parseAction (content : string) (w : World) :
  wp (parseAction svc content) (fun _ w' => w' = w) (fun _ w' => w' = w) w.
Proof.
  unfold parseAction. apply wp_try_catch.
  destruct (match_braces content) as [text|].
  - destruct (JSON_parse svc text); [apply wp_ret | apply wp_throw; apply wp_throw];
      reflexivity.
  - apply wp_get_manager, wp_ret. reflexivity.
Qed.

(** The request for the next action leaves the manager alone and is
    the last call made, however it ends. *)
Lemma wp_decideNextAction (w : World) :
  wp (decideNextAction svc)
    (fun _ w' => manager w' = manager w /\ decided_last w')
    (fun e w' => manager w' = manager w
                 /\ exists st, e = ELLM (new_LLMError "Failed to decide next action"
                                           {| provider := llm_name svc;
                                              statusCode := st;
                                              model := Some (llm_model svc) |}))
    w.
Proof.
  unfold decideNextAction. apply wp_get_manager. cbv zeta.
  apply wp_try_catch, wp_bind, wp_await.
  - intros content. eapply wp_weaken; [apply wp_parseAction| |].
    + intros a w' ->. split; [reflexivity|]. eexists _, _. reflexivity.
    + intros e w' ->. apply wp_throw. split; [reflexivity|]. eexists. reflexivity.
  - intros st. apply wp_throw. split; [reflexivity|]. eexists. reflexivity.
Qed.

Lemma wp_generateFinalAnswer (w : World) :
  wp (generateFinalAnswer svc)
    (fun _ w' => manager w' = manager w)
    (fun e w' => exists st, e = ELLM (new_LLMError "Failed to generate final answer"
                                        {| provider := llm_name svc;
                                           statusCode := st;
                                           model := Some (llm_model svc) |}))
    w.
Proof.
  unfold generateFinalAnswer. apply wp_get_manager. cbv zeta.
  apply wp_try_catch, wp_bind, wp_await.
  - intros content. apply wp_ret. reflexivity.
  - intros st. apply wp_throw. eexists. reflexivity.
Qed.

Lemma wp_shouldContinueResearch (w : World) :
  wp (shouldContinueResearch config svc) (fun _ w' => manager w' = manager w)
    (fun _ _ => False) w.
Proof.
  unfold shouldContinueResearch. apply wp_get_manager. cbv zeta.
  destruct (StateManager.isBudgetExhausted (manager w)); [apply wp_ret; reflexivity|].
  destruct (_ <=? _); [apply wp_ret; reflexivity|].
  apply wp_try_catch, wp_bind, wp_await.
  - intros content. apply wp_ret. reflexivity.
  - intros st. apply wp_ret. reflexivity.
Qed.

Ltac account :=
  first [ apply accounted_other; [constructor|discriminate]
        | split; [constructor|intros _; right; assumption] ].

(** What follows a decision: reading the action's fields on the way to
    the next state. *)
Lemma wp_visit_first (action : jsval) (step : Z) (w : World) :
  unfrozen w -> decided_last w ->
  wp (visit_first action step) (fun _ w' => unfrozen w') (accounted svc) w.
Proof.
  intros Hu Hd. unfold visit_first.
  apply wp_bind, wp_access; [intros urls|account].
  apply wp_bind, wp_access; [intros firstUrl|account].
  destruct (negb _); [apply wp_throw; account|].
  apply wp_bind, wp_access; [intros url|account].
  apply wp_ret. exact Hu.
Qed.

Lemma wp_first_query (action fallback : jsval) (w : World) :
  unfrozen w -> decided_last w ->
  wp (first_query action fallback) (fun _ w' => unfrozen w') (accounted svc) w.
Proof.
  intros Hu Hd. unfold first_query.
  apply wp_bind, wp_access; [intros queries|account].
  apply wp_bind, wp_access; [intros q0|account].
  apply wp_ret. exact Hu.
Qed.

Lemma unfrozen_same (w w' : World) :
  manager w' = manager w -> unfrozen w -> unfrozen w'.
Proof. unfold unfrozen. intros ->. auto. Qed.

(** From a world whose manager is not frozen, a handler that fulfils
    leaves the manager not frozen, and one that rejects raises an error
    of the list, a TypeError only under the two circumstances above. *)
Lemma handlers_accounted (s : AgentState) (h : AgentState -> M AgentState) (w : World) :
  handlers config svc (StateMachine.status s) = Some h ->
  unfrozen w ->
  wp (h s) (fun _ w' => unfrozen w') (accounted svc) w.
Proof.
  intros Hh Hu.
  destruct s; cbn in Hh; try discriminate; injection Hh as <-.
  - unfold handleIdle. change (negb (isIdle Idle)) with false. cbv beta iota.
    apply wp_get_manager. cbv zeta.
    destruct (String.eqb _ _); [apply wp_throw; account|]. exact Hu.
  - unfold handleInitializing. cbv beta iota. apply wp_bind, wp_on_manager.
    + intros Hok. apply wp_ret. apply StateManagerFacts.update_frozen. exact Hok.
    + intros e He. apply StateManagerFacts.incrementStep_throws in He as [-> Hf].
      split; [constructor|]. intros _. left. exact Hf.
  - unfold handleSearching. cbv beta iota.
    apply wp_try_catch.
    eapply wp_weaken with (Q := fun _ w' => unfrozen w') (E := fun _ _ => True).
    2:{ auto. }
    2:{ intros e w' _. apply wp_count_then_throw; [constructor|discriminate]. }
    apply wp_bind, wp_await; [intros results|auto]. cbv zeta.
    apply wp_bind, wp_on_manager; [intros Hok|auto].
    apply StateManagerFacts.update_frozen in Hok.
    apply wp_bind.
    eapply wp_weaken; [apply wp_decideNextAction| |auto].
    intros action w' [Hm Hd]. cbn beta in Hm, Hd |- *.
    assert (Hu' : unfrozen w') by (unfold unfrozen; rewrite Hm; exact Hok).
    apply wp_bind, wp_access; [intros type|auto].
    destruct (is_str type "visit").
    { eapply wp_weaken; [apply wp_visit_first; assumption|auto|auto]. }
    destruct (is_str type "search").
    { apply wp_bind. eapply wp_weaken; [apply wp_first_query; assumption| |auto].
      intros q0 w2 Hu2. apply wp_ret. exact Hu2. }
    destruct (is_str type "answer"); [|apply wp_ret; exact Hu'].
    apply wp_bind, wp_access; [intros answer|auto]. apply wp_ret. exact Hu'.
  - unfold handleReading. cbv beta iota zeta.
    apply wp_try_catch.
    eapply wp_weaken with (Q := fun _ w' => unfrozen w') (E := fun _ _ => True).
    2:{ auto. }
    2:{ intros e w' _. apply wp_count_then_throw; [constructor|discriminate]. }
    apply wp_bind, wp_await; [intros text|auto].
    apply wp_bind, wp_on_manager; [intros _|auto].
    apply wp_bind, wp_on_manager; [intros _|auto].
    apply wp_bind. unfold extractKnowledge.
    apply wp_try_catch, wp_await; [intros knowledge|intros st; apply wp_throw; exact I].
    apply wp_bind, wp_on_manager; [intros Hok|auto].
    apply wp_ret. apply StateManagerFacts.update_frozen. exact Hok.
  - unfold handleEvaluating. cbv beta iota.
    apply wp_bind.
    eapply wp_weaken; [apply wp_shouldContinueResearch| |intros ? ? []].
    intros go w' Hm. cbn beta in Hm |- *.
    destruct go; [apply wp_ret; eapply unfrozen_same; eassumption|].
    apply wp_bind.
    eapply wp_weaken; [apply wp_generateFinalAnswer| |].
    + intros a w2 Hm2. cbn beta in Hm2. apply wp_ret. unfold unfrozen.
      rewrite Hm2, Hm. exact Hu.
    + intros e w2 [st ->]. account.
  - unfold handleReflecting. cbv beta iota.
    apply wp_bind.
    eapply wp_weaken; [apply wp_decideNextAction| |].
    2:{ intros e w' [_ [st ->]]. account. }
    intros action w' [Hm Hd]. cbn beta in Hm, Hd |- *.
    assert (Hu' : unfrozen w') by (eapply unfrozen_same; eassumption).
    apply wp_bind, wp_access; [intros type|account].
    destruct (is_str type "search").
    { apply wp_get_manager, wp_bind.
      eapply wp_weaken; [apply wp_first_query; assumption| |auto].
      intros q0 w2 Hu2. apply wp_ret. exact Hu2. }
    destruct (is_str type "visit"); [apply wp_visit_first; assumption|].
    destruct (is_str type "answer").
    { apply wp_bind, wp_access; [intros answer|account].
      apply wp_bind, wp_access; [intros refs|account].
      apply wp_ret. exact Hu'. }
    apply wp_bind.
    eapply wp_weaken; [apply wp_generateFinalAnswer| |].
    + intros a w2 Hm2. cbn beta in Hm2. apply wp_ret. eapply unfrozen_same; eassumption.
    + intros e w2 [st ->]. account.
Qed.

(** X6.  Every error with which [research] ends is one of eleven: the
    machine's cancellation, step-limit and duration-limit errors, the
    error of the iteration after a timed-out transition, the
    "Query not initialized" configuration error, a "Search failed"
    SearchError, a "Failed to read content" ContentError, an LLMError
    for the final answer or for the decision made while reflecting,
    "No URLs to visit" from the reflecting handler, and a TypeError.
    A TypeError is raised in two situations only: with the state of the
    manager left frozen (as by initialize when it assigns nothing, or
    by the counting of an error or a step on a frozen state), or with
    the request for the next action as the last service call (as when
    the reflecting handler reads a field of an action that is not an
    object).  A provider's own error,
    a JSON syntax error, "Failed to parse action", "Failed to extract
    knowledge", "Invalid state" and "Research terminated in
    non-terminal state" never reach the caller. *)
Theorem research_raises_only
    (env : StateMachine.Env) (fuel : nat) (agent agent' : ResearchAgent.t)
    (query : string) (w w' : World) (e : thrown) :
  research config svc env fuel agent query w = Some (Raised e, agent', w') ->
  research_error svc e
  /\ (e = ETypeError ->
      StateManager.frozen (manager w') = true \/ decided_last w').
Proof.
  intros Hr. rewrite ResearchAgentFacts.research_rethrows in Hr. cbv zeta in Hr.
  destruct (fst (StateManager.initialize (manager w) query (now svc w))) as [e0|] eqn:Ei.
  - injection Hr as <- _ <-.
    apply StateManagerFacts.initialize_throws in Ei as [-> Hf].
    split; [constructor|]. intros _. left. exact Hf.
  - destruct (run _ _ _ _ _) as [[[out a1] w1]|] eqn:Hrun; [|discriminate].
    destruct out as [c|e1].
    + apply StateMachineMore.run_loop_returns_terminal in Hrun.
      destruct c as [s|]; [|discriminate Hrun].
      rewrite <- (ResearchAgentFacts.isTerminal_agrees s), Hrun in Hr.
      discriminate Hr.
    + injection Hr as <- <- <-. unfold run in Hrun.
      eapply (StateMachineMore.run_loop_threw_where (definition config svc) env
                unfrozen (accounted svc)); [| | | | | | |exact Hrun].
      * intros reason v. account.
      * intros m t e v Hc. unfold StateMachine.checkTerminationConditions in Hc.
        destruct (_ <=? _); [injection Hc as <-; account|].
        destruct (_ <? _); [injection Hc as <-; account|discriminate].
      * intros v. account.
      * intros s v Ht Hn. destruct s; cbn in Ht, Hn; discriminate.
      * intros s h v Hh Hv. cbn in Hh, Hv.
        destruct s; cbn in Hh, Hv; discriminate.
      * intros s h v Hu Ht Hh. cbn in Hh.
        exact (handlers_accounted s h v Hh Hu).
      * right. unfold unfrozen. cbn [manager].
        apply StateManagerFacts.update_frozen. exact Ei.
Qed.

End Origins.


(** *** The theorems at work *)

(** A session that returns the answer 5; the machine it leaves returns
    that state again under a late clock, cancelled or not. *)
Lemma run_again_returns_same_witness :
  let d := definition Scenarios.default_config
             (Scenarios.services Scenarios.search_ok Scenarios.llm_answers) in
  let w := Scenarios.world_of (Scenarios.manager_holding "q" 0) in
  exists c m' w',
    run d Scenarios.calm 101 (create 0) w = Some (Returned c, m', w')
    /\ c = State (Completed (JStr "5") (FromAction (JArr [])))
    /\ (exists m2, run d (Scenarios.late 999999) 1 m' w = Some (Returned c, m2, w)
                   /\ stepCount m2 = stepCount m'
                   /\ StateMachine.history m2 = StateMachine.history m')
    /\ (exists m2, run d (Scenarios.late 999999) 1 (StateMachine.cancel m' "stop") w
                   = Some (Returned c, m2, w)
                   /\ stepCount m2 = stepCount m').
Proof.
  cbv zeta. eexists _, _, _.
  split; [vm_compute; reflexivity|]. split; [reflexivity|].
  eapply (StateMachineMore.run_again_returns_same
            (definition Scenarios.default_config
               (Scenarios.services Scenarios.search_ok Scenarios.llm_answers))
            Scenarios.calm (Scenarios.late 999999) 101 0 (create 0) _
            (Scenarios.world_of (Scenarios.manager_holding "q" 0))).
  vm_compute. reflexivity.
Defined.

(** Four steps from an empty history leave the four transitions, from
    idle to the third search. *)
Lemma history_is_last_hundred_witness :
  let d := definition Scenarios.short_config
             (Scenarios.services Scenarios.search_ok Scenarios.llm_prose) in
  exists r m' w',
    run d Scenarios.calm 5 (create 0)
      (Scenarios.world_of (Scenarios.manager_holding "q" 0))
    = Some (r, m', w')
    /\ stepCount m' = 4%nat
    /\ exists transitions,
         length transitions = 4%nat
         /\ StateMachine.chained (State Idle) transitions
              (State (Searching 3 (JStr "q")))
         /\ StateMachine.history m' = StateMachine.window 100 transitions.
Proof.
  cbv zeta.
  destruct (run (definition Scenarios.short_config
                   (Scenarios.services Scenarios.search_ok Scenarios.llm_prose))
              Scenarios.calm 5 (create 0)
              (Scenarios.world_of (Scenarios.manager_holding "q" 0)))
    as [[[r m'] w']|] eqn:Hrun; [|vm_compute in Hrun; discriminate Hrun].
  exists r, m', w'. split; [reflexivity|].
  destruct (StateMachineMore.history_is_last_hundred
              (definition Scenarios.short_config
                 (Scenarios.services Scenarios.search_ok Scenarios.llm_prose))
              Scenarios.calm 5 (create 0) m'
              (Scenarios.world_of (Scenarios.manager_holding "q" 0)) w' r Hrun
              ltac:(cbn; lia))
    as (transitions & H1 & H2 & H3 & _).
  vm_compute in Hrun. injection Hrun as <- <- <-.
  split; [reflexivity|].
  exists transitions. split; [exact H1|]. split; [exact H2|exact H3].
Defined.

(** A search provider that never replies: the searching handler is
    still pending at the timeout, and the run ends one iteration later
    with "No transition handler for state: undefined". *)
Lemma timed_out_transition_ends_run_witness :
  let svc := Scenarios.services (fun _ => Never) Scenarios.llm_prose in
  let d := definition Scenarios.default_config svc in
  let w := Scenarios.world_of (Scenarios.manager_holding "q" 0) in
  exists e m' w',
    run_loop d Scenarios.calm 2 0
      (StateMachine.create (Searching 1 (JStr "q")) 0) w
    = Some (Threw e, m', w')
    /\ e = EError "No transition handler for state: undefined"
    /\ stepCount m' = 1%nat
    /\ currentState m' = TimerCallback.
Proof.
  cbv zeta.
  edestruct (StateMachineMore.timed_out_transition_ends_run
               (definition Scenarios.default_config
                  (Scenarios.services (fun _ => Never) Scenarios.llm_prose))
               Scenarios.calm 0 0
               (StateMachine.create (Searching 1 (JStr "q")) 0)
               (Scenarios.world_of (Scenarios.manager_holding "q" 0))
               {| manager := Scenarios.manager_holding "q" 0;
                  calls := [CallSearch (JStr "q")] |}
               (Searching 1 (JStr "q"))
               (handleSearching (Scenarios.services (fun _ => Never) Scenarios.llm_prose)))
    as (e & m' & Hrun & Hsteps & Hcur & _);
    [reflexivity | vm_compute; reflexivity | reflexivity | vm_compute; reflexivity
    |reflexivity | reflexivity | vm_compute; reflexivity|].
  exists e, m', {| manager := Scenarios.manager_holding "q" 0;
                   calls := [CallSearch (JStr "q")] |}.
  split; [exact Hrun|].
  split; [|split; [exact Hsteps | exact Hcur]].
  vm_compute in Hrun. injection Hrun as <- _. reflexivity.
Defined.

(** A session on a manager that holds the query "q" from before: asked
    something else, the agent researches "q", answers 5, and leaves the
    manager as it was. *)
Lemma research_leaves_manager_unchanged_witness :
  let svc := Scenarios.services Scenarios.search_ok Scenarios.llm_answers in
  exists r agent' w',
    research Scenarios.default_config svc Scenarios.calm 101 (create 0) "why"
      (Scenarios.world_of (Scenarios.manager_holding "q" 0))
    = Some (Result r, agent', w')
    /\ r_answer r = JStr "5"
    /\ same_but_lastUpdate (Scenarios.manager_holding "q" 0) (manager w').
Proof.
  cbv zeta. eexists _, _, _.
  split; [vm_compute; reflexivity|]. split; [reflexivity|].
  eapply (research_leaves_manager_unchanged Scenarios.default_config
            (Scenarios.services Scenarios.search_ok Scenarios.llm_answers)
            Scenarios.calm 101 (create 0) _ "why"
            (Scenarios.world_of (Scenarios.manager_holding "q" 0))).
  vm_compute. reflexivity.
Defined.

(** With four steps allowed, the same manager and an LLM that only
    replies with prose, the session makes four service calls, within the
    bound of eight. *)
Lemma research_calls_are_bounded_witness :
  let svc := Scenarios.services Scenarios.search_ok Scenarios.llm_prose in
  exists r agent' w' added,
    research Scenarios.short_config svc Scenarios.calm 5 (create 0) "why"
      (Scenarios.world_of (Scenarios.manager_holding "q" 0))
    = Some (r, agent', w')
    /\ calls w' = added
    /\ map Scenarios.kind added = ["search"; "decide"; "search"; "decide"]
    /\ (length added <= 8)%nat.
Proof.
  cbv zeta.
  destruct (research_calls_are_bounded Scenarios.short_config
              (Scenarios.services Scenarios.search_ok Scenarios.llm_prose)
              Scenarios.calm 5 (create 0) _ "why"
              (Scenarios.world_of (Scenarios.manager_holding "q" 0)) _ _
              ltac:(vm_compute; reflexivity))
    as (added & Hcalls & Hlen).
  eexists _, _, _, added.
  split; [vm_compute; reflexivity|]. split; [exact Hcalls|].
  split; [|exact Hlen].
  unfold Scenarios.world_of in Hcalls. cbn [calls app] in Hcalls.
  rewrite <- Hcalls. reflexivity.
Defined.

(** On a new manager, [research] with the empty query raises a
    TypeError from initialize, which leaves the state frozen; with any
    other query it raises "Query not initialized". *)
Lemma research_raises_only_witness :
  let svc := Scenarios.services Scenarios.search_ok Scenarios.llm_prose in
  exists agent' w',
    research Scenarios.short_config svc Scenarios.calm 5 (create 0) ""
      (Scenarios.world_of Scenarios.fresh_manager)
    = Some (Raised ETypeError, agent', w')
    /\ research_error svc ETypeError
    /\ StateManager.frozen (manager w') = true.
Proof.
  cbv zeta. eexists _, _.
  split; [vm_compute; reflexivity|].
  destruct (research_raises_only Scenarios.short_config
              (Scenarios.services Scenarios.search_ok Scenarios.llm_prose)
              Scenarios.calm 5 (create 0) _ ""
              (Scenarios.world_of Scenarios.fresh_manager) _ ETypeError
              ltac:(vm_compute; reflexivity)) as [H1 _].
  split; [exact H1|reflexivity].
Defined.

End ResearchAgentMore.

(** ** What each handler does with the replies it gets *)

Module HandlerTables.
Import Js Errors ResearchAgent HandlerSpecs ResearchAgentMore.
Import StateMachine (State, TimerCallback, Returned, Threw, Fulfilled, Rejected,
                     Pending, currentState, stepCount, startTime, isCancelled,
                     start_time, now_at, cancel_during, run_loop, run, run_fuel,
                     remaining, status).

Lemma try_catch_rejected {A : Type} (m : M A) (h : thrown -> M A) (w w' : World)
    (e : thrown) :
  try_catch m h w = (Rejected e, w') ->
  exists e0 w0, m w = (Rejected e0, w0) /\ h e0 w0 = (Rejected e, w').
Proof.
  unfold try_catch. destruct (m w) as [[a|e0|] w0]; intros Hr; try discriminate Hr.
  exists e0, w0. split; [reflexivity | exact Hr].
Qed.

Lemma bind_await_resolves {A B : Type} (c : Call) (oracle : nat -> reply A)
    (p : Call -> bool) (k : A -> M B) (w : World) (a : A) :
  oracle (count_calls p w) = Resolves a ->
  bind (await c oracle p) k w
  = k a {| manager := manager w; calls := (calls w ++ [c])%list |}.
Proof. intros Ho. unfold bind, await. rewrite Ho. reflexivity. Qed.

(** Case analysis on the reply a handler is waiting for. *)
Ltac destruct_reply :=
  match goal with
  | |- context [match ?g with Resolves _ => _ | Rejects _ => _ | Never => _ end] =>
      destruct g
  end.

Section Agent.
Variable config : AgentConfig.
Variable svc : Collaborators.

(** The action [parseAction] makes up for a reply without an object. *)
Lemma decideNextAction_prose (content : string) (v : World) :
  generate svc (count_calls is_generate v) = Resolves content ->
  match_braces content = None ->
  fst (decideNextAction svc v)
  = Fulfilled (JObj [("type", JStr "search");
                     ("think", JStr content);
                     ("queries",
                      JArr [JObj [("query", JStr (StateManager.getQuery (manager v)));
                                  ("priority", JStr "high")]])]).
Proof.
  intros Hg Hm. unfold decideNextAction, bind, get_manager, try_catch, await.
  cbn [manager]. rewrite Hg. unfold parseAction, try_catch. rewrite Hm.
  reflexivity.
Qed.

(** X7.  A reply of the LLM that holds no JSON object (no opening brace
    followed by a closing one) is taken as a request to search again,
    for the query the state manager holds: from the searching state
    (the state of the manager not being frozen) the agent searches that
    query at the next step (the query it had just searched only if the
    manager holds none), and from the reflecting state likewise. *)
Theorem prose_reply_searches_the_held_query
    (step : Z) (q : jsval) (feedback : string) (v : World)
    (results : list ProviderResult) (content : string) :
  StateManager.frozen (manager v) = false ->
  search svc (count_calls is_search v) = Resolves results ->
  generate svc (count_calls is_generate v) = Resolves content ->
  match_braces content = None ->
  fst (handleSearching svc (Searching step q) v)
  = Fulfilled (Searching (step + 1)
                 (if String.eqb (StateManager.getQuery (manager v)) ""
                  then q else JStr (StateManager.getQuery (manager v))))
  /\ fst (handleReflecting svc (Reflecting step feedback) v)
     = Fulfilled (Searching (step + 1) (JStr (StateManager.getQuery (manager v)))).
Proof.
  intros Hf Hs Hg Hm. split.
  - unfold handleSearching, try_catch. rewrite (bind_await_resolves _ _ _ _ _ _ Hs).
    unfold bind at 1.
    erewrite ResearchAgentFacts.on_manager_returns
      by (apply StateManagerFacts.addSearchResults_returns; exact Hf).
    set (v2 := {| manager := _; calls := calls _ |}).
    assert (Hg2 : generate svc (count_calls is_generate v2) = Resolves content).
    { unfold v2. cbn [calls]. rewrite ResearchAgentFacts.count_calls_app.
      cbn [is_generate]. rewrite Nat.add_0_r. exact Hg. }
    pose proof (decideNextAction_prose content v2 Hg2 Hm) as Hd.
    assert (Hq : StateManager.getQuery (manager v2) = StateManager.getQuery (manager v))
      by reflexivity.
    rewrite Hq in Hd. clearbody v2.
    unfold bind at 1.
    destruct (decideNextAction svc v2) as [[x|e|] v3]; cbn [fst] in Hd;
      try discriminate Hd.
    injection Hd as ->.
    unfold first_query, bind, access, ret, or_else.
    cbn [get_prop field String.eqb Ascii.eqb Bool.eqb is_str get_index0 List.hd
         get_prop_opt truthy fst].
    destruct (String.eqb (StateManager.getQuery (manager v)) ""); reflexivity.
  - pose proof (decideNextAction_prose content v Hg Hm) as Hd.
    unfold handleReflecting, bind at 1.
    destruct (decideNextAction svc v) as [[x|e|] v3] eqn:Ed; cbn [fst] in Hd;
      try discriminate Hd.
    injection Hd as ->.
    assert (Hv3 : manager v3 = manager v).
    { unfold decideNextAction, bind, get_manager, try_catch, await in Ed.
      cbn [manager] in Ed. rewrite Hg in Ed. unfold parseAction, try_catch in Ed.
      rewrite Hm in Ed. cbn in Ed. injection Ed as <-. reflexivity. }
    unfold first_query, bind, access, ret, or_else, get_manager.
    cbn [get_prop field String.eqb Ascii.eqb Bool.eqb is_str get_index0 List.hd
         get_prop_opt truthy fst].
    rewrite Hv3.
    destruct (String.eqb (StateManager.getQuery (manager v)) ""); reflexivity.
Qed.

(** X8.  When the search itself succeeded and the searching handler
    still fails (the LLM is down or rate limited, its reply does not
    parse, the action is malformed), the caller gets the same
    "Search failed" SearchError as for a failed search, without a status
    code, whatever status the LLM's error carried; such an error is
    marked retryable.  (The state of the manager is taken not to be
    frozen: on a frozen state the handler raises a TypeError.) *)
Theorem failure_after_search_hides_its_status
    (step : Z) (q : jsval) (v v' : World) (results : list ProviderResult)
    (e : thrown) :
  StateManager.frozen (manager v) = false ->
  search svc (count_calls is_search v) = Resolves results ->
  handleSearching svc (Searching step q) v = (Rejected e, v') ->
  exists se,
    e = ESearch se
    /\ se = new_SearchError "Search failed"
              {| search_provider := "search";
                 search_statusCode := None;
                 search_query := Some q |}
    /\ search_retryable se = true.
Proof.
  intros Hf Hs Hr.
  assert (Hwp : wp (handleSearching svc (Searching step q))
                  (fun _ _ => True)
                  (fun e _ => e = ESearch (new_SearchError "Search failed"
                                             {| search_provider := "search";
                                                search_statusCode := None;
                                                search_query := Some q |}))
                  v).
  { unfold handleSearching. apply wp_try_catch.
    apply wp_weaken with (Q := fun _ _ => True)
                         (E := fun e0 w0 => status_of e0 = None /\ unfrozen w0);
      [|auto|].
    2:{ intros e0 w0 [He0 Hu]. apply wp_count_unfrozen; [exact Hu|].
        rewrite He0. reflexivity. }
    apply wp_bind. eapply wp_await_resolves; [exact Hs|]. cbv zeta.
    apply wp_bind, wp_on_manager.
    2:{ intros e0 He0. cbn [logged manager] in He0.
        rewrite (StateManagerFacts.addSearchResults_returns _ _ _ Hf) in He0.
        discriminate He0. }
    intros Hok. apply StateManagerFacts.update_frozen in Hok.
    apply wp_bind.
    eapply wp_weaken; [apply wp_decideNextAction| |].
    2:{ intros e0 w0 [Hm0 [st ->]]. split; [reflexivity|].
        unfold unfrozen. rewrite Hm0. exact Hok. }
    intros action w0 [Hm0 _]. cbn beta in Hm0 |- *.
    assert (Hu0 : unfrozen w0) by (unfold unfrozen; rewrite Hm0; exact Hok).
    apply wp_bind, wp_access; [intros type|split; [reflexivity|exact Hu0]].
    unfold visit_first, first_query.
    repeat wp_step; try exact I; (split; [reflexivity|exact Hu0]). }
  apply wp_elim in Hwp as [_ Hrej]. specialize (Hrej e v' Hr). subst e.
  eexists. split; [reflexivity|]. split; reflexivity.
Qed.

(** X9.  From the evaluating state the agent goes on to reflect in one
    case only: the budget is not exhausted, fewer than [maxBadAttempts]
    errors are on record, and the LLM replies to the question whether the
    research is complete with a text that does not contain "yes" in any
    letter case.  In every other case in which the handler hands back a
    state, that state is a completed one carrying the text of a
    final-answer request and the manager's references. *)
Theorem evaluating_continues_iff (step : Z) (answer : jsval) (v : World) :
  (fst (handleEvaluating config svc (Evaluating step answer) v)
   = Fulfilled (Reflecting step "Evaluating progress")
   <-> StateManager.isBudgetExhausted (manager v) = false
       /\ StateManager.errorCount (StateManager.getMetrics (manager v))
          < maxBadAttempts config
       /\ exists content,
            generate svc (count_calls is_generate v) = Resolves content
            /\ JsString.includes (JsString.toLowerCase content) "yes" = false)
  /\ (forall s',
        fst (handleEvaluating config svc (Evaluating step answer) v) = Fulfilled s' ->
        s' = Reflecting step "Evaluating progress"
        \/ exists text,
             s' = Completed (JStr text)
                    (FromManager (StateManager.getReferences (manager v) 10))).
Proof.
  unfold handleEvaluating, shouldContinueResearch, generateFinalAnswer, bind,
    get_manager, try_catch, await, ret, throw.
  cbn [manager fst snd].
  destruct (StateManager.isBudgetExhausted (manager v)) eqn:Eb.
  { split.
    - split; [|intros (Hx & _); discriminate Hx].
      destruct_reply; cbn [fst]; intros Hx; discriminate Hx.
    - intros s'. destruct_reply; cbn [fst]; intros Hx;
        try discriminate Hx.
      injection Hx as <-. right. eexists. reflexivity. }
  destruct (maxBadAttempts config
            <=? StateManager.errorCount (StateManager.getMetrics (manager v))) eqn:Ec.
  { apply Z.leb_le in Ec. split.
    - split; [|intros (_ & Hx & _); lia].
      destruct_reply; cbn [fst]; intros Hx; discriminate Hx.
    - intros s'. destruct_reply; cbn [fst]; intros Hx;
        try discriminate Hx.
      injection Hx as <-. right. eexists. reflexivity. }
  apply Z.leb_gt in Ec.
  destruct (generate svc (count_calls is_generate v)) as [content|st|] eqn:Eg;
    cbn [fst snd manager].
  - destruct (JsString.includes (JsString.toLowerCase content) "yes") eqn:Ey;
      cbn [negb fst snd manager].
    + split.
      * split.
        -- destruct_reply; cbn [fst]; intros Hx; discriminate Hx.
        -- intros (_ & _ & c & Hc & Hn). injection Hc as <-. congruence.
      * intros s'. destruct_reply; cbn [fst]; intros Hx;
          try discriminate Hx.
        injection Hx as <-. right. eexists. reflexivity.
    + split.
      * split; [intros _|reflexivity].
        split; [reflexivity|]. split; [exact Ec|]. exists content. split; auto.
      * intros s' Hx. injection Hx as <-. left. reflexivity.
  - split.
    + split.
      * destruct_reply; cbn [fst]; intros Hx; discriminate Hx.
      * intros (_ & _ & c & Hc & _). discriminate Hc.
    + intros s'. destruct_reply; cbn [fst]; intros Hx;
        try discriminate Hx.
      injection Hx as <-. right. eexists. reflexivity.
  - split.
    + split; [intros Hx; discriminate Hx|].
      intros (_ & _ & c & Hc & _). discriminate Hc.
    + intros s' Hx. discriminate Hx.
Qed.

(** What [decideNextAction] leaves behind: one more call on the log. *)
Lemma decideNextAction_world (v : World) :
  snd (decideNextAction svc v)
  = {| manager := manager v;
       calls := (calls v
                 ++ [CallGenerate (Decide (StateManager.getContext (manager v)))])%list |}.
Proof.
  unfold decideNextAction, bind, get_manager, try_catch, await, parseAction, try_catch,
    bind, get_manager, ret, throw.
  cbn [manager].
  destruct (generate svc (count_calls is_generate v)) as [content|st|]; try reflexivity.
  destruct (match_braces content) as [text|]; [|reflexivity].
  destruct (JSON_parse svc text); reflexivity.
Qed.

(** [generateFinalAnswer] by the reply it gets. *)
Lemma generateFinalAnswer_reply (v : World) :
  fst (generateFinalAnswer svc v)
  = match generate svc (count_calls is_generate v) with
    | Resolves final => Fulfilled (final, StateManager.getReferences (manager v) 10)
    | Rejects st =>
        Rejected (ELLM (new_LLMError "Failed to generate final answer"
                          {| provider := llm_name svc;
                             statusCode := st;
                             model := Some (llm_model svc) |}))
    | Never => Pending
    end.
Proof.
  unfold generateFinalAnswer, bind, get_manager, try_catch, await, ret, throw, llm_error.
  cbn [manager].
  destruct (generate svc (count_calls is_generate v)); reflexivity.
Qed.

(** X10.  An action of any type other than "visit", "search" and
    "answer" (the "reflect" and "coding" actions of the action types
    among them, and an object without a type) is not carried out.  In
    the searching state it only advances the step, with the same query
    to be searched again; in the reflecting state it ends the research:
    the final answer is requested and the agent completes with the
    reply, or raises the LLMError of that request.  (The state of the
    manager is taken not to be frozen, which matters to the searching
    handler only.) *)
Theorem other_actions_are_not_carried_out
    (step : Z) (q : jsval) (feedback : string) (v : World)
    (results : list ProviderResult) (content text : string)
    (fields : list (string * jsval)) :
  StateManager.frozen (manager v) = false ->
  search svc (count_calls is_search v) = Resolves results ->
  generate svc (count_calls is_generate v) = Resolves content ->
  match_braces content = Some text ->
  JSON_parse svc text = Some (JObj fields) ->
  is_str (field "type" fields) "visit" = false ->
  is_str (field "type" fields) "search" = false ->
  is_str (field "type" fields) "answer" = false ->
  fst (handleSearching svc (Searching step q) v) = Fulfilled (Searching (step + 1) q)
  /\ fst (handleReflecting svc (Reflecting step feedback) v)
     = match generate svc (S (count_calls is_generate v)) with
       | Resolves final =>
           Fulfilled (Completed (JStr final)
                        (FromManager (StateManager.getReferences (manager v) 10)))
       | Rejects st =>
           Rejected (ELLM (new_LLMError "Failed to generate final answer"
                             {| provider := llm_name svc;
                                statusCode := st;
                                model := Some (llm_model svc) |}))
       | Never => Pending
       end.
Proof.
  intros Hfz Hs Hg Hm Hp Hv Hsr Ha. split.
  - unfold handleSearching, try_catch. rewrite (bind_await_resolves _ _ _ _ _ _ Hs).
    unfold bind at 1.
    erewrite ResearchAgentFacts.on_manager_returns
      by (apply StateManagerFacts.addSearchResults_returns; exact Hfz).
    set (v2 := {| manager := _; calls := calls _ |}).
    assert (Hg2 : generate svc (count_calls is_generate v2) = Resolves content).
    { unfold v2. cbn [calls]. rewrite ResearchAgentFacts.count_calls_app.
      cbn [is_generate]. rewrite Nat.add_0_r. exact Hg. }
    pose proof (ResearchAgentFacts.decideNextAction_object svc content text
                  (JObj fields) v2 Hg2 Hm Hp) as Hd.
    clearbody v2. unfold bind at 1.
    destruct (decideNextAction svc v2) as [[x|e|] v3]; cbn [fst] in Hd;
      try discriminate Hd.
    injection Hd as ->.
    unfold bind, access, ret. cbn [get_prop]. rewrite Hv, Hsr, Ha. reflexivity.
  - pose proof (ResearchAgentFacts.decideNextAction_object svc content text
                  (JObj fields) v Hg Hm Hp) as Hd.
    pose proof (decideNextAction_world v) as Hw.
    unfold handleReflecting, bind at 1.
    destruct (decideNextAction svc v) as [[x|e|] v3]; cbn [fst snd] in Hd, Hw;
      try discriminate Hd.
    injection Hd as ->. subst v3.
    unfold bind at 1. unfold access, ret. cbn [get_prop]. rewrite Hsr, Hv, Ha.
    unfold bind.
    pose proof (generateFinalAnswer_reply
                  {| manager := manager v;
                     calls := (calls v
                               ++ [CallGenerate
                                     (Decide (StateManager.getContext (manager v)))])%list |})
      as Hf.
    rewrite ResearchAgentFacts.count_calls_app in Hf. cbn [is_generate manager] in Hf.
    rewrite Nat.add_1_r in Hf.
    destruct (generateFinalAnswer svc _) as [[fa|e|] v4]; cbn [fst] in Hf |- *;
      destruct (generate svc (S (count_calls is_generate v))); try discriminate Hf.
    + injection Hf as ->. reflexivity.
    + injection Hf as ->. reflexivity.
    + reflexivity.
Qed.

(** X11.  A result that [research] returns reports the query and the
    metrics the state manager held before the call (the query passed to
    [research] is not what it reports), the step count of the machine,
    and the time from the start of the run to the reading of the clock
    after it. *)
Theorem result_reports_the_held_query
    (env : StateMachine.Env) (fuel : nat) (agent agent' : ResearchAgent.t)
    (query : string) (w w' : World) (r : ResearchResult) :
  research config svc env fuel agent query w = Some (Result r, agent', w') ->
  r_query r = StateManager.getQuery (manager w)
  /\ r_metrics r = StateManager.getMetrics (manager w)
  /\ r_steps r = stepCount agent'
  /\ r_duration r = now svc w' - start_time env.
Proof.
  intros Hr.
  assert (Hsame : same_but_lastUpdate (manager w) (manager w')).
  { pose proof (same_apply_op (manager w) (StateManager.OpInitialize query)
                  (now svc w)) as Hinit.
    destruct (research_run config svc _ _ _ _ _ _ _ _ Hr)
      as [(e & _ & He & _)|(_ & out & Hrun)]; [discriminate He|].
    apply run_keeps_manager in Hrun. cbn [manager] in Hrun.
    eapply same_trans; [exact Hinit|exact Hrun]. }
  destruct Hsame as [Hstate _].
  assert (Hq : StateManager.getQuery (manager w') = StateManager.getQuery (manager w))
    by (unfold StateManager.getQuery;
        change (StateManager.query (StateManager.state (manager w')))
          with (StateManager.query
                  (StateManager.with_lastUpdate (StateManager.state (manager w')) 0));
        rewrite <- Hstate; reflexivity).
  assert (Hmt : StateManager.getMetrics (manager w') = StateManager.getMetrics (manager w))
    by (unfold StateManager.getMetrics;
        change (StateManager.metrics (StateManager.state (manager w')))
          with (StateManager.metrics
                  (StateManager.with_lastUpdate (StateManager.state (manager w')) 0));
        rewrite <- Hstate; reflexivity).
  rewrite ResearchAgentFacts.research_rethrows in Hr. cbv zeta in Hr.
  destruct (fst (StateManager.initialize (manager w) query (now svc w)));
    [discriminate Hr|].
  destruct (run _ _ _ _ _) as [[[out a1] w1]|] eqn:Hrun; [|discriminate].
  destruct out as [[s|]|e]; try discriminate Hr.
  destruct (ResearchAgent.isTerminal s); [|discriminate].
  injection Hr as <- <- <-.
  unfold run in Hrun. apply StateMachineMore.run_loop_startTime in Hrun.
  cbn [startTime] in Hrun. rewrite Hrun, <- Hq, <- Hmt.
  destruct s; repeat split; reflexivity.
Qed.

(** X12.  No sequence of state-manager calls prepares a manager for
    research.  On a manager made by the constructor and then put
    through any operations, [research] from a new agent does not get
    past the idle state: it raises a TypeError from initialize when the
    query is empty or the operations have left the state frozen, and
    otherwise "Query not initialized" at its first transition, as long
    as that transition is reached (the first check passes).  No service
    is called, no step is counted and the agent stays idle. *)
Theorem no_session_prepares_a_manager
    (env : StateMachine.Env) (fuel : nat) (t0 t1 : Z)
    (immer : StateManager.accessor_write)
    (opts : StateManager.StateManagerOptions)
    (os : list (StateManager.op * Z)) (query : string) (cs : list Call) :
  0 < maxSteps config ->
  now_at env 0 - start_time env <= maxDuration config ->
  let sm := StateManager.apply_ops (StateManager.create immer opts t1) os in
  exists agent' w',
    research config svc env (S fuel) (create t0) query {| manager := sm; calls := cs |}
    = Some (Raised (if StateManager.frozen sm || String.eqb query ""
                    then ETypeError
                    else EConfiguration "Query not initialized"), agent', w')
    /\ calls w' = cs
    /\ stepCount agent' = 0%nat
    /\ currentState agent' = State Idle.
Proof.
  intros Hsteps Hclock sm.
  pose proof (StateManagerFacts.apply_ops_frame os (StateManager.create immer opts t1))
    as Hf.
  cbv zeta in Hf. destruct Hf as (Hq & Hst & _). fold sm in Hq, Hst.
  cbn [StateManager.create StateManager.state StateManager.query StateManager.step]
    in Hq, Hst.
  destruct (StateManager.frozen sm || String.eqb query "") eqn:Ecase.
  - unfold research.
    unfold StateManager.initialize, StateManager.update, StateManager.produce,
      StateManager.initialize_updater.
    cbn [manager]. rewrite Hq, Hst.
    apply orb_true_iff in Ecase. destruct Ecase as [Efz|Eq].
    + rewrite Efz. destruct (String.eqb query "" && (0 =? 0));
        eexists _, _; (split; [reflexivity|repeat split; reflexivity]).
    + rewrite Eq. cbn [andb Z.eqb].
      eexists _, _. split; [reflexivity|repeat split; reflexivity].
  - apply orb_false_iff in Ecase as [Efz Eq]. apply String.eqb_neq in Eq.
    destruct (ResearchAgentFacts.research_without_query config svc env fuel t0 query
                {| manager := sm; calls := cs |} Hq Efz Eq Hsteps Hclock)
      as (agent' & Hres & Hcur & Hn).
    eexists _, _. split; [exact Hres|]. repeat split; assumption.
Qed.

End Agent.

(** *** The theorems at work *)

(** The LLM replies "hello": the agent, which had searched "other",
    searches the manager's "q" next. *)
Lemma prose_reply_searches_the_held_query_witness :
  let svc := Scenarios.services Scenarios.search_ok Scenarios.llm_prose in
  let v := Scenarios.world_of (Scenarios.manager_holding "q" 0) in
  fst (handleSearching svc (Searching 1 (JStr "other")) v)
  = Fulfilled (Searching 2 (JStr "q"))
  /\ fst (handleReflecting svc (Reflecting 1 "Evaluating progress") v)
     = Fulfilled (Searching 2 (JStr "q")).
Proof.
  cbv zeta.
  exact (prose_reply_searches_the_held_query
           (Scenarios.services Scenarios.search_ok Scenarios.llm_prose)
           1 (JStr "other") "Evaluating progress"
           (Scenarios.world_of (Scenarios.manager_holding "q" 0))
           [] "hello" eq_refl eq_refl eq_refl eq_refl).
Defined.

(** The search succeeds and the LLM is rate limited (429): the caller
    gets a SearchError without a status. *)
Lemma failure_after_search_hides_its_status_witness :
  let svc := Scenarios.services Scenarios.search_ok (fun _ => Rejects (Some 429)) in
  let v := Scenarios.world_of (Scenarios.manager_holding "q" 0) in
  exists e v',
    handleSearching svc (Searching 1 (JStr "q")) v = (Rejected e, v')
    /\ exists se,
         e = ESearch se
         /\ se = new_SearchError "Search failed"
                   {| search_provider := "search";
                      search_statusCode := None;
                      search_query := Some (JStr "q") |}
         /\ search_retryable se = true.
Proof.
  cbv zeta. eexists _, _. split; [vm_compute; reflexivity|].
  eapply (failure_after_search_hides_its_status
            (Scenarios.services Scenarios.search_ok (fun _ => Rejects (Some 429)))
            1 (JStr "q") (Scenarios.world_of (Scenarios.manager_holding "q" 0)) _ []).
  - reflexivity.
  - reflexivity.
  - vm_compute. reflexivity.
Defined.

(** The LLM replies with an empty object: while searching the step
    advances, while reflecting the research completes with the reply to
    the final-answer request. *)
Lemma other_actions_are_not_carried_out_witness :
  let svc := Scenarios.services Scenarios.search_ok (fun _ => Resolves "{}") in
  let v := Scenarios.world_of (Scenarios.manager_holding "q" 0) in
  fst (handleSearching svc (Searching 1 (JStr "q")) v)
  = Fulfilled (Searching 2 (JStr "q"))
  /\ fst (handleReflecting svc (Reflecting 1 "Evaluating progress") v)
     = Fulfilled (Completed (JStr "{}") (FromManager [])).
Proof.
  cbv zeta.
  exact (other_actions_are_not_carried_out
           (Scenarios.services Scenarios.search_ok (fun _ => Resolves "{}"))
           1 (JStr "q") "Evaluating progress"
           (Scenarios.world_of (Scenarios.manager_holding "q" 0))
           [] "{}" "{}" [] eq_refl eq_refl eq_refl eq_refl eq_refl eq_refl eq_refl
           eq_refl).
Defined.

(** Asked "another question" on a manager that holds "q", the agent
    reports "q". *)
Lemma result_reports_the_held_query_witness :
  let svc := Scenarios.services Scenarios.search_ok Scenarios.llm_answers in
  exists r agent' w',
    research Scenarios.default_config svc Scenarios.calm 101 (create 0)
      "another question" (Scenarios.world_of (Scenarios.manager_holding "q" 0))
    = Some (Result r, agent', w')
    /\ r_query r = "q"
    /\ r_steps r = stepCount agent'.
Proof.
  cbv zeta. eexists _, _, _. split; [vm_compute; reflexivity|].
  destruct (result_reports_the_held_query Scenarios.default_config
              (Scenarios.services Scenarios.search_ok Scenarios.llm_answers)
              Scenarios.calm 101 (create 0) _ "another question"
              (Scenarios.world_of (Scenarios.manager_holding "q" 0)) _ _
              ltac:(vm_compute; reflexivity))
    as (Hq & _ & Hs & _).
  split; [exact Hq | exact Hs].
Defined.

(** A new manager after initialize("q") and trackTokenUsage(5), which
    both return: [research "q"] raises "Query not initialized".  After
    a markUrlVisited of a URL it does not know, which throws and
    freezes the state, [research "q"] raises a TypeError. *)
Lemma no_session_prepares_a_manager_witness :
  let svc := Scenarios.services Scenarios.search_ok Scenarios.llm_answers in
  let started :=
    StateManager.apply_ops (StateManager.create Scenarios.immer (Scenarios.cli_options 1000) 0)
      [(StateManager.OpInitialize "q", 1); (StateManager.OpTrackTokenUsage 5, 2)] in
  let frozen :=
    StateManager.apply_ops (StateManager.create Scenarios.immer (Scenarios.cli_options 1000) 0)
      [(StateManager.OpMarkUrlVisited "https://example.org", 1)] in
  (exists agent' w',
      research Scenarios.default_config svc Scenarios.calm 101 (create 0) "q"
        {| manager := started; calls := [] |}
      = Some (Raised (EConfiguration "Query not initialized"), agent', w')
      /\ calls w' = []
      /\ stepCount agent' = 0%nat
      /\ currentState agent' = State Idle)
  /\ (exists agent' w',
         research Scenarios.default_config svc Scenarios.calm 101 (create 0) "q"
           {| manager := frozen; calls := [] |}
         = Some (Raised ETypeError, agent', w')
         /\ calls w' = []
         /\ stepCount agent' = 0%nat
         /\ currentState agent' = State Idle).
Proof.
  cbv zeta. split.
  - apply (no_session_prepares_a_manager Scenarios.default_config
             (Scenarios.services Scenarios.search_ok Scenarios.llm_answers)
             Scenarios.calm 100 0 0 Scenarios.immer (Scenarios.cli_options 1000)
             [(StateManager.OpInitialize "q", 1); (StateManager.OpTrackTokenUsage 5, 2)]
             "q" []).
    + reflexivity.
    + cbn. lia.
  - apply (no_session_prepares_a_manager Scenarios.default_config
             (Scenarios.services Scenarios.search_ok Scenarios.llm_answers)
             Scenarios.calm 100 0 0 Scenarios.immer (Scenarios.cli_options 1000)
             [(StateManager.OpMarkUrlVisited "https://example.org", 1)]
             "q" []).
    + reflexivity.
    + cbn. lia.
Defined.

End HandlerTables.

(** ** The updaters and the readers of the state *)

Module StateManagerMore.
Import StateManager JsObject JsStringMore.

Lemma urls_with_metrics (d : ResearchState) (m : ResearchMetrics) :
  urls (with_metrics d m) = urls d.
Proof. reflexivity. Qed.

(** The loop of the addSearchResults updater, one URL at a time. *)
Lemma fold_keeps_first (results : list SearchResult) :
  Forall (fun r => inherited_name (sr_url r) = false) results ->
  forall (d : ResearchState) (u : string),
    urls (fold_left
            (fun acc result =>
               if truthy_at (urls acc) (sr_url result) then acc
               else with_urls acc (<[sr_url result := result]> (urls acc)))
            results d) !! u
    = match urls d !! u with
      | Some r => Some r
      | None => List.find (fun r => String.eqb (sr_url r) u) results
      end.
Proof.
  induction results as [|r rs IH]; intros Hin d u; cbn [fold_left List.find].
  - destruct (urls d !! u); reflexivity.
  - apply Forall_cons in Hin as [Hr Hrs]. rewrite (IH Hrs).
    rewrite (JsObjectFacts.truthy_at_own _ _ Hr).
    destruct (urls d !! sr_url r) as [old|] eqn:Eold.
    + destruct (urls d !! u) as [x|] eqn:Eu; [reflexivity|].
      destruct (String.eqb (sr_url r) u) eqn:E; [|reflexivity].
      apply String.eqb_eq in E. congruence.
    + cbn [urls with_urls].
      destruct (String.eqb (sr_url r) u) eqn:E.
      * apply String.eqb_eq in E. subst u.
        rewrite JsObjectFacts.lookup_insert_eq, Eold. reflexivity.
      * apply String.eqb_neq in E.
        rewrite JsObjectFacts.lookup_insert_ne by exact E. reflexivity.
Qed.

Lemma fold_keeps_rest (results : list SearchResult) :
  forall d : ResearchState,
    with_urls
      (fold_left
         (fun acc result =>
            if truthy_at (urls acc) (sr_url result) then acc
            else with_urls acc (<[sr_url result := result]> (urls acc)))
         results d)
      (urls d)
    = d.
Proof.
  induction results as [|r rs IH]; intros d; cbn [fold_left].
  - destruct d; reflexivity.
  - destruct (truthy_at (urls d) (sr_url r)).
    + apply IH.
    + specialize (IH (with_urls d (<[sr_url r := r]> (urls d)))).
      cbn [urls with_urls] in IH.
      match type of IH with
      | with_urls ?x _ = _ => destruct x eqn:Ex
      end.
      cbn [with_urls query step startTime lastUpdate budget knowledge urls content
           metrics] in *.
      destruct d. cbn [with_urls query step startTime lastUpdate budget knowledge urls
                       content metrics] in *.
      injection IH as -> -> -> -> -> -> -> ->. reflexivity.
Qed.

(** X13.  The addSearchResults updater never overwrites a URL record:
    a URL the draft already knows keeps its record (and its visited
    flag), and of several results with the same new URL the first is the
    one stored.  Whatever the results, even none, the search count goes
    up by one and nothing but [urls] and the metrics changes.  (For
    results whose URL is not a name every object inherits, such as
    [constructor].) *)
Theorem addSearchResults_first_record_wins
    (results : list SearchResult) (d : ResearchState) (u : string) :
  Forall (fun r => inherited_name (sr_url r) = false) results ->
  urls (addSearchResults_recipe results d) !! u
  = match urls d !! u with
    | Some r => Some r
    | None => List.find (fun r => String.eqb (sr_url r) u) results
    end
  /\ searchCount (metrics (addSearchResults_recipe results d))
     = searchCount (metrics d) + 1
  /\ with_metrics (with_urls (addSearchResults_recipe results d) (urls d)) (metrics d)
     = d.
Proof.
  intros Hin. unfold addSearchResults_recipe. cbv zeta.
  rewrite urls_with_metrics, (fold_keeps_first results Hin).
  split; [reflexivity|].
  pose proof (fold_keeps_rest results d) as Hrest.
  match type of Hrest with
  | with_urls ?x _ = _ => set (d1 := x) in *
  end.
  clearbody d1.
  assert (Hm : metrics d1 = metrics d)
    by (transitivity (metrics (with_urls d1 (urls d)));
        [reflexivity | rewrite Hrest; reflexivity]).
  split.
  - cbn [metrics with_metrics searchCount]. rewrite Hm. reflexivity.
  - rewrite <- Hrest. destruct d1; reflexivity.
Qed.

(** X14.  For a URL that is not a name every object inherits (such as
    [constructor] or [__proto__]), the markUrlVisited updater sets the
    visited flag of the one URL it is given and changes nothing else:
    every other record, and every field of the state but [urls], stays
    as it was, and marking twice is the same as marking once.  A URL the
    draft does not know is not added: the updater then assigns nothing,
    so that the mutator throws a TypeError and leaves the state
    frozen. *)
Theorem markUrlVisited_sets_one_flag (url : string) (d : ResearchState) :
  inherited_name url = false ->
  (forall k,
      urls (markUrlVisited_recipe url d) !! k
      = if String.eqb k url then visited <$> urls d !! url else urls d !! k)
  /\ markUrlVisited_recipe url (markUrlVisited_recipe url d)
     = markUrlVisited_recipe url d
  /\ with_urls (markUrlVisited_recipe url d) (urls d) = d
  /\ (urls d !! url = None ->
      markUrlVisited_recipe url d = d
      /\ forall sm now,
          state sm = d ->
          markUrlVisited sm url now = (Some Errors.ETypeError, freeze sm)).
Proof.
  intros Hin. unfold markUrlVisited_recipe.
  destruct (urls d !! url) as [r|] eqn:Er.
  - split; [|split; [|split]].
    + intros k. cbn [urls with_urls fmap option_fmap option_map].
      destruct (String.eqb k url) eqn:E.
      * apply String.eqb_eq in E. subst k.
        rewrite JsObjectFacts.lookup_insert_eq. reflexivity.
      * apply String.eqb_neq in E.
        rewrite JsObjectFacts.lookup_insert_ne by congruence.
        reflexivity.
    + cbn [urls with_urls]. rewrite JsObjectFacts.lookup_insert_eq.
      unfold with_urls. cbn [urls query step startTime lastUpdate budget knowledge
                             content metrics sr_url sr_title sr_snippet sr_relevance].
      rewrite JsObjectFacts.insert_insert_eq. reflexivity.
    + destruct d; reflexivity.
    + intros Hx. discriminate Hx.
  - split; [|split; [|split]].
    + intros k. destruct (String.eqb k url) eqn:E; [|reflexivity].
      apply String.eqb_eq in E. subst k. rewrite Er. reflexivity.
    + rewrite Er. reflexivity.
    + destruct d; reflexivity.
    + intros _. split; [reflexivity|]. intros sm now Hsm.
      unfold markUrlVisited, update, produce, markUrlVisited_updater.
      rewrite Hsm, (JsObjectFacts.truthy_at_own _ _ Hin), Er. reflexivity.
Qed.

Lemma arr_slice_0 {A : Type} (l : list A) (e : Z) :
  arr_slice l 0 e = take (Z.to_nat (JsString.clamp (Z.of_nat (length l)) e)) l.
Proof.
  unfold arr_slice. cbv zeta. rewrite clamp_0 by lia.
  rewrite Z.sub_0_r. reflexivity.
Qed.

Lemma len_quote (c : WebContent) :
  JsString.len (ref_quote (reference_of c))
  = Z.min 200 (JsString.len (wc_content c)) + 3.
Proof.
  cbn [reference_of ref_quote].
  rewrite JsStringFacts.len_append. change (JsString.len "...") with 3.
  f_equal.
  pose proof (JsStringFacts.len_nonneg (wc_content c)) as Hn.
  destruct (Z_le_gt_dec 200 (JsString.len (wc_content c))) as [Hge|Hlt].
  - rewrite JsStringFacts.len_slice0_exact by lia. lia.
  - rewrite slice_0_all by lia. lia.
Qed.

(** X15.  [getReferences(limit)] returns the references of the first
    [limit] records of [Object.values(content)], in that order (a
    negative limit counts from the end, as [slice] does): the records
    whose URL is an array index come first, and when no URL is one the
    order is that in which the URLs were first stored.  There are never
    more references than records.  Each reference carries the record's
    URL and the first 200 characters of its text followed by three dots,
    so a quote has at most 203 characters and ends in dots even when the
    text was shorter. *)
Theorem getReferences_first_records (sm : StateManager.t) (limit : Z) :
  let records := JsObject.values (content (state sm)) in
  let n := Z.to_nat (JsString.clamp (Z.of_nat (length records)) limit) in
  getReferences sm limit = reference_of <$> take n records
  /\ (Forall (fun k => array_index k = None) (keys (content (state sm))) ->
      records = (own (content (state sm))).*2)
  /\ length records = length (keys (content (state sm)))
  /\ length (getReferences sm limit) = n
  /\ (0 <= limit -> (length (getReferences sm limit) <= Z.to_nat limit)%nat)
  /\ (length (getReferences sm limit) <= length (keys (content (state sm))))%nat
  /\ Forall
       (fun r =>
          exists k c,
            (k, c) ∈ own (content (state sm))
            /\ r = reference_of c
            /\ ref_url r = wc_url c
            /\ ref_quote r = JsString.slice (wc_content c) 0 200 ++ "..."
            /\ JsString.len (ref_quote r) = Z.min 200 (JsString.len (wc_content c)) + 3)
       (getReferences sm limit).
Proof.
  cbv zeta. unfold JsObject.values.
  assert (Hrefs : getReferences sm limit
                  = reference_of
                      <$> take (Z.to_nat
                                  (JsString.clamp
                                     (Z.of_nat (length ((entries (content (state sm))).*2)))
                                     limit))
                            ((entries (content (state sm))).*2))
    by (unfold getReferences, Object_entries; rewrite arr_slice_0; reflexivity).
  set (records := (entries (content (state sm))).*2) in *.
  assert (Hn : length records = length (keys (content (state sm))))
    by (unfold records; rewrite length_fmap; apply JsObjectFacts.length_entries).
  pose proof (clamp_range (Z.of_nat (length records)) limit ltac:(lia)) as Hc.
  assert (Hlen : length (getReferences sm limit)
                 = Z.to_nat (JsString.clamp (Z.of_nat (length records)) limit))
    by (rewrite Hrefs, length_fmap, length_take; lia).
  split; [exact Hrefs|].
  split; [intros Hk; unfold records;
          rewrite (JsObjectFacts.entries_in_creation_order _ Hk); reflexivity|].
  split; [exact Hn|]. split; [exact Hlen|]. rewrite Hlen.
  split; [|split; [lia|]].
  - intros Hl. unfold JsString.clamp.
    destruct (limit <? 0) eqn:E; [apply Z.ltb_lt in E; lia|]. lia.
  - rewrite Hrefs. apply Forall_forall. intros r Hr.
    apply list_elem_of_fmap in Hr as (c & -> & Hc2).
    apply elem_of_take in Hc2 as (i & Hi & _).
    apply list_lookup_fmap_Some in Hi as ([k c'] & -> & Hkc).
    apply list_elem_of_lookup_2 in Hkc.
    rewrite (JsObjectFacts.entries_perm (content (state sm))) in Hkc.
    exists k, c'. cbn [snd].
    split; [exact Hkc|]. split; [reflexivity|]. split; [reflexivity|].
    split; [reflexivity|]. apply len_quote.
Qed.


(** Once the state is frozen an operation throws and changes nothing. *)
Lemma apply_op_on_frozen (sm : StateManager.t) (o : op) (now : Z) :
  frozen sm = true ->
  fst (apply_op sm o now) <> None /\ snd (apply_op sm o now) = sm.
Proof.
  intros Hf. rewrite StateManagerFacts.apply_op_update.
  rewrite (StateManagerFacts.update_on_frozen _ _ _ Hf). cbn [fst snd].
  split; [discriminate | reflexivity].
Qed.

(** X17.  On a manager made by the constructor with a positive token
    budget, the readers answer after any session (any sequence of the
    mutators, whether they return or throw) what they answer on a new
    manager: the budget is never reported exhausted, not even after
    trackTokenUsage of the whole budget; no tokens are in use; the query
    is empty; the metrics are zero; and there are no references, no
    knowledge and no visited URLs to show.  Once an operation has left
    the state frozen, every later one throws and changes nothing. *)
Theorem constructed_manager_reads_as_new
    (immer : accessor_write) (opts : StateManagerOptions) (t0 : Z)
    (os : list (op * Z)) (limit : Z) :
  0 < tokenBudget opts ->
  let sm := apply_ops (create immer opts t0) os in
  isBudgetExhausted sm = false
  /\ getUsedTokens sm = 0
  /\ getQuery sm = ""
  /\ getMetrics sm = {| searchCount := 0; visitCount := 0;
                        evaluationCount := 0; errorCount := 0 |}
  /\ getReferences sm limit = []
  /\ ctx_knowledge (getContext sm) = []
  /\ ctx_visitedUrls (getContext sm) = []
  /\ (frozen sm = true ->
      forall o now,
        fst (apply_op sm o now) <> None /\ snd (apply_op sm o now) = sm).
Proof.
  intros Hb sm.
  destruct (StateManagerFacts.apply_ops_frame os (create immer opts t0))
    as (Hq & _ & Hbu & Hk & _ & Hc & Hm & _).
  fold sm in Hq, Hbu, Hk, Hc, Hm. cbn [create state query budget knowledge content metrics]
    in Hq, Hbu, Hk, Hc, Hm.
  unfold isBudgetExhausted, getUsedTokens, getQuery, getMetrics, getReferences,
    getContext, Object_entries.
  cbn [ctx_knowledge ctx_visitedUrls].
  rewrite Hq, Hbu, Hk, Hc, Hm. cbn [total used].
  split; [apply Z.leb_gt; lia|].
  do 3 (split; [reflexivity|]).
  split; [rewrite arr_slice_0; cbn [fmap list_fmap];
          change (entries (∅ : JsObject.t WebContent)) with (@nil (string * WebContent));
          cbn [fmap list_fmap]; rewrite take_nil; reflexivity|].
  do 2 (split; [reflexivity|]).
  intros Hf o now. exact (apply_op_on_frozen sm o now Hf).
Qed.

(** *** The theorems at work *)

(** Two results for the same new URL: the first is the one kept. *)
Lemma addSearchResults_first_record_wins_witness :
  let first := {| sr_url := "http://a"; sr_title := "first"; sr_snippet := "";
                  sr_relevance := "0.5"; sr_visited := false |} in
  let second := {| sr_url := "http://a"; sr_title := "second"; sr_snippet := "";
                   sr_relevance := "0.9"; sr_visited := false |} in
  let d := state Scenarios.fresh_manager in
  urls (addSearchResults_recipe [first; second] d) !! "http://a" = Some first
  /\ searchCount (metrics (addSearchResults_recipe [first; second] d)) = 1.
Proof.
  cbv zeta.
  destruct (addSearchResults_first_record_wins
              [{| sr_url := "http://a"; sr_title := "first"; sr_snippet := "";
                  sr_relevance := "0.5"; sr_visited := false |};
               {| sr_url := "http://a"; sr_title := "second"; sr_snippet := "";
                  sr_relevance := "0.9"; sr_visited := false |}]
              (state Scenarios.fresh_manager) "http://a"
              ltac:(repeat constructor))
    as (H1 & H2 & _).
  split; [rewrite H1; reflexivity | rewrite H2; reflexivity].
Defined.

(** A draft that knows one URL: marking it sets its flag; marking an
    unknown URL changes nothing, and the call throws. *)
Lemma markUrlVisited_sets_one_flag_witness :
  let r := {| sr_url := "http://a"; sr_title := "a"; sr_snippet := "";
              sr_relevance := "0.5"; sr_visited := false |} in
  let d := addSearchResults_recipe [r] (state Scenarios.fresh_manager) in
  urls (markUrlVisited_recipe "http://a" d) !! "http://a" = Some (visited r)
  /\ markUrlVisited_recipe "http://b" d = d
  /\ markUrlVisited Scenarios.fresh_manager "http://b" 5
     = (Some Errors.ETypeError, freeze Scenarios.fresh_manager).
Proof.
  cbv zeta.
  destruct (markUrlVisited_sets_one_flag "http://a"
              (addSearchResults_recipe
                 [{| sr_url := "http://a"; sr_title := "a"; sr_snippet := "";
                     sr_relevance := "0.5"; sr_visited := false |}]
                 (state Scenarios.fresh_manager))
              eq_refl)
    as (H1 & _).
  destruct (markUrlVisited_sets_one_flag "http://b"
              (addSearchResults_recipe
                 [{| sr_url := "http://a"; sr_title := "a"; sr_snippet := "";
                     sr_relevance := "0.5"; sr_visited := false |}]
                 (state Scenarios.fresh_manager))
              eq_refl)
    as (_ & _ & _ & H4).
  destruct (markUrlVisited_sets_one_flag "http://b" (state Scenarios.fresh_manager)
              eq_refl)
    as (_ & _ & _ & H5).
  split; [rewrite H1; reflexivity|].
  split; [apply H4; reflexivity|].
  apply (proj2 (H5 eq_refl)). reflexivity.
Defined.

(** Three pages read, one of them under a key that is an array index:
    [Object.values] lists that one first, and two references are those
    of the first two records. *)
Lemma getReferences_first_records_witness :
  let d := addContent_recipe "7" "seven" 3
             (addContent_recipe "http://a" "page a" 2
                (addContent_recipe "http://b" "page b" 1
                   (state Scenarios.fresh_manager))) in
  let sm := Scenarios.manager_with d (Scenarios.cli_options 1000) in
  getReferences sm 2
  = [ {| ref_url := "7"; ref_quote := "seven..." |};
      {| ref_url := "http://b"; ref_quote := "page b..." |} ]
  /\ (length (getReferences sm 2) <= Z.to_nat 2)%nat.
Proof.
  cbv zeta.
  destruct (getReferences_first_records
              (Scenarios.manager_with
                 (addContent_recipe "7" "seven" 3
                    (addContent_recipe "http://a" "page a" 2
                       (addContent_recipe "http://b" "page b" 1
                          (state Scenarios.fresh_manager))))
                 (Scenarios.cli_options 1000))
              2)
    as (H1 & _ & _ & _ & H5 & _).
  split; [rewrite H1; reflexivity | apply H5; lia].
Defined.


(** The CLI's manager after the whole budget was reported as used. *)
Lemma constructed_manager_reads_as_new_witness :
  let sm := apply_ops (create Scenarios.immer (Scenarios.cli_options 1000) 0)
              [(OpInitialize "q", 1); (OpTrackTokenUsage 1000, 2);
               (OpTrackTokenUsage 0, 3)] in
  isBudgetExhausted sm = false /\ getUsedTokens sm = 0 /\ getQuery sm = ""
  /\ fst (apply_op sm (OpInitialize "q") 4) <> None.
Proof.
  cbv zeta.
  destruct (constructed_manager_reads_as_new Scenarios.immer
              (Scenarios.cli_options 1000) 0
              [(OpInitialize "q", 1); (OpTrackTokenUsage 1000, 2);
               (OpTrackTokenUsage 0, 3)] 10
              ltac:(cbn; lia))
    as (H1 & H2 & H3 & _ & _ & _ & _ & H8).
  split; [exact H1 | split; [exact H2 | split; [exact H3|]]].
  apply (H8 eq_refl).
Defined.

End StateManagerMore.

(** ** More on the error classes *)

Module ErrorsMore.
Import Errors AgentErrors.

(** X18.  A SearchError is retryable exactly when it has no status
    code, the status code 0, or one of 500 and above.  Unlike an
    LLMError it is not retryable on a rate limit: with status 429 the
    LLMError is retryable and the SearchError is not. *)
Theorem SearchError_retryable_iff (message : string) (context : SearchContext) :
  (search_retryable (new_SearchError message context) = true
   <-> search_statusCode context = None
       \/ search_statusCode context = Some 0
       \/ exists c, search_statusCode context = Some c /\ 500 <= c)
  /\ (forall (m : string) (l : LLMContext),
        search_statusCode context = Some 429 ->
        statusCode l = Some 429 ->
        search_retryable (new_SearchError message context) = false
        /\ llm_retryable (new_LLMError m l) = true).
Proof.
  unfold new_SearchError, new_LLMError.
  cbn [search_retryable llm_retryable search_context llm_context].
  split.
  - destruct (search_statusCode context) as [c|]; cbn [num_truthy num_ge negb orb].
    + destruct (c =? 0) eqn:E0; cbn [negb orb].
      * apply Z.eqb_eq in E0. subst c. split; [intros _; right; left; reflexivity|].
        reflexivity.
      * apply Z.eqb_neq in E0. split.
        -- intros H. apply Z.leb_le in H. right. right. exists c. split; [reflexivity|lia].
        -- intros [H|[H|(c' & H & Hc)]]; try discriminate H.
           ++ injection H as ->. lia.
           ++ injection H as ->. apply Z.leb_le. exact Hc.
    + split; [intros _; left; reflexivity | reflexivity].
  - intros m l Hs Hl. rewrite Hs, Hl. split; reflexivity.
Qed.

(** X19.  [toAgentError] hands an AgentError back as it is, so applying
    it twice is the same as applying it once; anything else (another
    Error, a string, any other value) becomes an LLMError of provider
    "unknown" that carries the error's message or the value's text and is
    always marked retryable, whatever went wrong. *)
Theorem toAgentError_classifies (error : unknown) :
  toAgentError (UAgentError (toAgentError error)) = toAgentError error
  /\ (forall e, toAgentError (UAgentError e) = e)
  /\ ((forall e, error <> UAgentError e) ->
      code (toAgentError error) = "LLM_ERROR"
      /\ isRetryable (toAgentError error) = true
      /\ isNonRetryable (toAgentError error) = false
      /\ message (toAgentError error)
         = match error with
           | UError m => m
           | UValue v => Js.to_string v
           | UAgentError e => message e
           end).
Proof.
  split; [reflexivity|]. split; [reflexivity|].
  intros Hforeign. destruct error as [e|m|v].
  - exfalso. apply (Hforeign e). reflexivity.
  - repeat split; reflexivity.
  - destruct v; repeat split; reflexivity.
Qed.

(** X20.  Only LLM, search and content errors can be retryable:
    configuration, validation, timeout, budget, max-steps and
    state-machine errors never are.  A ContentError is retryable exactly
    when it was built without an original error or the original error's
    message contains ECONNREFUSED, ETIMEDOUT or ENOTFOUND; so the
    ContentError the reading handler builds from the web reader's
    "Content read timeout" or from a failed knowledge extraction is not
    retryable. *)
Theorem retryable_errors (e : AgentError) :
  (isRetryable e = true ->
   code e = "LLM_ERROR" \/ code e = "SEARCH_ERROR" \/ code e = "CONTENT_ERROR")
  /\ isNonRetryable e = negb (isRetryable e)
  /\ (forall message url originalError,
        content_retryable (new_ContentError message url originalError) = true
        <-> originalError = None
            \/ exists m, originalError = Some m
                         /\ (JsString.includes m "ECONNREFUSED" = true
                             \/ JsString.includes m "ETIMEDOUT" = true
                             \/ JsString.includes m "ENOTFOUND" = true))
  /\ (forall url,
        content_retryable
          (new_ContentError "Failed to read content" url (Some "Content read timeout"))
        = false
        /\ content_retryable
             (new_ContentError "Failed to read content" url
                (Some "Failed to extract knowledge"))
           = false).
Proof.
  split; [|split; [reflexivity|split]].
  - destruct e as [m|m|l|s|c|m|m|m|m]; cbn [isRetryable retryable code];
      try (intros Hx; discriminate Hx); intros _; auto.
  - intros message url originalError. unfold new_ContentError.
    cbn [content_retryable]. destruct originalError as [m|].
    + rewrite !orb_true_iff. split.
      * intros H. right. exists m. split; [reflexivity|]. tauto.
      * intros [H|(m' & H & Hm)]; [discriminate H|]. injection H as <-. tauto.
    + split; [intros _; left; reflexivity | reflexivity].
  - intros url. split; vm_compute; reflexivity.
Qed.

End ErrorsMore.

(** ** More on the content reader *)

Module ContentReaderMore.
Import JsString JsStringFacts JsStringMore ContentReader.

(** X21.  What [truncateContent] returns for content longer than
    [maxLength] is always a cut of the content followed by three dots:
    the kept part is a prefix of the content, shorter than [maxLength]
    when that is positive, and when the first [maxLength] characters
    hold a space the cut is made at the last of them: those characters
    are the kept part, a space, and a rest in which [indexOf] finds no
    space, so that no word is cut in two. *)
Theorem truncateContent_is_a_cut (content : string) (maxLength : Z) :
  maxLength < len content ->
  exists kept,
    truncateContent content maxLength = kept ++ "..."
    /\ String.prefix kept content = true
    /\ (0 < maxLength -> len kept < maxLength)
    /\ (0 <= lastIndexOf (slice content 0 maxLength) " "%char ->
        String.prefix (kept ++ " ") content = true
        /\ exists rest,
            slice content 0 maxLength = kept ++ String " "%char rest
            /\ indexOf rest " "%char = -1).
Proof.
  intros Hlong. unfold truncateContent.
  destruct (len content <=? maxLength) eqn:E; [apply Z.leb_le in E; lia|].
  set (truncated := slice content 0 maxLength).
  set (lastSpace := lastIndexOf truncated " "%char).
  exists (slice truncated 0 lastSpace).
  split; [reflexivity|].
  assert (Htp : String.prefix truncated content = true)
    by (unfold truncated; rewrite slice_0; apply substring_0_prefix).
  split; [|split].
  - eapply prefix_trans; [|exact Htp]. rewrite slice_0. apply substring_0_prefix.
  - intros Hpos.
    assert (Ht : len truncated = maxLength)
      by (apply len_slice0_exact; lia).
    pose proof (lastIndexOf_range truncated " "%char) as [Hlo Hhi].
    fold lastSpace in Hlo, Hhi.
    destruct (Z.eq_dec lastSpace (-1)) as [Hm|Hm].
    + rewrite Hm, len_slice0_minus1. lia.
    + pose proof (len_slice0_le truncated lastSpace). lia.
  - intros Hsp.
    pose proof (lastIndexOf_range truncated " "%char) as [Hlo Hhi].
    fold lastSpace in Hlo, Hhi, Hsp.
    split; [eapply prefix_trans; [|exact Htp] | ].
    2:{ destruct (lastIndexOf_from_split truncated " "%char 0 ltac:(lia) Hsp)
          as (rest & Hr & Hno).
        fold (lastIndexOf truncated " "%char) in Hr. fold lastSpace in Hr.
        rewrite Z.sub_0_r in Hr.
        exists rest. split; [|exact Hno].
        rewrite slice_0.
        replace (clamp (len truncated) lastSpace) with lastSpace
          by (unfold clamp; destruct (lastSpace <? 0) eqn:En;
              [apply Z.ltb_lt in En; lia | lia]).
        exact Hr. }
    pose proof (lastIndexOf_from_char truncated " "%char 0 ltac:(lia) Hsp) as Hc.
    fold (lastIndexOf truncated " "%char) in Hc. fold lastSpace in Hc.
    rewrite Z.sub_0_r in Hc.
    rewrite slice_0.
    replace (clamp (len truncated) lastSpace) with lastSpace
      by (unfold clamp; destruct (lastSpace <? 0) eqn:En;
          [apply Z.ltb_lt in En; lia | lia]).
    rewrite <- (substring_0_snoc truncated _ _ Hc).
    apply substring_0_prefix.
Qed.

(** Four words cut at 16: the cut is made at the third space, the last
    among the first sixteen characters. *)
Lemma truncateContent_is_a_cut_witness :
  exists kept,
    truncateContent "one two three four" 16 = kept ++ "..."
    /\ kept = "one two three"
    /\ exists rest,
        slice "one two three four" 0 16 = kept ++ String " "%char rest
        /\ indexOf rest " "%char = -1.
Proof.
  destruct (truncateContent_is_a_cut "one two three four" 16
              ltac:(vm_compute; reflexivity))
    as (kept & Heq & _ & _ & Hsp).
  exists kept. split; [exact Heq|].
  assert (Hk : kept = "one two three").
  { assert (H : forall a b : string, a ++ "..." = b ++ "..." -> a = b).
    { induction a as [|x a IH]; intros [|y b] Hab.
      - reflexivity.
      - exfalso. cbn in Hab. injection Hab as -> Hab.
        destruct b as [|? [|? [|? ?]]]; cbn in Hab; discriminate Hab.
      - exfalso. cbn in Hab. injection Hab as -> Hab.
        destruct a as [|? [|? [|? ?]]]; cbn in Hab; discriminate Hab.
      - cbn in Hab. injection Hab as -> Hab. f_equal. apply IH. exact Hab. }
    apply H. rewrite <- Heq. reflexivity. }
  split; [exact Hk|].
  apply Hsp. vm_compute. discriminate.
Defined.

End ContentReaderMore.

(** ** Counting words *)

Module WordCountFacts.
Import JsString JsStringFacts ContentText.

Lemma append_nonempty (cur : string) (a : ascii) :
  (0 <? len (cur ++ String a EmptyString)) = true.
Proof.
  rewrite len_append. pose proof (len_nonneg cur) as H.
  change (len (String a "")) with 1. apply Z.ltb_lt. lia.
Qed.

(** The pieces that [filter] keeps are the words. *)
Lemma split_go_counts (s : string) :
  forall (cur : string) (skipping : bool),
    (skipping = true -> cur = EmptyString) ->
    length (List.filter (fun word => 0 <? len word) (split_go cur skipping s))
    = count_words (0 <? len cur) s.
Proof.
  induction s as [|a r IH]; intros cur skipping Hsk; cbn [split_go count_words].
  - cbn [List.filter]. destruct (0 <? len cur); reflexivity.
  - destruct (is_space a).
    + destruct skipping.
      * rewrite (Hsk eq_refl). rewrite IH by reflexivity. reflexivity.
      * cbn [List.filter]. destruct (0 <? len cur); cbn [length];
          rewrite IH by reflexivity; reflexivity.
    + rewrite IH by (intros Hx; discriminate Hx).
      rewrite append_nonempty. reflexivity.
Qed.

Lemma count_words_trimStart (s : string) :
  count_words false (trimStart s) = count_words false s.
Proof.
  induction s as [|a r IH]; [reflexivity|].
  cbn [trimStart count_words]. destruct (is_space a) eqn:E; [exact IH|].
  cbn [count_words]. rewrite E. reflexivity.
Qed.

Lemma trimEnd_empty (s : string) :
  trimEnd s = EmptyString -> all_chars is_space s = true.
Proof.
  induction s as [|a r IH]; [reflexivity|].
  cbn [trimEnd all_chars]. destruct (trimEnd r) eqn:E; [|discriminate].
  destruct (is_space a); [intros _; apply IH; reflexivity | discriminate].
Qed.

Lemma count_words_blank (s : string) (in_word : bool) :
  all_chars is_space s = true ->
  count_words in_word s = if in_word then 1%nat else 0%nat.
Proof.
  revert in_word. induction s as [|a r IH]; intros in_word H; [reflexivity|].
  cbn [all_chars] in H. apply andb_prop in H as [Ha Hr].
  cbn [count_words]. rewrite Ha, (IH false Hr). lia.
Qed.

Lemma count_words_trimEnd (s : string) :
  forall in_word, count_words in_word (trimEnd s) = count_words in_word s.
Proof.
  induction s as [|a r IH]; intros in_word; [reflexivity|].
  cbn [trimEnd]. destruct (trimEnd r) as [|b r'] eqn:E.
  - pose proof (trimEnd_empty r E) as Hb.
    destruct (is_space a) eqn:Ea; cbn [count_words]; rewrite Ea.
    + rewrite (count_words_blank r false Hb). destruct in_word; reflexivity.
    + rewrite (count_words_blank r true Hb). reflexivity.
  - cbn [count_words]. rewrite <- !IH. reflexivity.
Qed.

(** [calculateWordCount] counts the words. *)
Lemma calculateWordCount_count (text : string) :
  calculateWordCount text = Z.of_nat (count_words false text).
Proof.
  unfold calculateWordCount, split_spaces. rewrite split_go_counts by discriminate.
  change (0 <? len "") with false. unfold trim.
  rewrite count_words_trimEnd, count_words_trimStart. reflexivity.
Qed.

Lemma count_words_app_space (a : string) (c : ascii) (b : string) :
  is_space c = true ->
  forall in_word,
    count_words in_word (a ++ String c b)
    = (count_words in_word a + count_words false b)%nat.
Proof.
  intros Hc. induction a as [|x a IH]; intros in_word.
  - change ("" ++ String c b) with (String c b). cbn [count_words].
    rewrite Hc. destruct in_word; reflexivity.
  - change (String x a ++ String c b) with (String x (a ++ String c b)).
    cbn [count_words]. destruct (is_space x); rewrite IH; lia.
Qed.

Lemma count_words_skip (sp b : string) :
  all_chars is_space sp = true ->
  count_words false (sp ++ b) = count_words false b.
Proof.
  induction sp as [|c sp IH]; intros H; [reflexivity|].
  cbn [all_chars] in H. apply andb_prop in H as [Hc Hsp].
  change (String c sp ++ b) with (String c (sp ++ b)).
  cbn [count_words]. rewrite Hc. apply IH. exact Hsp.
Qed.

Lemma count_words_word (w : string) :
  all_chars (fun c => negb (is_space c)) w = true ->
  forall in_word,
    count_words in_word w
    = match w with
      | EmptyString => if in_word then 1%nat else 0%nat
      | _ => 1%nat
      end.
Proof.
  induction w as [|c w IH]; intros H in_word; [reflexivity|].
  cbn [all_chars] in H. apply andb_prop in H as [Hc Hw].
  apply negb_true_iff in Hc. cbn [count_words]. rewrite Hc.
  rewrite (IH Hw true). destruct w; reflexivity.
Qed.

Lemma count_words_zero (s : string) :
  count_words false s = 0%nat -> all_chars is_space s = true.
Proof.
  induction s as [|a r IH]; [reflexivity|].
  cbn [count_words all_chars]. destruct (is_space a) eqn:E.
  - intros H. apply IH. exact H.
  - intros H. exfalso. clear IH. revert H.
    assert (Hpos : forall t, (0 < count_words true t)%nat).
    { induction t as [|x t IHt]; cbn [count_words]; [lia|].
      destruct (is_space x); [lia | exact IHt]. }
    specialize (Hpos r). lia.
Qed.

(** X22.  [calculateWordCount] counts the maximal runs of characters
    that are not white space: a text made of white space has no words, a
    run without white space is one word, and the count of two texts
    joined by white space (of any kind and length) is the sum of their
    counts, so that surrounding and repeated white space never changes
    the count.  A text has no words only if it is all white space. *)
Theorem calculateWordCount_counts_words (a b sp w : string) :
  all_chars is_space sp = true -> sp <> EmptyString ->
  all_chars (fun c => negb (is_space c)) w = true -> w <> EmptyString ->
  calculateWordCount (a ++ sp ++ b) = calculateWordCount a + calculateWordCount b
  /\ calculateWordCount (sp ++ a ++ sp) = calculateWordCount a
  /\ calculateWordCount w = 1
  /\ calculateWordCount sp = 0
  /\ (calculateWordCount a = 0 <-> all_chars is_space a = true).
Proof.
  intros Hsp Hne Hw Hwne. rewrite !calculateWordCount_count.
  destruct sp as [|c sp]; [congruence|].
  cbn [all_chars] in Hsp. apply andb_prop in Hsp as [Hc Hsp'].
  assert (Hjoin : forall x y,
             count_words false (x ++ String c sp ++ y)
             = (count_words false x + count_words false y)%nat).
  { intros x y. change (String c sp ++ y) with (String c (sp ++ y)).
    rewrite (count_words_app_space x c (sp ++ y) Hc), count_words_skip by exact Hsp'.
    reflexivity. }
  split; [rewrite Hjoin; lia|].
  split.
  { change (String c sp ++ a ++ String c sp) with ("" ++ String c sp ++ (a ++ String c sp)).
    rewrite Hjoin. cbn [count_words].
    rewrite (count_words_app_space a c sp Hc), (count_words_blank sp false Hsp'). lia. }
  split; [rewrite (count_words_word w Hw false); destruct w; [congruence | reflexivity]|].
  split.
  { rewrite (count_words_blank (String c sp) false); [reflexivity|].
    cbn [all_chars]. rewrite Hc, Hsp'. reflexivity. }
  split.
  - intros H. apply count_words_zero. lia.
  - intros H. rewrite (count_words_blank a false H). reflexivity.
Qed.

(** X23.  The reading time of a text is the least number of minutes
    that covers its words at 200 words a minute; it is never negative,
    and it is zero only for a text without words. *)
Theorem reading_time_covers_the_words (text : string) :
  let words := calculateWordCount text in
  let minutes := calculateReadingTime words in
  200 * (minutes - 1) < words <= 200 * minutes
  /\ 0 <= minutes
  /\ (minutes = 0 <-> all_chars is_space text = true).
Proof.
  cbv zeta. rewrite calculateWordCount_count. unfold calculateReadingTime.
  set (n := Z.of_nat (count_words false text)).
  assert (Hn : 0 <= n) by (unfold n; lia).
  pose proof (Z.div_mod (- n) 200 ltac:(lia)) as Hdm.
  pose proof (Z.mod_pos_bound (- n) 200 ltac:(lia)) as Hmod.
  split; [lia|]. split; [lia|].
  split.
  - intros H0. apply count_words_zero.
    assert (n = 0) by lia. unfold n in *. lia.
  - intros Hb. unfold n. rewrite (count_words_blank text false Hb). reflexivity.
Qed.

(** Two spaces and a tab between the words: two words, one minute. *)
Lemma calculateWordCount_counts_words_witness :
  let gap := String SPACE (String SPACE (String TAB EmptyString)) in
  calculateWordCount ("hello" ++ gap ++ "world") = 2
  /\ calculateWordCount (gap ++ "hello" ++ gap) = 1.
Proof.
  cbv zeta.
  destruct (calculateWordCount_counts_words "hello" "world"
              (String SPACE (String SPACE (String TAB EmptyString))) "hello"
              eq_refl ltac:(discriminate) eq_refl ltac:(discriminate))
    as (H1 & H2 & H3 & _).
  split; [rewrite H1; reflexivity | rewrite H2; exact H3].
Defined.

End WordCountFacts.

(** ** Cleaning text *)

Module CleanTextFacts.
Import JsString JsStringFacts JsStringMore ContentText.

(** *** What trimming keeps *)

Lemma all_chars_trimStart (p : ascii -> bool) (s : string) :
  all_chars p s = true -> all_chars p (trimStart s) = true.
Proof.
  induction s as [|a r IH]; intros H; [reflexivity|].
  cbn [trimStart]. destruct (is_space a); [|exact H].
  cbn [all_chars] in H. apply andb_prop in H as [_ H]. apply IH. exact H.
Qed.

Lemma all_chars_trimEnd (p : ascii -> bool) (s : string) :
  all_chars p s = true -> all_chars p (trimEnd s) = true.
Proof.
  induction s as [|a r IH]; intros H; [reflexivity|].
  cbn [all_chars] in H. apply andb_prop in H as [Ha Hr]. specialize (IH Hr).
  cbn [trimEnd]. destruct (trimEnd r) as [|b r'].
  - destruct (is_space a); [reflexivity|]. cbn [all_chars]. rewrite Ha. reflexivity.
  - cbn [all_chars] in IH |- *. rewrite Ha. exact IH.
Qed.

Lemma no_pair_tail (p : ascii -> bool) (a : ascii) (r : string) :
  no_pair p (String a r) = true -> no_pair p r = true.
Proof.
  cbn [no_pair]. destruct r as [|b r']; [reflexivity|].
  intros H. apply andb_prop in H as [_ H]. exact H.
Qed.

Lemma no_pair_trimStart (p : ascii -> bool) (s : string) :
  no_pair p s = true -> no_pair p (trimStart s) = true.
Proof.
  induction s as [|a r IH]; intros H; [reflexivity|].
  cbn [trimStart]. destruct (is_space a); [|exact H].
  apply IH. eapply no_pair_tail. exact H.
Qed.

(** [trimEnd] keeps the first character of what it does not empty. *)
Lemma trimEnd_head (a : ascii) (r : string) :
  trimEnd (String a r) = EmptyString
  \/ exists r', trimEnd (String a r) = String a r'
                /\ (r' = EmptyString \/ trimEnd r = r').
Proof.
  cbn [trimEnd]. destruct (trimEnd r) as [|b r'] eqn:E.
  - destruct (is_space a); [left; reflexivity|].
    right. exists EmptyString. split; [reflexivity | left; reflexivity].
  - right. exists (String b r'). split; [reflexivity | right; reflexivity].
Qed.

Lemma trimEnd_first (r : string) (b : ascii) (r' : string) :
  trimEnd r = String b r' -> exists t, r = String b t.
Proof.
  destruct r as [|a t]; [discriminate|].
  intros H. destruct (trimEnd_head a t) as [E|(x & E & _)]; rewrite E in H.
  - discriminate H.
  - injection H as -> _. exists t. reflexivity.
Qed.

Lemma no_pair_trimEnd (p : ascii -> bool) (s : string) :
  no_pair p s = true -> no_pair p (trimEnd s) = true.
Proof.
  induction s as [|a r IH]; intros H; [reflexivity|].
  pose proof (no_pair_tail p a r H) as Hr. specialize (IH Hr).
  cbn [trimEnd]. destruct (trimEnd r) as [|b r'] eqn:E.
  - destruct (is_space a); reflexivity.
  - destruct (trimEnd_first r b r' E) as (t & ->).
    cbn [no_pair] in H |- *. apply andb_prop in H as [Hab _].
    rewrite Hab. exact IH.
Qed.

Lemma run_below3_weaken (p : ascii -> bool) (s : string) :
  forall j k, (j <= k)%nat -> run_below3 p k s = true -> run_below3 p j s = true.
Proof.
  induction s as [|a r IH]; intros j k Hjk H; [reflexivity|].
  cbn [run_below3] in *. destruct (p a); [|exact H].
  apply andb_prop in H as [Hk Hr]. apply Nat.ltb_lt in Hk.
  apply andb_true_intro. split; [apply Nat.ltb_lt; lia|].
  apply (IH (S j) (S k)); [lia | exact Hr].
Qed.

Lemma run_below3_tail (p : ascii -> bool) (k : nat) (a : ascii) (r : string) :
  run_below3 p k (String a r) = true -> run_below3 p 0 r = true.
Proof.
  cbn [run_below3]. destruct (p a); [|intros H; exact H].
  intros H. apply andb_prop in H as [_ H].
  apply (run_below3_weaken p r 0 (S k)); [lia | exact H].
Qed.

Lemma run_below3_trimStart (p : ascii -> bool) (s : string) :
  run_below3 p 0 s = true -> run_below3 p 0 (trimStart s) = true.
Proof.
  induction s as [|a r IH]; intros H; [reflexivity|].
  cbn [trimStart]. destruct (is_space a); [|exact H].
  apply IH. eapply run_below3_tail. exact H.
Qed.

Lemma run_below3_trimEnd (p : ascii -> bool) (s : string) :
  forall k, run_below3 p k s = true -> run_below3 p k (trimEnd s) = true.
Proof.
  induction s as [|a r IH]; intros k H; [reflexivity|].
  cbn [trimEnd]. destruct (trimEnd r) as [|b r'] eqn:E.
  - destruct (is_space a); [reflexivity|].
    cbn [run_below3] in H |- *. destruct (p a); [|reflexivity].
    apply andb_prop in H as [Hk _]. rewrite Hk. reflexivity.
  - rewrite <- E. cbn [run_below3] in H |- *. destruct (p a).
    + apply andb_prop in H as [Hk Hr]. rewrite Hk. cbn [andb].
      rewrite E. apply IH. exact Hr.
    + rewrite E. apply IH. exact H.
Qed.

(** *** Trimming twice *)

Lemma trimEnd_idempotent (s : string) : trimEnd (trimEnd s) = trimEnd s.
Proof.
  induction s as [|a r IH]; [reflexivity|].
  cbn [trimEnd]. destruct (trimEnd r) as [|b r'] eqn:E.
  - destruct (is_space a) eqn:Ea; [reflexivity|]. cbn [trimEnd]. rewrite Ea. reflexivity.
  - cbn [trimEnd]. cbn [trimEnd] in IH. rewrite IH. reflexivity.
Qed.

Lemma trimStart_head (s : string) :
  trimStart s = EmptyString
  \/ exists a r, trimStart s = String a r /\ is_space a = false.
Proof.
  induction s as [|a r IH]; [left; reflexivity|].
  cbn [trimStart]. destruct (is_space a) eqn:E; [exact IH|].
  right. exists a, r. split; [reflexivity | exact E].
Qed.

Lemma trim_idempotent (s : string) : trim (trim s) = trim s.
Proof.
  unfold trim. destruct (trimStart_head s) as [E|(a & r & E & Ha)]; rewrite E.
  - reflexivity.
  - destruct (trimEnd_head a r) as [E2|(r' & E2 & _)]; rewrite E2.
    + reflexivity.
    + cbn [trimStart]. rewrite Ha. rewrite <- E2. apply trimEnd_idempotent.
Qed.

Lemma trimmed_trim (s : string) : trimmed (trim s) = true.
Proof. unfold trimmed. rewrite trim_idempotent. apply String.eqb_refl. Qed.

(** *** Lengths *)

Lemma length_trimStart (s : string) : (String.length (trimStart s) <= String.length s)%nat.
Proof.
  induction s as [|a r IH]; [cbn; lia|].
  cbn [trimStart]. destruct (is_space a); cbn [String.length]; lia.
Qed.

Lemma length_trimEnd (s : string) : (String.length (trimEnd s) <= String.length s)%nat.
Proof.
  induction s as [|a r IH]; [cbn; lia|].
  cbn [trimEnd]. destruct (trimEnd r) as [|b r'].
  - destruct (is_space a); cbn [String.length]; lia.
  - cbn [String.length] in *. lia.
Qed.

Lemma length_trim (s : string) : (String.length (trim s) <= String.length s)%nat.
Proof.
  unfold trim. pose proof (length_trimEnd (trimStart s)).
  pose proof (length_trimStart s). lia.
Qed.

Lemma length_collapse_go (p : ascii -> bool) (s : string) :
  forall b, (String.length (collapse_go p b s) <= String.length s)%nat.
Proof.
  induction s as [|a r IH]; intros b; [cbn; lia|].
  cbn [collapse_go]. destruct (p a).
  - destruct b; cbn [String.length]; [specialize (IH true) | specialize (IH true)]; lia.
  - cbn [String.length]. specialize (IH false). lia.
Qed.

Lemma length_replace_crlf (s : string) :
  (String.length (replace_crlf s) <= String.length s)%nat
  /\ (String.length (replace_crlf (match s with
                                   | EmptyString => EmptyString
                                   | String _ r => r
                                   end))
      <= String.length s)%nat.
Proof.
  induction s as [|a r IH]; [cbn; lia|].
  destruct IH as [IH1 IH2]. split; [|cbn [String.length]; lia].
  cbn [replace_crlf]. destruct r as [|b r'].
  - cbn. lia.
  - destruct (Ascii.eqb a CR && Ascii.eqb b LF); cbn [String.length] in *; lia.
Qed.

Lemma length_newlines (k : nat) : String.length (newlines k) = k.
Proof. induction k as [|k IH]; cbn [newlines String.length]; [reflexivity | lia]. Qed.

Lemma length_collapse_newlines_go (s : string) :
  forall k, (String.length (collapse_newlines_go k s) <= k + String.length s)%nat.
Proof.
  induction s as [|a r IH]; intros k; cbn [collapse_newlines_go].
  - rewrite length_newlines. cbn. lia.
  - destruct (Ascii.eqb a LF).
    + specialize (IH (S k)). cbn [String.length]. lia.
    + rewrite length_append, length_newlines. cbn [String.length].
      specialize (IH 0%nat). lia.
Qed.

(** *** What each pass achieves *)

Lemma collapse_go_no_pair (p : ascii -> bool) (s : string) :
  p SPACE = true ->
  forall b,
    no_pair p (collapse_go p b s) = true
    /\ (b = true ->
        match collapse_go p b s with
        | String c _ => p c = false
        | EmptyString => True
        end).
Proof.
  intros Hsp. induction s as [|a r IH]; intros b; [split; [reflexivity | intros _; exact I]|].
  cbn [collapse_go]. destruct (p a) eqn:Ea.
  - destruct b.
    + apply IH.
    + split; [|intros Hx; discriminate Hx].
      destruct (IH true) as [H1 H2]. specialize (H2 eq_refl).
      cbn [no_pair]. destruct (collapse_go p true r) as [|c t]; [reflexivity|].
      rewrite H2, andb_false_r. exact H1.
  - split; [|intros _; exact Ea].
    destruct (IH false) as [H1 _]. cbn [no_pair].
    destruct (collapse_go p false r) as [|c t]; [reflexivity|].
    rewrite Ea. exact H1.
Qed.

Lemma collapse_blank_no_tab (s : string) :
  forall b, all_chars (fun c => negb (Ascii.eqb c TAB)) (collapse_go is_blank b s) = true.
Proof.
  induction s as [|a r IH]; intros b; [reflexivity|].
  cbn [collapse_go]. destruct (is_blank a) eqn:Ea.
  - destruct b; [apply IH|]. cbn [all_chars]. rewrite IH. reflexivity.
  - cbn [all_chars]. rewrite IH, andb_true_r.
    unfold is_blank in Ea. apply orb_false_iff in Ea as [_ Ea]. rewrite Ea. reflexivity.
Qed.

Lemma collapse_go_run_below3 (p q : ascii -> bool) (s : string) :
  (forall c, q c = true -> p c = false) -> q SPACE = false ->
  forall k b,
    (b = true -> k = 0%nat) ->
    run_below3 q k s = true -> run_below3 q k (collapse_go p b s) = true.
Proof.
  intros Hqp Hsp. induction s as [|a r IH]; intros k b Hb H; [reflexivity|].
  cbn [collapse_go]. cbn [run_below3] in H. destruct (p a) eqn:Ea.
  - assert (Hqa : q a = false)
      by (destruct (q a) eqn:E; [rewrite (Hqp a E) in Ea; discriminate | reflexivity]).
    rewrite Hqa in H. destruct b.
    + rewrite (Hb eq_refl). apply IH; [reflexivity | exact H].
    + cbn [run_below3]. rewrite Hsp. apply IH; [reflexivity | exact H].
  - cbn [run_below3]. destruct (q a).
    + apply andb_prop in H as [Hk Hr]. rewrite Hk. cbn [andb].
      apply IH; [intros Hx; discriminate Hx | exact Hr].
    + apply IH; [intros Hx; discriminate Hx | exact H].
Qed.

Lemma run_below3_newlines (m : nat) :
  forall j rest,
    (j + m <= 2)%nat ->
    run_below3 (Ascii.eqb LF) 0 rest = true ->
    match rest with
    | String c _ => Ascii.eqb LF c = false
    | EmptyString => True
    end ->
    run_below3 (Ascii.eqb LF) j (newlines m ++ rest) = true.
Proof.
  induction m as [|m IH]; intros j rest Hj Hrest Hhead.
  - change (newlines 0 ++ rest) with rest.
    destruct rest as [|c t]; [reflexivity|].
    cbn [run_below3] in Hrest |- *. rewrite Hhead in Hrest |- *. exact Hrest.
  - change (newlines (S m) ++ rest) with (String LF (newlines m ++ rest)).
    cbn [run_below3]. rewrite Ascii.eqb_refl.
    apply andb_true_intro. split; [apply Nat.ltb_lt; lia|].
    apply IH; [lia | exact Hrest | exact Hhead].
Qed.

Lemma collapse_newlines_go_run_below3 (s : string) :
  forall k, run_below3 (Ascii.eqb LF) 0 (collapse_newlines_go k s) = true.
Proof.
  induction s as [|a r IH]; intros k; cbn [collapse_newlines_go].
  - rewrite <- (append_empty (newlines (Nat.min k 2))).
    apply run_below3_newlines; [lia | reflexivity | exact I].
  - destruct (Ascii.eqb a LF) eqn:Ea; [apply IH|].
    apply run_below3_newlines; [lia| |].
    + cbn [run_below3]. rewrite Ascii.eqb_sym, Ea. apply IH.
    + rewrite Ascii.eqb_sym. exact Ea.
Qed.

(** X24.  What [cleanText] returns holds no tab, no two blanks side by
    side, no three line feeds in a row and no white space at either
    end, and is never longer than the text it was given.  It can still
    hold a carriage return before a line feed, and cleaning a second time
    can change the text again. *)
Theorem cleanText_normalises (text : string) :
  all_chars (fun c => negb (Ascii.eqb c TAB)) (cleanText text) = true
  /\ no_pair is_blank (cleanText text) = true
  /\ run_below3 (Ascii.eqb LF) 0 (cleanText text) = true
  /\ trimmed (cleanText text) = true
  /\ len (cleanText text) <= len text
  /\ exists t, cleanText (cleanText t) <> cleanText t.
Proof.
  unfold cleanText, collapse, collapse_newlines.
  split; [|split; [|split; [|split; [|split]]]].
  - unfold trim. apply all_chars_trimEnd, all_chars_trimStart, collapse_blank_no_tab.
  - unfold trim. apply no_pair_trimEnd, no_pair_trimStart.
    apply (collapse_go_no_pair is_blank); reflexivity.
  - unfold trim. apply run_below3_trimEnd, run_below3_trimStart.
    apply collapse_go_run_below3.
    + intros c Hc. apply Ascii.eqb_eq in Hc. subst c. reflexivity.
    + reflexivity.
    + intros Hx. discriminate Hx.
    + apply collapse_newlines_go_run_below3.
  - apply trimmed_trim.
  - unfold len.
    pose proof (length_trim
                  (collapse_go is_blank false
                     (collapse_newlines_go 0 (replace_crlf text)))) as H1.
    pose proof (length_collapse_go is_blank
                  (collapse_newlines_go 0 (replace_crlf text)) false) as H2.
    pose proof (length_collapse_newlines_go (replace_crlf text) 0) as H3.
    pose proof (proj1 (length_replace_crlf text)) as H4. lia.
  - exists (String "a" (String CR (String CR (String LF (String "b" EmptyString))))).
    vm_compute. discriminate.
Qed.

End CleanTextFacts.

(** ** Stripping tags *)

Module StripHtmlFacts.
Import JsString JsStringFacts JsStringMore ContentText CleanTextFacts.

Lemma has_char_app (c : ascii) (s t : string) :
  has_char c (s ++ t) = has_char c s || has_char c t.
Proof.
  induction s as [|a r IH]; [reflexivity|].
  change (String a r ++ t) with (String a (r ++ t)). cbn [has_char].
  rewrite IH, orb_assoc. reflexivity.
Qed.

Lemma append_assoc (a b c : string) : (a ++ b) ++ c = a ++ (b ++ c).
Proof.
  induction a as [|x a IH]; [reflexivity|].
  change ((String x a ++ b) ++ c) with (String x ((a ++ b) ++ c)).
  rewrite IH. reflexivity.
Qed.

(** A pending [<] with no [>] to come is written out as it was read. *)
Lemma remove_tags_go_open (s : string) :
  forall buf, has_char GT s = false -> remove_tags_go (Some buf) s = buf ++ s.
Proof.
  induction s as [|a r IH]; intros buf H; cbn [remove_tags_go].
  - rewrite append_empty. reflexivity.
  - cbn [has_char] in H. apply orb_false_iff in H as [Ha Hr]. rewrite Ha.
    rewrite (IH _ Hr), append_assoc. reflexivity.
Qed.

Lemma tag_free_tail (a : ascii) (r : string) :
  tag_free (String a r) = true -> tag_free r = true.
Proof. cbn [tag_free]. intros H. apply andb_prop in H as [_ H]. exact H. Qed.

Lemma tag_free_closed (s : string) : has_char GT s = false -> tag_free s = true.
Proof.
  induction s as [|a r IH]; intros H; [reflexivity|].
  cbn [has_char] in H. apply orb_false_iff in H as [_ Hr].
  cbn [tag_free]. rewrite Hr, (IH Hr). cbn [negb]. rewrite !orb_true_r. reflexivity.
Qed.

(** Text without tags is left as it is. *)
Lemma remove_tags_fixed_both (s : string) :
  (tag_free s = true -> remove_tags_go None s = s)
  /\ (forall a r, s = String a r -> tag_free r = true -> remove_tags_go None r = r).
Proof.
  induction s as [|a r [IH1 IH2]].
  - split; [reflexivity | intros a r Hx; discriminate Hx].
  - split; [|intros a' r' Hx; injection Hx as _ <-; exact IH1].
    intros H. pose proof (tag_free_tail a r H) as Hr.
    cbn [remove_tags_go]. destruct (Ascii.eqb a LT) eqn:Ea.
    + apply Ascii.eqb_eq in Ea. subst a.
      cbn [tag_free] in H. apply andb_prop in H as [H _].
      change (negb (Ascii.eqb LT LT)) with false in H. cbn [orb] in H.
      apply orb_prop in H as [Hs|Hn].
      * destruct r as [|b r']; [discriminate Hs|]. cbn [starts_with] in Hs.
        apply Ascii.eqb_eq in Hs. subst b. cbn [remove_tags_go].
        change (Ascii.eqb GT GT) with true. cbv beta iota.
        change (String.eqb (String LT "") (String LT "")) with true. cbv beta iota.
        rewrite (IH2 GT r' eq_refl); [reflexivity|].
        eapply tag_free_tail. exact Hr.
      * apply negb_true_iff in Hn. rewrite (remove_tags_go_open r _ Hn). reflexivity.
    + rewrite (IH1 Hr). reflexivity.
Qed.

Lemma remove_tags_fixed (s : string) : tag_free s = true -> remove_tags s = s.
Proof. apply remove_tags_fixed_both. Qed.

(** What [remove_tags] returns holds no tag. *)
Lemma remove_tags_go_free (s : string) :
  forall pending,
    match pending with
    | Some buf => has_char GT buf = false
    | None => True
    end ->
    tag_free (remove_tags_go pending s) = true.
Proof.
  induction s as [|a r IH]; intros pending Hp; cbn [remove_tags_go].
  - destruct pending as [buf|]; [apply tag_free_closed; exact Hp | reflexivity].
  - destruct pending as [buf|].
    + destruct (Ascii.eqb a GT) eqn:Ea.
      * destruct (String.eqb buf (String LT "")).
        -- cbn [tag_free starts_with]. change (Ascii.eqb GT GT) with true.
           change (Ascii.eqb GT LT) with false. cbn [negb orb andb].
           rewrite orb_true_r. cbn [andb]. apply (IH None). exact I.
        -- cbn [tag_free]. change (Ascii.eqb SPACE LT) with false. cbn [negb orb andb].
           apply (IH None). exact I.
      * apply IH. rewrite has_char_app, Hp. cbn [has_char orb]. rewrite Ea. reflexivity.
    + destruct (Ascii.eqb a LT) eqn:Ea.
      * apply IH. reflexivity.
      * cbn [tag_free]. rewrite Ea. cbn [negb orb andb]. apply (IH None). exact I.
Qed.

Lemma length_remove_tags_go (s : string) :
  forall pending,
    (String.length (remove_tags_go pending s)
     <= String.length s + match pending with
                          | Some buf => String.length buf
                          | None => 0
                          end)%nat.
Proof.
  induction s as [|a r IH]; intros pending; cbn [remove_tags_go].
  - destruct pending; cbn [String.length]; lia.
  - destruct pending as [buf|].
    + destruct (Ascii.eqb a GT).
      * destruct (String.eqb buf (String LT "")) eqn:Eb.
        -- apply String.eqb_eq in Eb. subst buf. specialize (IH None).
           cbn [String.length] in *. lia.
        -- specialize (IH None). cbn [String.length] in *. lia.
      * specialize (IH (Some (buf ++ String a ""))). cbn beta iota in IH.
        rewrite length_append in IH. cbn [String.length] in *. lia.
    + destruct (Ascii.eqb a LT).
      * specialize (IH (Some (String LT ""))). cbn [String.length] in *. lia.
      * specialize (IH None). cbn [String.length] in *. lia.
Qed.

(** *** Collapsing white space keeps text free of tags *)

Section Class.
Variable p : ascii -> bool.
Hypothesis p_space : p SPACE = true.
Hypothesis p_lt : p LT = false.
Hypothesis p_gt : p GT = false.

Lemma has_char_collapse_go (s : string) :
  forall b, has_char GT (collapse_go p b s) = has_char GT s.
Proof.
  induction s as [|a r IH]; intros b; [reflexivity|].
  cbn [collapse_go has_char]. destruct (p a) eqn:Ea.
  - assert (Hne : Ascii.eqb a GT = false).
    { destruct (Ascii.eqb a GT) eqn:E; [|reflexivity].
      apply Ascii.eqb_eq in E. subst a. congruence. }
    rewrite Hne. cbn [orb]. destruct b; [apply IH|].
    cbn [has_char]. change (Ascii.eqb SPACE GT) with false. apply IH.
  - cbn [has_char]. rewrite IH. reflexivity.
Qed.

Lemma starts_with_collapse_go (s : string) (b : bool) :
  starts_with GT s = true -> starts_with GT (collapse_go p b s) = true.
Proof.
  destruct s as [|a r]; [discriminate|]. cbn [starts_with]. intros H.
  apply Ascii.eqb_eq in H. subst a. cbn [collapse_go]. rewrite p_gt. reflexivity.
Qed.

Lemma tag_free_collapse_go (s : string) :
  forall b, tag_free s = true -> tag_free (collapse_go p b s) = true.
Proof.
  induction s as [|a r IH]; intros b H; [reflexivity|].
  pose proof (tag_free_tail a r H) as Hr.
  cbn [collapse_go]. destruct (p a) eqn:Ea.
  - destruct b; [apply IH; exact Hr|].
    cbn [tag_free]. change (Ascii.eqb SPACE LT) with false. cbn [negb orb andb].
    apply IH. exact Hr.
  - cbn [tag_free] in H |- *. apply andb_prop in H as [H _].
    rewrite (IH false Hr), andb_true_r.
    destruct (Ascii.eqb a LT); [|reflexivity]. cbn [negb orb] in H |- *.
    apply orb_prop in H as [Hs|Hn].
    + rewrite (starts_with_collapse_go r false Hs). reflexivity.
    + rewrite has_char_collapse_go, Hn. apply orb_true_r.
Qed.

(** Text in which white space is single spaces is left as it is. *)
Lemma collapse_go_fixed (s : string) :
  forall b,
    (b = true -> match s with String c _ => p c = false | EmptyString => True end) ->
    all_chars (fun c => negb (p c) || Ascii.eqb c SPACE) s = true ->
    no_pair p s = true ->
    collapse_go p b s = s.
Proof.
  induction s as [|a r IH]; intros b Hb Hall Hpair; [reflexivity|].
  cbn [all_chars] in Hall. apply andb_prop in Hall as [Ha Hr].
  pose proof (no_pair_tail p a r Hpair) as Hpr.
  cbn [collapse_go]. destruct (p a) eqn:Ea.
  - cbn [negb orb] in Ha. apply Ascii.eqb_eq in Ha. subst a.
    destruct b; [specialize (Hb eq_refl); cbn beta iota in Hb; congruence|].
    f_equal. apply IH; [|exact Hr | exact Hpr].
    intros _. destruct r as [|c t]; [exact I|].
    cbn [no_pair] in Hpair. apply andb_prop in Hpair as [Hac _].
    rewrite Ea in Hac. cbn [andb] in Hac. apply negb_true_iff in Hac. exact Hac.
  - f_equal. apply IH; [intros Hx; discriminate Hx | exact Hr | exact Hpr].
Qed.

Lemma collapse_go_only_spaces (s : string) :
  forall b, all_chars (fun c => negb (p c) || Ascii.eqb c SPACE) (collapse_go p b s) = true.
Proof.
  induction s as [|a r IH]; intros b; [reflexivity|].
  cbn [collapse_go]. destruct (p a) eqn:Ea.
  - destruct b; [apply IH|]. cbn [all_chars]. rewrite IH.
    change (Ascii.eqb SPACE SPACE) with true. rewrite orb_true_r. reflexivity.
  - cbn [all_chars]. rewrite Ea, IH. reflexivity.
Qed.

End Class.

(** *** Trimming keeps text free of tags *)

Lemma tag_free_trimStart (s : string) :
  tag_free s = true -> tag_free (trimStart s) = true.
Proof.
  induction s as [|a r IH]; intros H; [reflexivity|].
  cbn [trimStart]. destruct (is_space a); [|exact H].
  apply IH. eapply tag_free_tail. exact H.
Qed.

Lemma has_char_trimEnd (c : ascii) (s : string) :
  has_char c s = false -> has_char c (trimEnd s) = false.
Proof.
  induction s as [|a r IH]; intros H; [reflexivity|].
  cbn [has_char] in H. apply orb_false_iff in H as [Ha Hr]. specialize (IH Hr).
  cbn [trimEnd]. destruct (trimEnd r) as [|b r'].
  - destruct (is_space a); [reflexivity|]. cbn [has_char]. rewrite Ha. reflexivity.
  - cbn [has_char] in IH |- *. rewrite Ha. exact IH.
Qed.

Lemma tag_free_trimEnd (s : string) :
  tag_free s = true -> tag_free (trimEnd s) = true.
Proof.
  induction s as [|a r IH]; intros H; [reflexivity|].
  pose proof (tag_free_tail a r H) as Hr. specialize (IH Hr).
  cbn [trimEnd]. destruct (trimEnd r) as [|b r'] eqn:E.
  - destruct (is_space a); [reflexivity|].
    cbn [tag_free starts_with has_char]. cbn [negb]. rewrite !orb_true_r. reflexivity.
  - cbn [tag_free] in H. apply andb_prop in H as [H _].
    change (tag_free (String a (String b r')))
      with ((negb (Ascii.eqb a LT) || starts_with GT (String b r')
             || negb (has_char GT (String b r'))) && tag_free (String b r')).
    rewrite IH, andb_true_r.
    destruct (Ascii.eqb a LT); [|reflexivity]. cbn [negb orb] in H |- *.
    apply orb_prop in H as [Hs|Hn].
    + destruct (trimEnd_first r b r' E) as (t & ->).
      cbn [starts_with] in Hs |- *. rewrite Hs. reflexivity.
    + apply negb_true_iff in Hn. rewrite <- E, (has_char_trimEnd GT r Hn).
      apply orb_true_r.
Qed.

(** The shape of what [stripHtml] returns. *)
Lemma stripHtml_shape (html : string) :
  tag_free (stripHtml html) = true
  /\ all_chars (fun c => negb (is_space c) || Ascii.eqb c SPACE) (stripHtml html) = true
  /\ no_pair is_space (stripHtml html) = true
  /\ trim (stripHtml html) = stripHtml html.
Proof.
  split; [|split; [|split]].
  - unfold stripHtml, trim, collapse, remove_tags.
    apply tag_free_trimEnd, tag_free_trimStart.
    apply tag_free_collapse_go; try reflexivity.
    apply remove_tags_go_free. exact I.
  - unfold stripHtml, trim, collapse.
    apply all_chars_trimEnd, all_chars_trimStart, collapse_go_only_spaces.
  - unfold stripHtml, trim, collapse.
    apply no_pair_trimEnd, no_pair_trimStart.
    apply (collapse_go_no_pair is_space); reflexivity.
  - unfold stripHtml. apply trim_idempotent.
Qed.

(** X25.  [stripHtml] is idempotent: what it returns holds no tag that
    a second pass would remove (every [<] left is followed at once by a
    [>] or by none at all), its only white space is single spaces
    between other characters, and stripping it again returns it
    unchanged.  The result is never longer than the input. *)
Theorem stripHtml_is_idempotent (html : string) :
  stripHtml (stripHtml html) = stripHtml html
  /\ tag_free (stripHtml html) = true
  /\ all_chars (fun c => negb (is_space c) || Ascii.eqb c SPACE) (stripHtml html) = true
  /\ no_pair is_space (stripHtml html) = true
  /\ trimmed (stripHtml html) = true
  /\ len (stripHtml html) <= len html.
Proof.
  destruct (stripHtml_shape html) as (Hfree & Hall & Hpair & Htrim).
  split; [|split; [exact Hfree|split; [exact Hall|split; [exact Hpair|split]]]].
  - unfold stripHtml at 1. rewrite (remove_tags_fixed _ Hfree).
    unfold collapse. rewrite collapse_go_fixed;
      [|intros Hx; discriminate Hx | exact Hall | exact Hpair].
    exact Htrim.
  - unfold stripHtml. apply trimmed_trim.
  - unfold stripHtml, collapse, remove_tags, len.
    pose proof (length_trim (collapse_go is_space false (remove_tags_go None html))) as H1.
    pose proof (length_collapse_go is_space (remove_tags_go None html) false) as H2.
    pose proof (length_remove_tags_go html None) as H3. cbn beta iota in H3. lia.
Qed.

End StripHtmlFacts.

(** ** The processing pipeline *)

Module ProcessContentFacts.
Import JsString JsStringFacts JsStringMore ContentText CleanTextFacts StripHtmlFacts.

Lemma all_chars_impl (p q : ascii -> bool) (s : string) :
  (forall c, p c = true -> q c = true) ->
  all_chars p s = true -> all_chars q s = true.
Proof.
  intros Hpq. induction s as [|a r IH]; intros H; [reflexivity|].
  cbn [all_chars] in H |- *. apply andb_prop in H as [Ha Hr].
  rewrite (Hpq a Ha), (IH Hr). reflexivity.
Qed.

Lemma no_pair_impl (p q : ascii -> bool) (s : string) :
  (forall c, q c = true -> p c = true) ->
  no_pair p s = true -> no_pair q s = true.
Proof.
  intros Hqp. induction s as [|a r IH]; intros H; [reflexivity|].
  pose proof (no_pair_tail p a r H) as Hr. specialize (IH Hr).
  cbn [no_pair] in H |- *. destruct r as [|b t]; [reflexivity|].
  apply andb_prop in H as [Hab _]. rewrite IH, andb_true_r.
  apply negb_true_iff in Hab. apply negb_true_iff.
  destruct (q a) eqn:Ea; [|reflexivity]. destruct (q b) eqn:Eb; [|reflexivity].
  rewrite (Hqp a Ea), (Hqp b Eb) in Hab. discriminate Hab.
Qed.

Lemma replace_crlf_fixed (s : string) :
  all_chars (fun c => negb (Ascii.eqb c CR)) s = true -> replace_crlf s = s.
Proof.
  induction s as [|a r IH]; intros H; [reflexivity|].
  cbn [all_chars] in H. apply andb_prop in H as [Ha Hr].
  apply negb_true_iff in Ha. cbn [replace_crlf]. destruct r as [|b t]; [reflexivity|].
  rewrite Ha. cbn [andb]. rewrite (IH Hr). reflexivity.
Qed.

Lemma collapse_newlines_fixed (s : string) :
  all_chars (fun c => negb (Ascii.eqb c LF)) s = true -> collapse_newlines s = s.
Proof.
  unfold collapse_newlines. induction s as [|a r IH]; intros H; [reflexivity|].
  cbn [all_chars] in H. apply andb_prop in H as [Ha Hr].
  apply negb_true_iff in Ha. cbn [collapse_newlines_go]. rewrite Ha.
  cbn [Nat.min newlines]. change ("" ++ String a (collapse_newlines_go 0 r))
    with (String a (collapse_newlines_go 0 r)).
  rewrite (IH Hr). reflexivity.
Qed.

(** Cleaning what [stripHtml] returned changes nothing. *)
Lemma cleanText_after_stripHtml (html : string) : cleanText (stripHtml html) = stripHtml html.
Proof.
  destruct (stripHtml_shape html) as (_ & Hall & Hpair & Htrim).
  unfold cleanText.
  rewrite replace_crlf_fixed.
  2:{ eapply all_chars_impl; [|exact Hall]. intros c Hc.
      destruct (Ascii.eqb c CR) eqn:E; [|reflexivity].
      apply Ascii.eqb_eq in E. subst c. discriminate Hc. }
  rewrite collapse_newlines_fixed.
  2:{ eapply all_chars_impl; [|exact Hall]. intros c Hc.
      destruct (Ascii.eqb c LF) eqn:E; [|reflexivity].
      apply Ascii.eqb_eq in E. subst c. discriminate Hc. }
  unfold collapse. rewrite collapse_go_fixed.
  - exact Htrim.
  - intros Hx. discriminate Hx.
  - eapply all_chars_impl; [|exact Hall]. intros c Hc.
    unfold is_blank. destruct (Ascii.eqb c SPACE) eqn:E1; [apply orb_true_r|].
    destruct (Ascii.eqb c TAB) eqn:E2; [|reflexivity].
    apply Ascii.eqb_eq in E2. subst c. discriminate Hc.
  - eapply no_pair_impl; [|exact Hpair]. intros c Hc.
    unfold is_blank in Hc. apply orb_prop in Hc as [Hc|Hc];
      apply Ascii.eqb_eq in Hc; subst c; reflexivity.
Qed.

(** X26.  [processContent] cleans by default and does nothing else:
    without options it is [cleanText].  When tags are stripped, cleaning
    afterwards changes nothing, so with [stripHtml] set and no length
    limit the result is what [stripHtml] returns, whatever [clean] says.
    With a positive [maxLength] the result has at most [maxLength + 2]
    characters, whichever steps ran before. *)
Theorem processContent_pipeline (extractMainContent : string -> string)
    (content : string) :
  processContent extractMainContent content None = cleanText content
  /\ (forall opts,
        flag (Some opts) opt_stripHtml = true ->
        opt_maxLength opts = None ->
        processContent extractMainContent content (Some opts)
        = stripHtml (if flag (Some opts) opt_extractMain
                     then extractMainContent content else content))
  /\ (forall opts m,
        opt_maxLength opts = Some m -> 0 < m ->
        len (processContent extractMainContent content (Some opts)) <= m + 2).
Proof.
  split; [|split].
  - unfold processContent. cbn [flag]. cbv zeta. cbn [Z.eqb negb andb]. reflexivity.
  - intros opts Hs Hm. unfold processContent. cbv zeta. rewrite Hs, Hm.
    cbn [Z.eqb negb andb].
    destruct opts as [st em ml [[|]|]]; cbn beta iota;
      try reflexivity; apply cleanText_after_stripHtml.
  - intros opts m Hm Hpos. unfold processContent. cbv zeta. rewrite Hm.
    match goal with
    | |- context [if _ && (m <? len ?x) then _ else _] => set (processed := x)
    end.
    destruct (m =? 0) eqn:E0; [apply Z.eqb_eq in E0; lia|]. cbn [negb andb].
    destruct (m <? len processed) eqn:E.
    + apply Z.ltb_lt in E. apply ContentReaderFacts.truncateContent_bound; assumption.
    + apply Z.ltb_ge in E. lia.
Qed.

(** X27.  When [options.maxLength] is missing or not negative, the web
    reader returns the cleaned text as it is when it fits the limit and
    otherwise at most two characters more than the limit; the limit is
    [options.maxLength], and 50000 when that is missing or 0. *)
Theorem readWithMetadata_content_bound (options_maxLength : option Z) (cleaned : string) :
  match options_maxLength with Some m => 0 <= m | None => True end ->
  let limit :=
    match options_maxLength with
    | Some m => if m =? 0 then 50000 else m
    | None => 50000
    end in
  len (ContentReader.readWithMetadata_content options_maxLength cleaned) <= limit + 2
  /\ (len cleaned <= limit ->
      ContentReader.readWithMetadata_content options_maxLength cleaned = cleaned)
  /\ ContentReader.readWithMetadata_content (Some 0) cleaned
     = ContentReader.readWithMetadata_content None cleaned.
Proof.
  intros Hm limit. unfold ContentReader.readWithMetadata_content. cbv zeta.
  fold limit.
  assert (Hpos : 0 < limit).
  { unfold limit. destruct options_maxLength as [m|]; [|lia].
    destruct (m =? 0) eqn:E; [lia|]. apply Z.eqb_neq in E. lia. }
  split; [|split; [|reflexivity]].
  - destruct (limit <? len cleaned) eqn:E.
    + apply Z.ltb_lt in E. apply ContentReaderFacts.truncateContent_bound; assumption.
    + apply Z.ltb_ge in E. lia.
  - intros Hfit. destruct (limit <? len cleaned) eqn:E; [|reflexivity].
    apply Z.ltb_lt in E. lia.
Qed.

(** Ten characters under a limit of 4. *)
Lemma readWithMetadata_content_bound_witness :
  len (ContentReader.readWithMetadata_content (Some 4) "aaaaaaaaaa") <= 6
  /\ ContentReader.readWithMetadata_content (Some 0) "aaaaaaaaaa" = "aaaaaaaaaa".
Proof.
  destruct (readWithMetadata_content_bound (Some 4) "aaaaaaaaaa" ltac:(cbn; lia))
    as (H1 & _ & _).
  destruct (readWithMetadata_content_bound (Some 0) "aaaaaaaaaa" ltac:(cbn; lia))
    as (_ & H2 & _).
  split; [exact H1 | apply H2; vm_compute; discriminate].
Defined.

End ProcessContentFacts.

(** ** Providers whose errors carry no status *)

Module ProviderFacts.
Import Js Errors ResearchAgent HandlerSpecs Providers ResearchAgentMore.
Import StateMachine (State, TimerCallback, Returned, Threw, Fulfilled, Rejected,
                     Pending, currentState, stepCount, startTime, isCancelled,
                     start_time, now_at, cancel_during, run_loop, run, run_fuel,
                     remaining, status).

Lemma fails_weaken {A : Type} (m : M A) (P R : thrown -> Prop) :
  (forall e, P e -> R e) -> fails m P -> fails m R.
Proof.
  intros HPR Hm w. specialize (Hm w). destruct (fst (m w)); auto.
Qed.

(** What a [catch] gets is what the body raised. *)
Lemma fails_try_catch_from {A : Type} (m : M A) (h : thrown -> M A)
    (P R : thrown -> Prop) :
  fails m P -> (forall e, P e -> fails (h e) R) -> fails (try_catch m h) R.
Proof.
  intros Hm Hh w. unfold try_catch. specialize (Hm w).
  destruct (m w) as [[a|e|] w']; cbn [fst] in *; [exact I | apply Hh; exact Hm | exact I].
Qed.

Lemma fails_await_statusless {A : Type} (c : Call) (oracle : nat -> reply A)
    (p : Call -> bool) :
  (forall n st, oracle n = Rejects st -> st = None) ->
  fails (await c oracle p) (fun e => status_of e = None).
Proof.
  intros Ho w. unfold await. destruct (oracle _) as [a|st|] eqn:E; cbn [fst]; try exact I.
  cbn [status_of]. eapply Ho. exact E.
Qed.

(** What [update] throws has no status. *)
Lemma fails_update_statusless (svc : Collaborators)
    (f : StateManager.t -> Z -> option thrown * StateManager.t) :
  (forall sm t, exists u, f sm t = StateManager.update sm u t) ->
  fails (on_manager svc f) (fun e => status_of e = None).
Proof.
  intros Hf w. unfold on_manager. destruct (Hf (manager w) (now svc w)) as [u ->].
  unfold StateManager.update, StateManager.produce.
  destruct (u _); [destruct (StateManager.frozen _)|..]; cbn [fst]; try exact I;
    reflexivity.
Qed.

Section Agent.
Variable config : AgentConfig.
Variable svc : Collaborators.
Hypothesis svc_statusless : statusless svc.

Lemma parseAction_no_status (content : string) :
  fails (parseAction svc content) (fun e => status_of e = None).
Proof.
  unfold parseAction. apply fails_try_catch. intros e.
  apply fails_throw. reflexivity.
Qed.

Lemma decideNextAction_no_status :
  fails (decideNextAction svc) retryable_without_status
  /\ fails (decideNextAction svc) (fun e => status_of e = None).
Proof.
  unfold decideNextAction, llm_error. split.
  - apply fails_bind; [apply fails_get_manager|intros sm]. cbv zeta.
    apply (fails_try_catch_from _ _ (fun e => status_of e = None)).
    + apply fails_bind; [|intros content; apply parseAction_no_status].
      apply fails_await_statusless. apply svc_statusless.
    + intros e He. apply fails_throw. cbn. rewrite He. split; reflexivity.
  - apply fails_bind; [apply fails_get_manager|intros sm]. cbv zeta.
    apply fails_try_catch. intros e. apply fails_throw. reflexivity.
Qed.

Lemma generateFinalAnswer_no_status :
  fails (generateFinalAnswer svc) retryable_without_status.
Proof.
  unfold generateFinalAnswer, llm_error.
  apply fails_bind; [apply fails_get_manager|intros sm]. cbv zeta.
  apply (fails_try_catch_from _ _ (fun e => status_of e = None)).
  - apply fails_bind; [|intros content; apply fails_ret].
    apply fails_await_statusless. apply svc_statusless.
  - intros e He. apply fails_throw. cbn. rewrite He. split; reflexivity.
Qed.

Lemma handlers_no_status (s : AgentState) (h : AgentState -> M AgentState) :
  handlers config svc (StateMachine.status s) = Some h ->
  fails (h s) retryable_without_status.
Proof.
  intros Hh.
  destruct s; cbn in Hh; try discriminate; injection Hh as <-.
  - unfold handleIdle. change (negb (isIdle Idle)) with false. cbv beta iota.
    repeat fails_step; exact I.
  - unfold handleInitializing. cbv beta iota. repeat fails_step; exact I.
  - unfold handleSearching. cbv beta iota.
    apply (fails_try_catch_from _ _ (fun e => status_of e = None)).
    + apply fails_bind; [apply fails_await_statusless; apply svc_statusless|].
      intros results. cbv zeta.
      apply fails_bind;
        [apply fails_update_statusless; intros sm t; eexists; reflexivity|intros ?].
      apply fails_bind; [apply decideNextAction_no_status|intros action].
      unfold visit_first, first_query. repeat fails_step; reflexivity.
    + intros e He. apply fails_bind; [apply fails_incrementErrorCount; exact I|intros ?].
      apply fails_throw. cbn. rewrite He. split; reflexivity.
  - unfold handleReading. cbv beta iota zeta. repeat fails_step. all: exact I.
  - unfold handleEvaluating, shouldContinueResearch. cbv beta iota.
    apply fails_bind.
    + repeat fails_step; exact I.
    + intros go. destruct go; [apply fails_ret|].
      apply fails_bind; [apply generateFinalAnswer_no_status|intros ?; apply fails_ret].
  - unfold handleReflecting. cbv beta iota.
    apply fails_bind; [apply decideNextAction_no_status|intros action].
    apply fails_bind; [apply fails_access; exact I|intros type].
    destruct (is_str type "search").
    { unfold first_query. repeat fails_step; exact I. }
    destruct (is_str type "visit").
    { unfold visit_first. repeat fails_step; exact I. }
    destruct (is_str type "answer").
    { repeat fails_step; exact I. }
    apply fails_bind; [apply generateFinalAnswer_no_status|intros ?; apply fails_ret].
Qed.

(** X28.  With providers whose errors carry no status (as those of
    this repository: they raise plain Errors built from a message), every
    LLMError and SearchError that a handler of the agent raises, and so
    every one that [research] raises, has no status code and is marked
    retryable, whatever the HTTP status behind the failure was: an
    authentication failure is reported as retryable like a server
    error. *)
Theorem statusless_providers_always_retryable
    (env : StateMachine.Env) (fuel : nat) (agent agent' : ResearchAgent.t)
    (query : string) (w w' : World) (e : thrown) :
  (forall s h v e',
      handlers config svc (StateMachine.status s) = Some h ->
      fst (h s v) = Rejected e' ->
      retryable_without_status e')
  /\ (research config svc env fuel agent query w = Some (Raised e, agent', w') ->
      retryable_without_status e).
Proof.
  assert (Hh : forall s h v e',
             handlers config svc (StateMachine.status s) = Some h ->
             fst (h s v) = Rejected e' ->
             retryable_without_status e').
  { intros s h v e' Hs He.
    pose proof (handlers_no_status s h Hs v) as Hf. rewrite He in Hf. exact Hf. }
  split; [exact Hh|].
  unfold research. intros Hr.
  destruct (StateManager.initialize _ _ _) as [[e0|] sm] eqn:Hi.
  { injection Hr as <- _ _.
    destruct (StateManagerFacts.initialize_throws (manager w) query (now svc w) e0)
      as [-> _]; [rewrite Hi; reflexivity | exact I]. }
  destruct (run _ _ _ _ _) as [[[out a1] w1]|] eqn:Hrun; [|discriminate].
  destruct out as [c|e1].
  - destruct c as [s|]; [|injection Hr as <- _ _; exact I].
    destruct (negb (ResearchAgent.isTerminal s)); [|discriminate Hr].
    injection Hr as <- _ _. exact I.
  - injection Hr as <- <- <-. unfold handleError. unfold run in Hrun.
    eapply (StateMachineMore.run_loop_threw (definition config svc) env
              retryable_without_status); [| | | | | |exact Hrun].
    + intros reason. exact I.
    + intros m t e Hc. unfold StateMachine.checkTerminationConditions in Hc.
      destruct (_ <=? _); [injection Hc as <-; exact I|].
      destruct (_ <? _); [injection Hc as <-; exact I|discriminate].
    + exact I.
    + intros s _ _. exact I.
    + intros s h _ _. exact I.
    + intros s h v e _ Hs He. cbn in Hs. exact (Hh s h v e Hs He).
Qed.

End Agent.

(** A search that fails with a plain Error and an LLM that fails with
    one: the SearchError and the LLMError raised have no status and are
    marked retryable. *)
Lemma statusless_providers_always_retryable_witness :
  let svc := Scenarios.services (fun _ => Rejects None) (fun _ => Rejects None) in
  let v := Scenarios.world_of Scenarios.fresh_manager in
  exists s l,
    fst (handleSearching svc (Searching 1 (JStr "q")) v) = Rejected (ESearch s)
    /\ retryable_without_status (ESearch s)
    /\ search_retryable s = true
    /\ fst (handleReflecting svc (Reflecting 1 "") v) = Rejected (ELLM l)
    /\ retryable_without_status (ELLM l)
    /\ llm_retryable l = true.
Proof.
  cbv zeta.
  assert (Hs : statusless (Scenarios.services (fun _ => Rejects None)
                             (fun _ => Rejects None))).
  { split; [|split]; intros n st H; cbn in H; try discriminate H;
      injection H as <-; reflexivity. }
  pose proof (proj1 (statusless_providers_always_retryable Scenarios.default_config
                       (Scenarios.services (fun _ => Rejects None) (fun _ => Rejects None))
                       Hs Scenarios.calm 0 (create 0) (create 0) ""
                       (Scenarios.world_of Scenarios.fresh_manager)
                       (Scenarios.world_of Scenarios.fresh_manager)
                       ETypeError))
    as Hall.
  destruct (fst (handleSearching
                   (Scenarios.services (fun _ => Rejects None) (fun _ => Rejects None))
                   (Searching 1 (JStr "q"))
                   (Scenarios.world_of Scenarios.fresh_manager)))
    as [a|[]|] eqn:E1; try (vm_compute in E1; discriminate E1).
  destruct (fst (handleReflecting
                   (Scenarios.services (fun _ => Rejects None) (fun _ => Rejects None))
                   (Reflecting 1 "")
                   (Scenarios.world_of Scenarios.fresh_manager)))
    as [a|[]|] eqn:E2; try (vm_compute in E2; discriminate E2).
  exists e, e0.
  pose proof (Hall (Searching 1 (JStr "q")) _ _ _ eq_refl E1) as H1.
  pose proof (Hall (Reflecting 1 "") _ _ _ eq_refl E2) as H2.
  split; [reflexivity|]. split; [exact H1|]. split; [exact (proj2 H1)|].
  split; [reflexivity|]. split; [exact H2|]. exact (proj2 H2).
Defined.

End ProviderFacts.

(** ** Validated configuration *)

Module SchemasFacts.
Import Zod Schemas.

(** One field that fails fails the object. *)
Lemma parse_fields_fails (p : schema -> value -> option value)
    (fields : list (string * value)) (shape : list (string * schema))
    (k : string) (s : schema) :
  In (k, s) shape -> p s (lookup k fields) = None ->
  parse_fields p fields shape = None.
Proof.
  induction shape as [|[k' s'] rest IH]; intros Hin Hp; [destruct Hin|].
  cbn [parse_fields]. destruct Hin as [Heq|Hin].
  - injection Heq as -> ->. rewrite Hp. reflexivity.
  - rewrite (IH Hin Hp). destruct (p s' (lookup k' fields)) as [[]|]; reflexivity.
Qed.

(** What an accepted object holds under each key of its shape. *)
Lemma parse_fields_lookup (p : schema -> value -> option value)
    (fields : list (string * value)) (shape : list (string * schema)) :
  forall out,
    List.NoDup (map fst shape) ->
    parse_fields p fields shape = Some out ->
    forall k s, In (k, s) shape -> p s (lookup k fields) = Some (lookup k out).
Proof.
  induction shape as [|[k' s'] rest IH]; intros out Hnd Hp k s Hin; [destruct Hin|].
  cbn [map fst] in Hnd. apply List.NoDup_cons_iff in Hnd as [Hfresh Hnd].
  cbn [parse_fields] in Hp.
  destruct (p s' (lookup k' fields)) as [r|] eqn:Er; [|discriminate].
  destruct (parse_fields p fields rest) as [out'|] eqn:Eo;
    [|destruct r; discriminate].
  assert (Hmiss : forall o, parse_fields p fields rest = Some o ->
                            lookup k' o = VUndefined).
  { clear -Hfresh. revert Hfresh. induction rest as [|[k2 s2] rest IHr];
      intros Hfresh o Ho.
    - injection Ho as <-. reflexivity.
    - cbn [parse_fields] in Ho. cbn [map fst] in Hfresh.
      destruct (p s2 (lookup k2 fields)) as [r2|]; [|discriminate].
      destruct (parse_fields p fields rest) as [o2|] eqn:E2;
        [|destruct r2; discriminate].
      assert (Hne : String.eqb k' k2 = false)
        by (apply String.eqb_neq; intros ->; apply Hfresh; left; reflexivity).
      assert (Hrest : lookup k' o2 = VUndefined)
        by (apply IHr; [intros Hx; apply Hfresh; right; exact Hx | reflexivity]).
      destruct r2; injection Ho as <-; cbn [lookup]; rewrite ?Hne; exact Hrest. }
  destruct Hin as [Heq|Hin].
  - injection Heq as -> ->. rewrite Er.
    destruct r; injection Hp as <-; cbn [lookup]; rewrite ?String.eqb_refl;
      try reflexivity.
    rewrite (Hmiss out' Eo). reflexivity.
  - assert (Hne : String.eqb k k' = false).
    { apply String.eqb_neq. intros ->. apply Hfresh.
      apply (in_map fst) in Hin. exact Hin. }
    rewrite (IH out' Hnd eq_refl k s Hin).
    destruct r; injection Hp as <-; cbn [lookup]; rewrite ?Hne; reflexivity.
Qed.

Section Config.
Variable is_url : string -> bool.

(** An accepted object, key by key. *)
Lemma parse_object (strict : bool) (shape : list (string * schema))
    (v valid : value) :
  List.NoDup (map fst shape) ->
  parse is_url (ZObject strict shape) v = Some valid ->
  forall k s, In (k, s) shape ->
    parse is_url s (field k v) = Some (field k valid).
Proof.
  intros Hnd Hp k s Hin. cbn [parse] in Hp.
  destruct v as [| | | | |fields|]; try discriminate Hp.
  destruct (strict && negb (known_keys shape fields)); [discriminate|].
  destruct (parse_fields (parse is_url) fields shape) as [out|] eqn:E; [|discriminate].
  injection Hp as <-. cbn [field].
  eapply parse_fields_lookup; eassumption.
Qed.

(** An accepted number under [.int()] and bounds. *)
Lemma parse_int_positive_max (hi : Z) (v valid : value) :
  parse is_url (ZNumber [CInt; CPositive; CMax hi]) v = Some valid ->
  exists n, valid = VNum (Int n) /\ 0 < n <= hi.
Proof.
  cbn [parse]. destruct v as [| | |n| | |]; try discriminate.
  destruct n as [z|f| | |]; cbn [forallb passes andb]; try discriminate.
  destruct (0 <? z) eqn:E1; [|discriminate]. destruct (z <=? hi) eqn:E2; [|discriminate].
  cbn [andb]. intros H. injection H as <-. exists z.
  apply Z.ltb_lt in E1. apply Z.leb_le in E2. split; [reflexivity | lia].
Qed.

Lemma parse_int_nonnegative_max (hi : Z) (v valid : value) :
  parse is_url (ZNumber [CInt; CNonnegative; CMax hi]) v = Some valid ->
  exists n, valid = VNum (Int n) /\ 0 <= n <= hi.
Proof.
  cbn [parse]. destruct v as [| | |n| | |]; try discriminate.
  destruct n as [z|f| | |]; cbn [forallb passes andb]; try discriminate.
  destruct (0 <=? z) eqn:E1; [|discriminate]. destruct (z <=? hi) eqn:E2; [|discriminate].
  cbn [andb]. intros H. injection H as <-. exists z.
  apply Z.leb_le in E1. apply Z.leb_le in E2. split; [reflexivity | lia].
Qed.

Lemma parse_boolean_default (d : bool) (v valid : value) :
  parse is_url (ZDefault ZBoolean (VBool d)) v = Some valid ->
  exists b, valid = VBool b /\ (v = VUndefined -> b = d).
Proof.
  cbn [parse]. destruct v as [| |b| | | |]; try discriminate; intros H;
    injection H as <-.
  - exists d. split; [reflexivity | intros _; reflexivity].
  - exists b. split; [reflexivity | intros Hx; discriminate Hx].
Qed.

Ltac shape_nodup :=
  cbn [map fst];
  repeat (apply List.NoDup_cons;
          [cbn [In]; intros Hx;
           repeat (destruct Hx as [Hx|Hx]; [discriminate Hx|]); exact Hx|]);
  apply List.NoDup_nil.

(** X29.  [loadConfigFromEnv] never returns a configuration: the object
    it builds has no [features] key, which the configuration schema
    requires, so validation fails whatever the environment holds.  The
    command line, which starts by loading the configuration, therefore
    never gets as far as a research run: it ends with the usage message
    or with an error. *)
Theorem loadConfigFromEnv_always_throws (env : string -> option string)
    (parseInt : string -> number) (args : list string) :
  loadConfigFromEnv is_url env parseInt = None
  /\ (forall config valid,
        validateConfig is_url config = Some valid ->
        exists flags, field "features" config = VObj flags)
  /\ (Cli.main is_url env parseInt args = Cli.Usage
      \/ Cli.main is_url env parseInt args = Cli.Failed).
Proof.
  assert (Hload : loadConfigFromEnv is_url env parseInt = None).
  { unfold loadConfigFromEnv, AppConfigSchema. cbn [parse].
    match goal with
    | |- (if ?c then _ else _) = None => destruct c; [reflexivity|]
    end.
    rewrite (parse_fields_fails (parse is_url) _ _ "features" FeatureFlagsSchema);
      [reflexivity | cbn [In]; tauto | reflexivity]. }
  split; [exact Hload|]. split.
  - intros config valid Hv. unfold validateConfig, AppConfigSchema in Hv.
    match type of Hv with
    | parse _ (ZObject _ ?shape) _ = _ =>
        assert (Hnd : List.NoDup (map fst shape)) by shape_nodup
    end.
    pose proof (parse_object true _ config valid Hnd Hv
                  "features" FeatureFlagsSchema ltac:(cbn [In]; tauto)) as Hf.
    unfold FeatureFlagsSchema in Hf. cbn [parse] in Hf.
    destruct (field "features" config) as [| | | | |flags|]; try discriminate Hf.
    exists flags. reflexivity.
  - unfold Cli.main. destruct args as [|query rest]; [left; reflexivity|].
    destruct (String.eqb query ""); [left; reflexivity|].
    rewrite Hload. right. reflexivity.
Qed.

(** X30.  A configuration that [validateConfig] accepts has its limits
    within the schema's bounds, and so has the agent configuration that
    the command line derives from it: between 1 and 1000 steps, at most
    an hour, at most 10 bad attempts, a positive token budget (the
    state manager's budget too) and a 30-second transition timeout.
    Whatever the services do, a research run of a new agent under such
    a configuration makes at most 2000 service calls. *)
Theorem validated_config_bounds_the_run
    (config valid : value) (svc : ResearchAgent.Collaborators)
    (env : StateMachine.Env) (fuel : nat) (t0 : Z) (query : string)
    (w w' : ResearchAgent.World) (agent' : ResearchAgent.t)
    (r : ResearchAgent.research_result) :
  validateConfig is_url config = Some valid ->
  ResearchAgent.research (Cli.agent_config_of valid) svc env fuel
    (ResearchAgent.create t0) query w = Some (r, agent', w') ->
  0 < ResearchAgent.maxSteps (Cli.agent_config_of valid) <= 1000
  /\ 0 < ResearchAgent.maxDuration (Cli.agent_config_of valid) <= 3600000
  /\ 0 <= ResearchAgent.maxBadAttempts (Cli.agent_config_of valid) <= 10
  /\ 0 < ResearchAgent.tokenBudget (Cli.agent_config_of valid) <= 10000000
  /\ StateManager.tokenBudget (Cli.manager_options_of valid)
     = ResearchAgent.tokenBudget (Cli.agent_config_of valid)
  /\ ResearchAgent.timeout (Cli.agent_config_of valid) = 30000
  /\ exists added,
       ResearchAgent.calls w' = (ResearchAgent.calls w ++ added)%list
       /\ (length added <= 2000)%nat.
Proof.
  intros Hv Hrun. unfold validateConfig, AppConfigSchema in Hv.
  match type of Hv with
  | parse _ (ZObject _ ?shape) _ = _ =>
      assert (Hnd : List.NoDup (map fst shape)) by shape_nodup
  end.
  pose proof (parse_object true _ config valid Hnd Hv
                "limits" ResearchLimitsSchema ltac:(cbn [In]; tauto)) as Hl.
  unfold ResearchLimitsSchema in Hl.
  match type of Hl with
  | parse _ (ZObject _ ?shape) _ = _ =>
      assert (Hnd2 : List.NoDup (map fst shape)) by shape_nodup
  end.
  destruct (parse_int_positive_max _ _ _
              (parse_object true _ _ _ Hnd2 Hl "maxSteps" _ ltac:(cbn [In]; tauto)))
    as (steps & Es & Hs).
  destruct (parse_int_positive_max _ _ _
              (parse_object true _ _ _ Hnd2 Hl "maxDuration" _ ltac:(cbn [In]; tauto)))
    as (duration & Ed & Hd).
  destruct (parse_int_nonnegative_max _ _ _
              (parse_object true _ _ _ Hnd2 Hl "maxBadAttempts" _
                 ltac:(cbn [In]; tauto)))
    as (bad & Eb & Hb).
  destruct (parse_int_positive_max _ _ _
              (parse_object true _ _ _ Hnd2 Hl "tokenBudget" _ ltac:(cbn [In]; tauto)))
    as (budget & Et & Ht).
  unfold Cli.agent_config_of, Cli.manager_options_of in *.
  cbn [ResearchAgent.maxSteps ResearchAgent.maxDuration ResearchAgent.maxBadAttempts
       ResearchAgent.tokenBudget StateManager.tokenBudget].
  rewrite Es, Ed, Eb, Et. cbn [Cli.to_Z].
  split; [exact Hs|]. split; [exact Hd|]. split; [exact Hb|]. split; [exact Ht|].
  split; [reflexivity|]. split; [reflexivity|].
  apply ResearchAgentMore.research_run in Hrun. cbv zeta in Hrun.
  destruct Hrun as [(e & _ & _ & _ & ->)|(_ & out & Hrun2)].
  { exists []. cbn [ResearchAgent.calls]. rewrite app_nil_r.
    split; [reflexivity | cbn; lia]. }
  apply ResearchAgentMore.run_adds_calls in Hrun2 as (added & Hc & Hlen).
  cbn [ResearchAgent.calls] in Hc.
  exists added. split; [exact Hc|].
  unfold StateMachine.remaining in Hlen.
  cbn [ResearchAgent.definition StateMachine.options StateMachine.maxSteps
       ResearchAgent.maxSteps ResearchAgent.create StateMachine.create
       StateMachine.stepCount] in Hlen.
  rewrite Es in Hlen. cbn [Cli.to_Z] in Hlen. lia.
Qed.

End Config.

(** A configuration with a limit of four steps, and a session under it
    whose LLM never decides: two searches and two requests. *)
Lemma validated_config_bounds_the_run_witness :
  let config :=
    VObj [("llm", VObj [("name", VStr "openai"); ("apiKey", VStr "key");
                        ("model", VStr "gpt-4o-mini")]);
          ("search", VObj [("name", VStr "jina"); ("apiKey", VStr "key")]);
          ("limits", VObj [("maxSteps", int 4); ("maxDuration", int 300000);
                           ("maxBadAttempts", int 3); ("tokenBudget", int 1000)]);
          ("features", VObj []);
          ("observability", VObj [])] in
  let svc := Scenarios.services Scenarios.search_ok Scenarios.llm_prose in
  let w := Scenarios.world_of (Scenarios.manager_holding "q" 0) in
  exists valid r agent' w',
    validateConfig (fun _ => true) config = Some valid
    /\ ResearchAgent.research (Cli.agent_config_of valid) svc Scenarios.calm 5
         (ResearchAgent.create 0) "why" w = Some (r, agent', w')
    /\ field "enableCaching" (field "features" valid) = VBool true
    /\ ResearchAgent.maxSteps (Cli.agent_config_of valid) = 4
    /\ length (ResearchAgent.calls w') = 4%nat
    /\ (length (ResearchAgent.calls w') <= 2000)%nat.
Proof.
  cbv zeta. eexists _, _, _, _.
  split; [vm_compute; reflexivity|]. split; [vm_compute; reflexivity|].
  split; [reflexivity|]. split; [reflexivity|]. split; [reflexivity|].
  epose proof (validated_config_bounds_the_run (fun _ => true)
               (VObj [("llm", VObj [("name", VStr "openai"); ("apiKey", VStr "key");
                                    ("model", VStr "gpt-4o-mini")]);
                      ("search", VObj [("name", VStr "jina"); ("apiKey", VStr "key")]);
                      ("limits", VObj [("maxSteps", int 4); ("maxDuration", int 300000);
                                       ("maxBadAttempts", int 3);
                                       ("tokenBudget", int 1000)]);
                      ("features", VObj []);
                      ("observability", VObj [])])
               _ (Scenarios.services Scenarios.search_ok Scenarios.llm_prose)
               Scenarios.calm 5 0 "why"
               (Scenarios.world_of (Scenarios.manager_holding "q" 0))
               _ _ _ ltac:(vm_compute; reflexivity) ltac:(vm_compute; reflexivity))
    as (_ & _ & _ & _ & _ & _ & added & Hc & Hl).
  rewrite Hc. cbn [ResearchAgent.calls Scenarios.world_of app]. exact Hl.
Defined.

End SchemasFacts.
